(* ===== verification/_CoqProject ===== *)
-Q . S2P
Prelude.v
JsText.v
Regex.v
CfgScan.v
FXServerPort.v
NodePath.v
Schedule.v
CfgFiles.v
DepCheck.v
TxAdminASCII.v
Helpers.v
Scenarios.v
