(* ===== verification/Prelude.v ===== *)
(** * A verification development of txAdmin's [src/extras/helpers.js]

    The repository has a single source file, [src/src/extras/helpers.js],
    which exports seven helpers used when txAdmin starts an FXServer:
    [txAdminASCII], [dependencyChecker], [parseSchedule], [getCFGFileData],
    [resolveCFGFilePath], [getFXServerPort] and [findLikelyCFGPath].  The core
    of the program is [getFXServerPort] (lines 143-229): it scans the raw text
    of [server.cfg] with two global, multiline, case-insensitive regular
    expressions, extracts the [endpoint_add_*] bindings and the
    [sv_maxclients] values, and then runs an ordered list of checks whose
    first failure is thrown as an [Error].  The checks read the process-wide
    object [GlobalData] (hosting-provider defaults); here it is an explicit
    argument.

    ** Layout of the library

    - [Prelude] (this file): JavaScript values used throughout (UTF-16 code
      units as [N], strings as lists of code units, numbers that may be
      [NaN]), the [result] type of code that throws and its bind notation in
      [js_scope], the shared Ltac and the hint database [txadmin].
    - [JsText]: the [String.prototype] methods the code calls: [includes],
      [trim], [toLowerCase], [split], [Array.prototype.join], the global
      [parseInt], and number to string conversion used by template literals.
    - [Regex]: the part of ECMAScript's [RegExp] the code relies on: a
      pattern AST (character atoms, greedy bounded repetition of an atom,
      multiline anchors, concatenation, alternation, capture groups), the
      backtracking matcher of ECMA-262 22.2.2 written with continuations,
      [RegExp.prototype.exec] with [lastIndex] for global regexps, and the
      loop [while (match = re.exec(s))] with fuel.
    - [CfgScan]: the two patterns of [getFXServerPort] (lines 146-147) as
      terms of the AST, the extraction loops (lines 149-166), and the
      characterisation of what a match is.
    - [FXServerPort]: [GlobalData], the endpoint records, every throw site of
      [getFXServerPort] with its message, and the function itself.
    - [NodePath]: Node's [path.isAbsolute], [path.normalize], [path.join]
      and [path.resolve] on POSIX paths, which the file helpers call.
    - [Schedule]: [parseSchedule] (lines 66-85): the split on commas, the
      per-entry [exec] of [/^$|^([01]?[0-9]|2[0-3]):([0-5][0-9])$/gm] on the
      trimmed entry, and [parseInt] of its two groups.
    - [CfgFiles]: [getCFGFileData], [resolveCFGFilePath] and
      [findLikelyCFGPath] (lines 95-128, 237-255), written against the type
      class [FileSystem] (the [fs] calls and [process.cwd()]) and its laws
      [FileSystemLaws]; the module [Disk] is a concrete file system with
      files, directories and symbolic links that implements the class.
    - [DepCheck]: [dependencyChecker] (lines 28-57) as a function from its
      environment ([APP_ENV], the resource folder, [readFileSync],
      [JSON.parse], [require.resolve]) to the lines it prints and whether it
      calls [process.exit()], with [Object.keys] after ECMA-262.
    - [TxAdminASCII]: [txAdminASCII] (lines 10-21): the base64 literal as
      written, Node's [Buffer.from(s, 'base64')] and [toString('ascii')],
      and the encoder [toString('base64')] of the generator left in
      comments.
    - [Helpers]: [module.exports] (lines 259-267) as a record of the seven
      model functions.
    - [Scenarios]: concrete [server.cfg] files, schedules, file systems and
      environments; the witnesses of the theorems with hypotheses, and
      examples, evaluated by [vm_compute], of behaviours of the endpoint
      pattern the spec does not describe (a directive split over two lines,
      a port of more than five digits, an endpoint type other than tcp and
      udp), for which no general theorem is stated.

    [getFXServerPort] uses [CfgScan], which uses [Regex] and [JsText];
    [parseSchedule] uses the same regex engine; [findLikelyCFGPath] calls
    [getCFGFileData] on paths built by [NodePath].

    ** What the theorems show

    - [Regex]: the matcher is sound for a declarative span semantics
      ([mtch_sound]); [exec] returns the leftmost match at or after
      [lastIndex] and [null] only when nothing matches ([exec_spec]); the
      [exec] loop terminates and returns exactly the matches of the abstract
      specification [all_matches] ([exec_all_iff]), in source order; as a
      step relation [loop_step] the loop has no infinite run and reaches its
      stopped state ([exec_loop_live]).
    - [JsText]: [parseInt] reads back every integer a template literal
      prints; [split] undoes [join].
    - [CfgScan]: the scans always finish, every match defines the three
      groups of an endpoint, and every endpoint has a non-empty lower-case
      word as its type and a port that is a number below 10^5.
    - [FXServerPort]: a characterisation of acceptance (the function returns
      port [p] exactly when every rule holds with [p]), the returned port is
      never reserved and below 10^5, no internal [TypeError] is reachable,
      one theorem per throw site giving the error and the rules before it, a
      provider cap of 0 or none behaves as no provider at all
      ([getFXServerPort_cap_zero]), and one TCP endpoint on 127.0.0.1 passes
      the default interface rule ([getFXServerPort_loopback_accepted]),
      unlike what the doc comment of line 136 says.
    - [Schedule]: every parsed hour is [NaN] or in 0..23 and every minute
      [NaN] or in 0..59; printed [HH:MM] schedules parse back (all 1440 times
      checked by evaluation); [filter] only removes raw strings; one item per
      non-empty entry; a blank entry anywhere gives a [NaN] time that
      [filter] keeps ([parseSchedule_blank_entry]).
    - [NodePath]: [normalizeString] is idempotent; [path.resolve] returns an
      absolute path and is idempotent; [path.join] keeps absoluteness.
    - [CfgFiles]: [getCFGFileData] succeeds exactly when its four checks pass
      and otherwise throws the error of the first failing one; under the laws
      the uncaught [lstatSync] error is unreachable; [resolveCFGFilePath] is
      absolute and idempotent; [findLikelyCFGPath] refines "the first
      readable candidate" and always fails for a relative folder; a symbolic
      link named [server.cfg] is always refused.
    - [DepCheck]: when the process stops, that the report lists each
      unresolvable dependency once, and that a [package.json] without a
      [dependencies] member always stops the process with the read or parse
      message ([dependencyChecker_no_dependencies]).
    - [TxAdminASCII]: lemmas on the Node built-ins the banner uses (the
      banner itself is evaluated in [Scenarios]): base64 decoding undoes
      encoding for every buffer
      (each group of three bytes checked on all byte values by
      evaluation); the decoder ignores white space, so the line breaks in
      the literal are harmless; [toString('ascii')] yields 7-bit code units.
    - [Helpers]: a path found by [findLikelyCFGPath] is read by
      [getCFGFileData] and kept by [resolveCFGFilePath].

    ** Fuel and bounds

    - [exec_all] runs the loop with fuel [S (length input)]: each match of the
      two patterns of [getFXServerPort] consumes at least one unit, so
      [lastIndex] grows at every turn ([exec_loop_total]).
    - [N_to_js] prints with fuel [N.size_nat n], the number of binary digits,
      which bounds the number of decimal digits ([size_nat_bound]).
    - [Disk.follow] follows at most 40 symbolic links, Linux's [MAXSYMLINKS],
      then fails with [ELOOP] as the kernel does.

    ** Not modelled

    - The [figlet] rendering of lines 12-13 is commented out; the banner is
      taken as the bytes the literal encodes.  Node's newer base64 decoder
      (simdutf) agrees with the legacy loop modelled here on the literal,
      which holds only alphabet characters, white space and one ['='].
    - [JSON.parse] and [require.resolve] are fields of the environment of
      [dependencyChecker], not implementations; [Buffer.toString] is taken to
      give the file's text.
    - Windows paths (drive letters, backslashes) of Node's [path] module.
    - The assignment of [parseSchedule] to the undeclared global [times]; it
      does not change the result.

    ** Modelling choices

    - A JavaScript string is a sequence of UTF-16 code units; a code unit is
      an [N].  Whitespace and line terminators are those of ECMA-262
      (WhiteSpace and LineTerminator), including the non-ASCII ones.
    - The ignoreCase flag is modelled by the canonicalisation of the ASCII
      range; this is exact for the patterns of [helpers.js], whose literals and
      classes are all ASCII, because without the [u] flag a non-ASCII unit
      never canonicalises to an ASCII one.
    - Numbers produced by [parseInt] are integers [Z] or [NaN]; the values
      involved are far below 2^53, where doubles are exact.
    - Loops over [exec] run on fuel; theorems show that the fuel given is
      always enough, so the model never stops early on any input.
*)

From Stdlib Require Import List Arith ZArith NArith Lia Bool.
From Stdlib Require String Ascii.
(** [lia] on [N.div] and [N.modulo]. *)
From Stdlib Require Export ZifyN.
Export String.StringSyntax.
Import ListNotations.

Declare Scope js_scope.
Delimit Scope js_scope with js.
Open Scope js_scope.

(** ** JavaScript values *)

(** A UTF-16 code unit. *)
Definition char := N.

(** A JavaScript string: its sequence of code units. *)
Definition jsstr := list char.

(** Turn a Rocq ASCII literal into a JavaScript string (used for the string
    literals of the source). *)
Definition js (s : String.string) : jsstr :=
  map Ascii.N_of_ascii (String.list_ascii_of_string s).
Arguments js s%_string_scope.

(** A JavaScript number as produced by [parseInt]: an integer or [NaN]. *)
Inductive jsnum :=
| NaN
| Num (z : Z).

(** Strict equality [===] on numbers: [NaN] equals nothing. *)
Definition num_eqb (a b : jsnum) : bool :=
  match a, b with
  | Num x, Num y => Z.eqb x y
  | _, _ => false
  end.

(** The relational operators [>] and [>=] with an integer on the right:
    false on [NaN]. *)
Definition num_gtb (a : jsnum) (y : Z) : bool :=
  match a with Num x => Z.ltb y x | NaN => false end.

Definition num_geb (a : jsnum) (y : Z) : bool :=
  match a with Num x => Z.leb y x | NaN => false end.

Definition num_leb (a : jsnum) (y : Z) : bool :=
  match a with Num x => Z.leb x y | NaN => false end.

(** ** Code that throws *)

(** The outcome of code that returns a value or throws an exception. *)
Inductive result (A E : Type) :=
| Ok (a : A)
| Err (e : E).
Arguments Ok {A E} a.
Arguments Err {A E} e.

Definition bind {A B E} (c : result A E) (k : A -> result B E) : result B E :=
  match c with
  | Ok a => k a
  | Err e => Err e
  end.

Notation "x <- c ;; k" := (bind c (fun x => k))
  (at level 61, c at next level, right associativity) : js_scope.
Notation "c ;;; k" := (bind c (fun _ => k))
  (at level 61, right associativity) : js_scope.

(** [if (cond) throw e;] as a statement. *)
Definition throw_if {E} (cond : bool) (e : E) : result unit E :=
  if cond then Err e else Ok tt.

(** An exception of another kind propagating through a call. *)
Definition map_err {A E F} (f : E -> F) (c : result A E) : result A F :=
  match c with
  | Ok a => Ok a
  | Err e => Err (f e)
  end.

(** ** Shared tactics and hints *)

Create HintDb txadmin.
Create Rewrite HintDb txadmin_rw.

Ltac inv H := inversion H; subst; clear H.

(** Case on the first [match] or [if] scrutinee of the goal. *)
Ltac case_goal :=
  match goal with
  | |- context [match ?x with _ => _ end] =>
      let E := fresh "E" in destruct x eqn:E
  end.

(** Evaluate the boolean comparisons on [N] of the goal that [lia] decides
    from the context. *)
Ltac nbool :=
  repeat match goal with
  | |- context [N.eqb ?a ?b] =>
      first [rewrite (proj2 (N.eqb_eq a b)) by lia | rewrite (proj2 (N.eqb_neq a b)) by lia]
  | |- context [N.leb ?a ?b] =>
      first [rewrite (proj2 (N.leb_le a b)) by lia | rewrite (proj2 (N.leb_gt a b)) by lia]
  | |- context [N.ltb ?a ?b] =>
      first [rewrite (proj2 (N.ltb_lt a b)) by lia | rewrite (proj2 (N.ltb_ge a b)) by lia]
  end.

(** Turn a hypothesis [N.leb a b && N.leb c d = true] into inequalities. *)
Ltac nbounds H :=
  repeat (rewrite andb_true_iff in H; destruct H as [?H ?H]);
  repeat match goal with
  | H' : N.leb _ _ = true |- _ => apply N.leb_le in H'
  end.

(** Case on the innermost [match]/[if] scrutinees of hypothesis [H] until
    none is left, reducing [H] after each case. *)
Ltac destr_in H :=
  repeat match type of H with
  | context [match ?x with _ => _ end] =>
      lazymatch x with
      | context [match _ with _ => _ end] => fail
      | _ => destruct x; simpl in H
      end
  end.

Lemma bind_ok {A B E} (a : A) (k : A -> result B E) : bind (Ok a) k = k a.
Proof. reflexivity. Qed.

Lemma bind_err {A B E} (e : E) (k : A -> result B E) : bind (Err e) k = Err e.
Proof. reflexivity. Qed.

Lemma bind_eq_ok {A B E} (c : result A E) (k : A -> result B E) (b : B) :
  bind c k = Ok b <-> exists a, c = Ok a /\ k a = Ok b.
Proof.
  destruct c as [a|e]; simpl; split.
  - eauto.
  - intros (a' & [= ->] & H); exact H.
  - discriminate.
  - intros (a' & ? & _); discriminate.
Qed.

Lemma throw_if_ok {E} (b : bool) (e : E) : throw_if b e = Ok tt <-> b = false.
Proof. destruct b; simpl; split; congruence. Qed.

Lemma throw_if_false {E} (e : E) : throw_if false e = Ok tt.
Proof. reflexivity. Qed.

Lemma throw_if_true {E} (e : E) : throw_if true e = Err e.
Proof. reflexivity. Qed.

#[export] Hint Rewrite @bind_ok @bind_err @throw_if_false @throw_if_true : txadmin_rw.

(** [Array.prototype.find] is [List.find]; these are its two directions. *)
Lemma find_none_forall {A} (f : A -> bool) (l : list A) :
  find f l = None <-> forall x, In x l -> f x = false.
Proof.
  split; [apply find_none|].
  induction l as [|y l IH]; simpl; intros H; [reflexivity|].
  rewrite (H y (or_introl eq_refl)). apply IH. eauto.
Qed.

Lemma find_some_exists {A} (f : A -> bool) (l : list A) :
  (exists x, find f l = Some x) <-> exists x, In x l /\ f x = true.
Proof.
  split.
  - intros [x Hx]. exists x. exact (find_some f l Hx).
  - intros (x & Hin & Hx). destruct (find f l) as [y|] eqn:E; [eauto|].
    rewrite find_none_forall in E. rewrite (E x Hin) in Hx. discriminate.
Qed.

Lemma find_existsb {A} (f : A -> bool) (l : list A) :
  match find f l with Some _ => true | None => false end = existsb f l.
Proof.
  induction l as [|y l IH]; simpl; [reflexivity|]. now destruct (f y).
Qed.

#[export] Hint Rewrite @find_existsb : txadmin_rw.

(** ** Mapping a fallible function over a list, stopping at the first failure *)

Fixpoint map_opt {A B} (f : A -> option B) (l : list A) : option (list B) :=
  match l with
  | [] => Some []
  | x :: l' =>
      match f x with
      | Some y => option_map (cons y) (map_opt f l')
      | None => None
      end
  end.

Lemma map_opt_total {A B} (f : A -> option B) (l : list A) :
  (forall x, In x l -> exists y, f x = Some y) -> exists l', map_opt f l = Some l'.
Proof.
  induction l as [|x l IH]; simpl; intros H; [eauto|].
  destruct (H x (or_introl eq_refl)) as [y ->].
  destruct IH as [l' ->]; [eauto|]. simpl. eauto.
Qed.

Lemma map_opt_in {A B} (f : A -> option B) (l : list A) (l' : list B) :
  map_opt f l = Some l' -> forall y, In y l' -> exists x, In x l /\ f x = Some y.
Proof.
  revert l'. induction l as [|x l IH]; simpl; intros l' H y Hy.
  - inv H. destruct Hy.
  - destruct (f x) as [y'|] eqn:E; [|discriminate].
    destruct (map_opt f l) as [l''|] eqn:E'; [|discriminate]. inv H.
    destruct Hy as [<-|Hy]; [eauto|]. destruct (IH _ eq_refl y Hy) as (x' & ? & ?). eauto.
Qed.

(** ** Equality of strings *)

(** [a === b] on strings. *)
Definition str_eqb (a b : jsstr) : bool :=
  if list_eq_dec N.eq_dec a b then true else false.

Lemma str_eqb_eq (a b : jsstr) : str_eqb a b = true <-> a = b.
Proof. unfold str_eqb. destruct (list_eq_dec N.eq_dec a b); split; congruence. Qed.

Lemma str_eqb_refl (a : jsstr) : str_eqb a a = true.
Proof. apply str_eqb_eq. reflexivity. Qed.

#[export] Hint Rewrite str_eqb_refl : txadmin_rw.
#[export] Hint Resolve str_eqb_refl : txadmin.

(** [const x = arr.find(p); if (!x) throw e;] *)
Definition expect_some {A E} (o : option A) (e : E) : result unit E :=
  match o with Some _ => Ok tt | None => Err e end.

Lemma expect_some_find {A E} (f : A -> bool) (l : list A) (e : E) :
  expect_some (find f l) e = throw_if (negb (existsb f l)) e.
Proof. unfold expect_some. rewrite <- find_existsb. now destruct (find f l). Qed.

Lemma existsb_false_forall {A} (f : A -> bool) (l : list A) :
  existsb f l = false <-> Forall (fun x => f x = false) l.
Proof.
  induction l as [|x l IH]; simpl; [split; auto|].
  rewrite orb_false_iff, IH. split; [intros [? ?]; constructor; auto|intros H; inv H; auto].
Qed.

Lemma expect_some_ok {A E} (o : option A) (e : E) :
  expect_some o e = Ok tt <-> exists x, o = Some x.
Proof. destruct o; simpl; split; eauto; [discriminate|intros [x Hx]; discriminate]. Qed.

Lemma bind_unit_ok {B E} (c : result unit E) (k : unit -> result B E) (b : B) :
  bind c k = Ok b <-> c = Ok tt /\ k tt = Ok b.
Proof.
  rewrite bind_eq_ok. split; [intros ([] & ? & ?); auto|intros [? ?]; eauto].
Qed.

Lemma num_eqb_true (a b : jsnum) : num_eqb a b = true <-> exists z, a = Num z /\ b = Num z.
Proof.
  destruct a as [|x], b as [|y]; simpl; split; try discriminate;
    try (intros (z & ? & ?); discriminate).
  - intros H. apply Z.eqb_eq in H as ->. eauto.
  - intros (z & [= ->] & [= ->]). apply Z.eqb_refl.
Qed.

(** [find] returns the first element that satisfies the predicate. *)
Lemma find_first {A} (f : A -> bool) (pre post : list A) (x : A) :
  Forall (fun y => f y = false) pre -> f x = true -> find f (pre ++ x :: post) = Some x.
Proof.
  induction 1 as [|y pre Hy _ IH]; simpl; intros Hx; [now rewrite Hx|]. rewrite Hy. auto.
Qed.

Lemma firstn_plus {A} (n m : nat) (l : list A) :
  firstn (n + m) l = firstn n l ++ firstn m (skipn n l).
Proof.
  revert l. induction n as [|n IH]; intros [|x l]; simpl; auto.
  - now rewrite firstn_nil.
  - now rewrite IH.
Qed.

(** ** Finite checks by evaluation *)

(** The numbers [0 .. n-1]. *)
Definition N_upto (n : nat) : list N := map N.of_nat (seq 0 n).

Lemma in_N_upto (n : nat) (x : N) : (x < N.of_nat n)%N -> In x (N_upto n).
Proof.
  intros H. apply in_map_iff. exists (N.to_nat x). split; [apply N2Nat.id|].
  apply in_seq. lia.
Qed.

(** A boolean test checked on every [x < n] holds for every [x < n]. *)
Lemma forall_upto (n : nat) (f : N -> bool) (x : N) :
  forallb f (N_upto n) = true -> (x < N.of_nat n)%N -> f x = true.
Proof. intros H Hx. rewrite forallb_forall in H. exact (H x (in_N_upto n x Hx)). Qed.

Lemma forall_upto2 (n m : nat) (f : N -> N -> bool) (x y : N) :
  forallb (fun x => forallb (f x) (N_upto m)) (N_upto n) = true ->
  (x < N.of_nat n)%N -> (y < N.of_nat m)%N -> f x y = true.
Proof. intros H Hx Hy. exact (forall_upto m (f x) y (forall_upto n _ x H Hx) Hy). Qed.
