(* ===== verification/JsText.v ===== *)
(** * JavaScript string primitives used by [helpers.js]

    The built-ins the source calls on strings: [String.prototype.includes]
    (line 144), [trim] (lines 72, 155), [toLowerCase] (line 156), [split]
    (line 67), the global [parseInt] (lines 78-79, 158, 162), and the
    conversion of a number to a string done by template literals (lines 171,
    174, 199-201).  Each is written after its ECMA-262 algorithm, on code
    units. *)

From Stdlib Require Import List Arith ZArith NArith Lia Bool.
From S2P Require Import Prelude.
Import ListNotations.
Open Scope js_scope.
Local Open Scope N_scope.

(** ** Character classes of ECMA-262 *)

(** LineTerminator: LF, CR, LS, PS. *)
Definition is_line_terminator (c : char) : bool :=
  N.eqb c 10 || N.eqb c 13 || N.eqb c 8232 || N.eqb c 8233.

(** WhiteSpace: TAB, VT, FF, ZWNBSP and the space separators (Zs). *)
Definition is_whitespace (c : char) : bool :=
  N.eqb c 9 || N.eqb c 11 || N.eqb c 12 || N.eqb c 32 || N.eqb c 160
  || N.eqb c 5760 || (N.leb 8192 c && N.leb c 8202) || N.eqb c 8239
  || N.eqb c 8287 || N.eqb c 12288 || N.eqb c 65279.

(** The set of [\s] and of [trim]: WhiteSpace and LineTerminator. *)
Definition is_space (c : char) : bool :=
  is_whitespace c || is_line_terminator c.

Definition is_digit (c : char) : bool := N.leb 48 c && N.leb c 57.

Definition is_upper (c : char) : bool := N.leb 65 c && N.leb c 90.
Definition is_lower (c : char) : bool := N.leb 97 c && N.leb c 122.

(** [\w] without the [u] flag: [[A-Za-z0-9_]]. *)
Definition is_word (c : char) : bool :=
  is_upper c || is_lower c || is_digit c || N.eqb c 95.

Definition ascii_lower (c : char) : char := if is_upper c then c + 32 else c.
Definition ascii_upper (c : char) : char := if is_lower c then c - 32 else c.

(** ** [String.prototype.includes] *)

Fixpoint starts_with (t s : jsstr) : bool :=
  match t, s with
  | [], _ => true
  | x :: t', y :: s' => N.eqb x y && starts_with t' s'
  | _ :: _, [] => false
  end.

(** [s.includes(t)]: some suffix of [s] starts with [t]. *)
Fixpoint includes (s t : jsstr) : bool :=
  starts_with t s || match s with [] => false | _ :: s' => includes s' t end.

(** ** [String.prototype.trim] *)

Fixpoint trim_start (s : jsstr) : jsstr :=
  match s with
  | c :: s' => if is_space c then trim_start s' else s
  | [] => []
  end.

Definition trim_end (s : jsstr) : jsstr := rev (trim_start (rev s)).

(** [s.trim()] removes WhiteSpace and LineTerminator from both ends. *)
Definition trim (s : jsstr) : jsstr := trim_end (trim_start s).

(** ** [String.prototype.toLowerCase] on the ASCII range *)

(** The source applies [toLowerCase] only to captures of [\w+], which are
    ASCII ([CfgScan.endpoint_type_ascii]); on ASCII the Unicode mapping is
    this one. *)
Definition toLowerCase (s : jsstr) : jsstr := map ascii_lower s.

(** ** [String.prototype.split] with a one-unit separator *)

Fixpoint split_aux (sep : char) (s : jsstr) (cur : jsstr) : list jsstr :=
  match s with
  | [] => [rev cur]
  | c :: s' => if N.eqb c sep then rev cur :: split_aux sep s' []
               else split_aux sep s' (c :: cur)
  end.

(** A line feed, ['\n'] in a literal. *)
Definition nl : jsstr := [10].

(** [s.length > 0], the truthiness of [s.length]. *)
Definition nonempty (s : jsstr) : bool := match s with [] => false | _ :: _ => true end.

(** [s.split(sep)] for a separator of one code unit. *)
Definition split (s : jsstr) (sep : char) : list jsstr := split_aux sep s [].

(** [Array.prototype.join(sep)] on an array of strings. *)
Fixpoint join (sep : jsstr) (l : list jsstr) : jsstr :=
  match l with
  | [] => []
  | [x] => x
  | x :: l' => x ++ sep ++ join sep l'
  end.

(** ** [parseInt(string)] with no radix *)

Definition hex_value (c : char) : option N :=
  if is_digit c then Some (c - 48)
  else if N.leb 97 c && N.leb c 102 then Some (c - 87)
  else if N.leb 65 c && N.leb c 70 then Some (c - 55)
  else None.

Definition digit_value (radix : N) (c : char) : option N :=
  match hex_value c with
  | Some v => if N.ltb v radix then Some v else None
  | None => None
  end.

(** The longest prefix of radix digits, as its value and its length. *)
Fixpoint digits_prefix (radix : N) (s : jsstr) (acc : N) (len : nat) : N * nat :=
  match s with
  | c :: s' =>
      match digit_value radix c with
      | Some v => digits_prefix radix s' (radix * acc + v) (S len)
      | None => (acc, len)
      end
  | [] => (acc, len)
  end.

(** Step 3-6 of ECMA-262 19.2.5: the sign. *)
Definition parse_sign (s : jsstr) : Z * jsstr :=
  match s with
  | 45 :: s' => ((-1)%Z, s')
  | 43 :: s' => (1%Z, s')
  | _ => (1%Z, s)
  end.

(** Steps 8-11 with [radix] undefined: a [0x]/[0X] prefix selects 16. *)
Definition parse_radix (s : jsstr) : N * jsstr :=
  match s with
  | 48 :: x :: s' => if N.eqb x 120 || N.eqb x 88 then (16, s') else (10, s)
  | _ => (10, s)
  end.

(** ECMA-262 19.2.5 with [radix] undefined: skip leading white space, read
    a sign, strip a [0x]/[0X] prefix (radix 16, else 10), take the longest
    prefix of digits; [NaN] when it is empty. *)
Definition parseInt (input : jsstr) : jsnum :=
  let '(sign, s) := parse_sign (trim_start input) in
  let '(radix, s) := parse_radix s in
  match digits_prefix radix s 0 0 with
  | (_, O) => NaN
  | (v, S _) => Num (sign * Z.of_N v)%Z
  end.

(** ** Number to string, as template literals print integers *)

Fixpoint N_digits_aux (fuel : nat) (n : N) (acc : jsstr) : jsstr :=
  match fuel with
  | O => acc
  | S f =>
      let acc' := (48 + n mod 10) :: acc in
      if N.ltb n 10 then acc' else N_digits_aux f (n / 10) acc'
  end.

(** The decimal digits of [n]; [N.size_nat n] bounds their number. *)
Definition N_to_js (n : N) : jsstr := N_digits_aux (N.size_nat n) n [].

(** [`${z}`] for an integer [z]. *)
Definition Z_to_js (z : Z) : jsstr :=
  match z with
  | Z0 => [48]
  | Zpos p => N_to_js (Npos p)
  | Zneg p => 45 :: N_to_js (Npos p)
  end.

(** [`${n}`] for a number that may be [NaN]. *)
Definition num_to_js (n : jsnum) : jsstr :=
  match n with Num z => Z_to_js z | NaN => js "NaN" end.

(** ** Facts about digits and [parseInt] *)

Lemma digit_bounds (c : char) : is_digit c = true -> 48 <= c <= 57.
Proof. unfold is_digit. intros H. nbounds H. lia. Qed.

Lemma digit_not_space (c : char) : is_digit c = true -> is_space c = false.
Proof.
  intros H. apply digit_bounds in H.
  unfold is_space, is_whitespace, is_line_terminator. nbool. reflexivity.
Qed.

(** A text of blanks trims to the empty string. *)
Lemma trim_blank (s : jsstr) : forallb is_space s = true -> trim s = [].
Proof.
  intros H. unfold trim. replace (trim_start s) with (@nil char); [reflexivity|].
  induction s as [|c s IH]; [reflexivity|].
  simpl in H |- *. apply andb_true_iff in H as [-> H]. auto.
Qed.

Lemma digit_value_10 (c : char) :
  is_digit c = true -> digit_value 10 c = Some (c - 48) /\ c - 48 < 10.
Proof.
  intros H. unfold digit_value, hex_value. rewrite H.
  apply digit_bounds in H. nbool. split; [reflexivity|lia].
Qed.

(** Reading a run of decimal digits appends them to the accumulator. *)
Lemma digits_prefix_dec (s : jsstr) :
  forall (acc : N) (len : nat), Forall (fun c => is_digit c = true) s ->
  exists v, digits_prefix 10 s acc len = (v, (len + length s)%nat)
    /\ acc * 10 ^ N.of_nat (length s) <= v < (acc + 1) * 10 ^ N.of_nat (length s).
Proof.
  induction s as [|c s IH]; intros acc len Hs; cbn [digits_prefix length].
  - exists acc. rewrite Nat.add_0_r. split; [reflexivity|simpl; lia].
  - inv Hs. destruct (digit_value_10 c ltac:(assumption)) as [Hdv Hd].
    rewrite Hdv. cbv beta iota.
    destruct (IH (10 * acc + (c - 48)) (S len) ltac:(assumption)) as (v & -> & Hv).
    exists v. split; [f_equal; lia|].
    rewrite Nat2N.inj_succ, N.pow_succ_r'. nia.
Qed.

Lemma parse_sign_digit (c : char) (s : jsstr) :
  is_digit c = true -> parse_sign (c :: s) = (1%Z, c :: s).
Proof.
  intros H. apply digit_bounds in H. unfold parse_sign.
  destruct c as [|p]; [lia|]. repeat (destruct p as [p|p|]; try reflexivity); lia.
Qed.

Lemma parse_radix_digits (c x : char) (s : jsstr) :
  is_digit x = true -> parse_radix (c :: x :: s) = (10, c :: x :: s).
Proof.
  intros H. apply digit_bounds in H. unfold parse_radix.
  destruct c as [|p]; [|repeat (destruct p as [p|p|]; try reflexivity)];
    nbool; reflexivity.
Qed.

(** [parseInt] of a non-empty string of decimal digits is its decimal
    value, below [10 ^ length]. *)
Lemma parseInt_digits (s : jsstr) :
  s <> [] -> Forall (fun c => is_digit c = true) s ->
  exists v, parseInt s = Num (Z.of_N v) /\ v < 10 ^ N.of_nat (length s).
Proof.
  destruct s as [|c s']; [congruence|]. intros _ Hs.
  destruct (digits_prefix_dec (c :: s') 0 0 Hs) as (v & Hd & Hv).
  inversion Hs as [|? ? Hc Hs']; subst.
  unfold parseInt. simpl trim_start. rewrite (digit_not_space c Hc), (parse_sign_digit c s' Hc).
  assert (Hr : parse_radix (c :: s') = (10, c :: s')).
  { destruct s' as [|x s''].
    - unfold parse_radix. destruct c as [|p]; [reflexivity|].
      repeat (destruct p as [p|p|]; try reflexivity).
    - inversion Hs'; subst. apply parse_radix_digits; auto. }
  exists v. split; [|lia].
  rewrite Hr, Hd. cbn [length Nat.add]. rewrite Z.mul_1_l. reflexivity.
Qed.

(** ** Printing an integer and reading it back *)

(** One step of the decimal reading of [digits_prefix]. *)
Definition dec_step (acc : N) (c : char) : N := 10 * acc + (c - 48).

Lemma digits_prefix_fold (s : jsstr) (acc : N) (len : nat) :
  Forall (fun c => is_digit c = true) s ->
  digits_prefix 10 s acc len = (fold_left dec_step s acc, (len + length s)%nat).
Proof.
  revert acc len. induction s as [|c s IH]; intros acc len Hs; cbn [digits_prefix length fold_left].
  - now rewrite Nat.add_0_r.
  - inv Hs. rewrite (proj1 (digit_value_10 c ltac:(assumption))). cbv beta iota.
    rewrite IH by assumption. f_equal. lia.
Qed.

Lemma parse_radix_dec (s : jsstr) :
  s <> [] -> Forall (fun c => is_digit c = true) s -> parse_radix s = (10, s).
Proof.
  intros Hne Hs. destruct s as [|c [|x s]]; [congruence| |].
  - unfold parse_radix. destruct c as [|p]; [reflexivity|].
    repeat (destruct p as [p|p|]; try reflexivity).
  - inv Hs. inv H2. apply parse_radix_digits. assumption.
Qed.

(** [parseInt] of a sign (none or [-]) and a non-empty run of digits. *)
Lemma parseInt_signed_digits (neg : bool) (s : jsstr) :
  s <> [] -> Forall (fun c => is_digit c = true) s ->
  parseInt ((if neg then [45] else []) ++ s)
  = Num ((if neg then (-1)%Z else 1%Z) * Z.of_N (fold_left dec_step s 0%N))%Z.
Proof.
  intros Hne Hs. destruct s as [|c s']; [congruence|]. pose proof Hs as Hs0. inv Hs0.
  unfold parseInt. destruct neg; cbn [app].
  - replace (trim_start (45 :: c :: s')) with (45 :: c :: s') by reflexivity.
    cbn [parse_sign]. rewrite parse_radix_dec, digits_prefix_fold by assumption. reflexivity.
  - simpl trim_start. rewrite (digit_not_space c), (parse_sign_digit c s') by assumption.
    rewrite parse_radix_dec, digits_prefix_fold by assumption. reflexivity.
Qed.

(** The digits [N_digits_aux] prepends, when the fuel covers them. *)
Lemma N_digits_aux_spec (fuel : nat) (n : N) (acc : jsstr) :
  n < 10 ^ N.of_nat fuel ->
  exists ds, N_digits_aux fuel n acc = ds ++ acc /\ Forall (fun c => is_digit c = true) ds
    /\ (forall a, fold_left dec_step ds a = a * 10 ^ N.of_nat (length ds) + n)
    /\ (fuel <> O -> ds <> []).
Proof.
  revert n acc. induction fuel as [|f IH]; intros n acc Hn; cbn [N_digits_aux].
  - exists []. simpl in *.
    split; [reflexivity|split; [constructor|split; [intros a; lia|congruence]]].
  - assert (Hd : is_digit (48 + n mod 10) = true).
    { pose proof (N.mod_lt n 10 ltac:(lia)). unfold is_digit. nbool. reflexivity. }
    destruct (N.ltb_spec n 10) as [Hlt|Hge].
    + exists [48 + n mod 10]. rewrite N.mod_small in * by exact Hlt.
      split; [reflexivity|split; [constructor; [exact Hd|constructor]|split]].
      * intros a. cbn [fold_left length]. unfold dec_step. simpl (N.of_nat 1). lia.
      * intros _. discriminate.
    + rewrite Nat2N.inj_succ, N.pow_succ_r' in Hn.
      destruct (IH (n / 10) ((48 + n mod 10) :: acc)) as (ds & -> & Hds & Hf & _).
      { apply N.Div0.div_lt_upper_bound. lia. }
      exists (ds ++ [48 + n mod 10]). rewrite <- app_assoc. repeat split.
      * apply Forall_app. auto.
      * intros a. rewrite fold_left_app, Hf, length_app. cbn [fold_left length]. unfold dec_step.
        rewrite Nat2N.inj_add, N.pow_add_r. simpl (N.of_nat 1).
        generalize (10 ^ N.of_nat (length ds)). intros X. lia.
      * intros _. destruct ds; discriminate.
Qed.

Lemma size_nat_bound (p : positive) : N.pos p < 10 ^ N.of_nat (Pos.size_nat p).
Proof.
  induction p as [p IH|p IH|]; cbn [Pos.size_nat]; rewrite ?Nat2N.inj_succ, ?N.pow_succ_r'; lia.
Qed.

Lemma N_to_js_pos (p : positive) :
  N_to_js (N.pos p) <> [] /\ Forall (fun c => is_digit c = true) (N_to_js (N.pos p))
  /\ fold_left dec_step (N_to_js (N.pos p)) 0 = N.pos p.
Proof.
  unfold N_to_js. destruct (N_digits_aux_spec (N.size_nat (N.pos p)) (N.pos p) [])
    as (ds & -> & Hds & Hf & Hne); [apply size_nat_bound|].
  rewrite app_nil_r.
  split; [apply Hne; destruct p; discriminate|split; [exact Hds|rewrite Hf; lia]].
Qed.

(** Reading back an integer printed by a template literal gives the
    integer: [parseInt(`${z}`) = z]. *)
Theorem parseInt_Z_to_js (z : Z) : parseInt (Z_to_js z) = Num z.
Proof.
  destruct z as [|p|p]; [reflexivity| |]; destruct (N_to_js_pos p) as (Hne & Hd & Hv).
  - cbn [Z_to_js].
    change (N_to_js (N.pos p)) with ((if false then [45] else []) ++ N_to_js (N.pos p)) at 1.
    rewrite parseInt_signed_digits, Hv by assumption. reflexivity.
  - cbn [Z_to_js]. change (45 :: N_to_js (N.pos p)) with ((if true then [45] else []) ++ N_to_js (N.pos p)).
    rewrite parseInt_signed_digits, Hv by assumption. reflexivity.
Qed.

(** Reading the digits of a printed natural number gives it back. *)
Lemma Z_to_js_of_N_value (n : N) : fold_left dec_step (Z_to_js (Z.of_N n)) 0 = n.
Proof. destruct n as [|p]; [reflexivity|]. apply (N_to_js_pos p). Qed.

(** ** Case mapping and the ASCII classes *)

Lemma lower_digit (c : char) : is_digit (ascii_lower c) = is_digit c.
Proof.
  unfold ascii_lower. destruct (is_upper c) eqn:E; [|reflexivity].
  unfold is_upper in E. nbounds E. unfold is_digit. nbool. reflexivity.
Qed.

Lemma upper_digit (c : char) : is_digit (ascii_upper c) = is_digit c.
Proof.
  unfold ascii_upper. destruct (is_lower c) eqn:E; [|reflexivity].
  unfold is_lower in E. nbounds E. unfold is_digit. nbool. reflexivity.
Qed.

Lemma lower_word (c : char) : is_word (ascii_lower c) = is_word c.
Proof.
  unfold ascii_lower. destruct (is_upper c) eqn:E; [|reflexivity].
  unfold is_upper in E. nbounds E. unfold is_word, is_upper, is_lower, is_digit. nbool. reflexivity.
Qed.

Lemma upper_word (c : char) : is_word (ascii_upper c) = is_word c.
Proof.
  unfold ascii_upper. destruct (is_lower c) eqn:E; [|reflexivity].
  unfold is_lower in E. nbounds E. unfold is_word, is_upper, is_lower, is_digit. nbool. reflexivity.
Qed.

(** [toLowerCase] leaves no upper-case letter and keeps word characters. *)
Lemma lower_not_upper (c : char) : is_upper (ascii_lower c) = false.
Proof.
  unfold ascii_lower. destruct (is_upper c) eqn:E; unfold is_upper in *.
  - nbounds E. nbool. reflexivity.
  - exact E.
Qed.

Lemma word_ascii (c : char) : is_word c = true -> c < 128.
Proof.
  unfold is_word, is_upper, is_lower, is_digit. intros H.
  repeat (apply orb_true_iff in H; destruct H as [H|H]);
    try (nbounds H; lia). apply N.eqb_eq in H. lia.
Qed.

(** [parseInt(v)] for a value that may be [undefined]: [ToString(undefined)]
    is ["undefined"], which has no digits. *)
Definition parseInt_value (v : option jsstr) : jsnum :=
  parseInt (match v with Some s => s | None => js "undefined" end).

(** [parseInt] of one and of two decimal digits. *)
Lemma parseInt_one_digit (a : char) :
  is_digit a = true -> parseInt [a] = Num (Z.of_N (a - 48)).
Proof.
  intros Ha. unfold parseInt. simpl trim_start. rewrite (digit_not_space a Ha).
  rewrite (parse_sign_digit a [] Ha).
  assert (Hr : parse_radix [a] = (10, [a])).
  { unfold parse_radix. destruct a as [|p]; [reflexivity|].
    repeat (destruct p as [p|p|]; try reflexivity). }
  assert (Hd : digits_prefix 10 [a] 0 0 = (a - 48, 1%nat)).
  { cbn [digits_prefix]. rewrite (proj1 (digit_value_10 a Ha)). f_equal. }
  rewrite Hr, Hd. cbv beta iota. now rewrite Z.mul_1_l.
Qed.

Lemma parseInt_two_digits (a b : char) :
  is_digit a = true -> is_digit b = true ->
  parseInt [a; b] = Num (Z.of_N (10 * (a - 48) + (b - 48))).
Proof.
  intros Ha Hb. unfold parseInt. simpl trim_start. rewrite (digit_not_space a Ha).
  rewrite (parse_sign_digit a [b] Ha), (parse_radix_digits a b [] Hb).
  assert (Hd : digits_prefix 10 [a; b] 0 0 = (10 * (a - 48) + (b - 48), 2%nat)).
  { cbn [digits_prefix]. rewrite (proj1 (digit_value_10 a Ha)), (proj1 (digit_value_10 b Hb)).
    reflexivity. }
  rewrite Hd. cbv beta iota. now rewrite Z.mul_1_l.
Qed.

(** ** Splitting a joined array *)

Lemma split_aux_notin (sep : char) (x rest cur : jsstr) :
  ~ In sep x -> split_aux sep (x ++ rest) cur = split_aux sep rest (rev x ++ cur).
Proof.
  revert cur. induction x as [|c x IH]; intros cur Hx; simpl; [reflexivity|].
  rewrite (proj2 (N.eqb_neq c sep)) by (intros ->; apply Hx; left; reflexivity).
  rewrite IH by (intros H; apply Hx; right; exact H). now rewrite <- app_assoc.
Qed.

(** [arr.join(sep).split(sep)] gives back a non-empty array none of whose
    strings contains the separator. *)
Theorem split_join (sep : char) (xs : list jsstr) :
  xs <> [] -> Forall (fun x => ~ In sep x) xs -> split (join [sep] xs) sep = xs.
Proof.
  intros Hne Hall. unfold split. induction xs as [|x xs IH]; [congruence|].
  inv Hall. destruct xs as [|y xs].
  - simpl. rewrite <- (app_nil_r x) at 1. rewrite split_aux_notin by assumption.
    simpl. now rewrite app_nil_r, rev_involutive.
  - cbn [join]. rewrite split_aux_notin by assumption. cbn [app split_aux].
    rewrite N.eqb_refl, app_nil_r, rev_involutive. f_equal. apply IH; [discriminate|assumption].
Qed.

Lemma split_aux_sep (sep : char) (x y cur : jsstr) :
  split_aux sep (x ++ sep :: y) cur = split_aux sep x cur ++ split_aux sep y [].
Proof.
  revert cur. induction x as [|c x IH]; intros cur; simpl.
  - now rewrite N.eqb_refl.
  - destruct (N.eqb c sep); [now rewrite IH|apply IH].
Qed.

(** A separator splits the string in two independent halves. *)
Lemma split_app_sep (sep : char) (x y : jsstr) :
  split (x ++ sep :: y) sep = split x sep ++ split y sep.
Proof. apply split_aux_sep. Qed.

Lemma split_aux_no_sep (sep : char) (s cur : jsstr) :
  ~ In sep cur -> Forall (fun x => ~ In sep x) (split_aux sep s cur).
Proof.
  revert cur. induction s as [|c s IH]; intros cur Hc; simpl.
  - constructor; [now rewrite <- in_rev|constructor].
  - destruct (N.eqb_spec c sep) as [->|Hne].
    + constructor; [now rewrite <- in_rev|apply IH; intros []].
    + apply IH. intros [->|H]; [congruence|contradiction].
Qed.

(** No piece of a split contains the separator. *)
Lemma split_no_sep (sep : char) (s : jsstr) : Forall (fun x => ~ In sep x) (split s sep).
Proof. apply split_aux_no_sep. intros []. Qed.
