(* ===== verification/Regex.v ===== *)
(** * The ECMAScript regular expressions used by [helpers.js]

    The three regex literals of the source (lines 71, 146, 147) use atoms
    (pattern characters, classes [[...]], [\d], [\w], [\s], [.]), greedy
    quantifiers on a single atom ([*], [+], [?], [{m,n}]), the anchors [^]
    and [$], alternation, and capture groups, with the flags [g], [i] and
    [m].  This file models that fragment after ECMA-262 22.2.2: a matcher
    takes a state and a continuation and returns the first successful state
    in backtracking order; [exec] (22.2.7.2 RegExpBuiltinExec) scans start
    positions from [lastIndex]; [exec_loop] is the source's idiom
    [while (match = re.exec(s)) { ... }]. *)

From Stdlib Require Import List Arith NArith Lia Bool Sorted Relations.
From S2P Require Import Prelude JsText.
Import ListNotations.
Open Scope js_scope.

(** ** Syntax *)

(** An atom matches exactly one code unit. *)
Inductive atom :=
| ALit (c : char)                        (** a pattern character, [\:] *)
| AClass (ranges : list (char * char))   (** [[...]], not negated *)
| ADigit                                 (** [\d] *)
| AWord                                  (** [\w] *)
| ASpace                                 (** [\s] *)
| ADot.                                  (** [.] *)

Inductive regex :=
| REmpty                                        (** the empty alternative *)
| RAtom (a : atom)
| RRep (a : atom) (lo : nat) (hi : option nat)  (** greedy [a{lo,hi}]; [None] is unbounded *)
| RBol                                          (** [^] *)
| REol                                          (** [$] *)
| RSeq (r1 r2 : regex)
| RAlt (r1 r2 : regex)                          (** [r1|r2] *)
| RGroup (g : nat) (r : regex).                 (** capture group number [g] *)

Record flags := Flags { global : bool; ignoreCase : bool; multiline : bool }.

(** ** Character sets and case folding *)

Definition in_ranges (rs : list (char * char)) (c : char) : bool :=
  existsb (fun '(lo, hi) => N.leb lo c && N.leb c hi) rs.

(** The CharSet of an atom (ECMA-262 22.2.2.9 and CharacterClassEscape). *)
Definition atom_set (a : atom) (c : char) : bool :=
  match a with
  | ALit x => N.eqb c x
  | AClass rs => in_ranges rs c
  | ADigit => is_digit c
  | AWord => is_word c
  | ASpace => is_space c
  | ADot => negb (is_line_terminator c)
  end.

(** CharacterSetMatcher: with ignoreCase, [c] matches when some member of
    the set has the same canonical form; on the ASCII sets of this program
    that is [c] itself or its other-case letter. *)
Definition atom_match (fl : flags) (a : atom) (c : char) : bool :=
  atom_set a c
  || ignoreCase fl && (atom_set a (ascii_lower c) || atom_set a (ascii_upper c)).

(** ** The matcher *)

(** A match state: the end index reached and the captures so far, newest
    first, each as [(group, (start, end))]. *)
Record mstate := MState { pos : nat; caps : list (nat * (nat * nat)) }.

Definition advance (st : mstate) (n : nat) : mstate :=
  MState (pos st + n) (caps st).

Definition set_cap (g start : nat) (st : mstate) : mstate :=
  MState (pos st) ((g, (start, pos st)) :: caps st).

(** The number of consecutive code units at the head of [s] in the set. *)
Fixpoint run_len (p : char -> bool) (s : jsstr) : nat :=
  match s with
  | c :: s' => if p c then S (run_len p s') else O
  | [] => O
  end.

Section Matcher.
Variable fl : flags.
Variable input : jsstr.

(** AssertionBegin and AssertionEnd, with the multiline flag. *)
Definition at_bol (i : nat) : bool :=
  Nat.eqb i 0
  || multiline fl && match nth_error input (i - 1) with
                     | Some c => is_line_terminator c
                     | None => false
                     end.

Definition at_eol (i : nat) : bool :=
  Nat.eqb i (length input)
  || multiline fl && match nth_error input i with
                     | Some c => is_line_terminator c
                     | None => false
                     end.

(** How many iterations of [a] are possible from [i], capped by [hi]. *)
Definition avail (a : atom) (hi : option nat) (i : nat) : nat :=
  let n := run_len (atom_match fl a) (skipn i input) in
  match hi with Some h => Nat.min h n | None => n end.

(** Greedy RepeatMatcher on a one-unit atom: try the continuation after
    [n], [n-1], ..., [lo] iterations, the most first. *)
Fixpoint try_down (k : mstate -> option mstate) (st : mstate) (lo n : nat)
  : option mstate :=
  match k (advance st n) with
  | Some r => Some r
  | None =>
      match n with
      | O => None
      | S n' => if Nat.leb lo n' then try_down k st lo n' else None
      end
  end.

(** [mtch r st k]: match [r] from [st], then run the continuation [k]. *)
Fixpoint mtch (r : regex) (st : mstate) (k : mstate -> option mstate)
  : option mstate :=
  match r with
  | REmpty => k st
  | RAtom a =>
      match nth_error input (pos st) with
      | Some c => if atom_match fl a c then k (advance st 1) else None
      | None => None
      end
  | RRep a lo hi =>
      let n := avail a hi (pos st) in
      if Nat.leb lo n then try_down k st lo n else None
  | RBol => if at_bol (pos st) then k st else None
  | REol => if at_eol (pos st) then k st else None
  | RSeq r1 r2 => mtch r1 st (fun st' => mtch r2 st' k)
  | RAlt r1 r2 =>
      match mtch r1 st k with
      | Some res => Some res
      | None => mtch r2 st k
      end
  | RGroup g r => mtch r st (fun st' => k (set_cap g (pos st) st'))
  end.

(** The pattern's matcher applied at index [i] with the empty captures
    and the final continuation. *)
Definition match_at (r : regex) (i : nat) : option mstate :=
  mtch r (MState i []) (fun st => Some st).
End Matcher.

(** ** [RegExp.prototype.exec] *)

(** The match array: its [index], the end of [match[0]], and the captures. *)
Record rmatch := RMatch { m_index : nat; m_end : nat; m_caps : list (nat * (nat * nat)) }.

(** Try the start positions [i], [i+1], ... ([n] of them). *)
Fixpoint search (fl : flags) (r : regex) (input : jsstr) (n i : nat) : option rmatch :=
  match n with
  | O => None
  | S n' =>
      match match_at fl input r i with
      | Some st => Some (RMatch i (pos st) (caps st))
      | None => search fl r input n' (S i)
      end
  end.

(** RegExpBuiltinExec: a non-global regexp starts at 0; past the end of the
    input there is no match; otherwise the first start position from
    [lastIndex] at which the matcher succeeds. *)
Definition exec (fl : flags) (r : regex) (input : jsstr) (lastIndex : nat) : option rmatch :=
  let li := if global fl then lastIndex else 0 in
  if Nat.ltb (length input) li then None
  else search fl r input (S (length input - li)) li.

(** The [lastIndex] after a successful [exec]. *)
Definition next_index (fl : flags) (m : rmatch) (lastIndex : nat) : nat :=
  if global fl then m_end m else lastIndex.

(** [while (match = re.exec(s)) { ... }] with the matches in order.  [None]
    means the fuel ran out, i.e. the loop had not stopped. *)
Fixpoint exec_loop (fl : flags) (r : regex) (input : jsstr) (fuel lastIndex : nat)
  : option (list rmatch) :=
  match fuel with
  | O => None
  | S f =>
      match exec fl r input lastIndex with
      | None => Some []
      | Some m => option_map (cons m) (exec_loop fl r input f (next_index fl m lastIndex))
      end
  end.

(** The loop as the source runs it, on a fresh regexp ([lastIndex] 0), with
    one iteration more than the input has code units. *)
Definition exec_all (fl : flags) (r : regex) (input : jsstr) : option (list rmatch) :=
  exec_loop fl r input (S (length input)) 0.

(** [str.substring(a, b)] for [a <= b]. *)
Definition substring (s : jsstr) (a b : nat) : jsstr := firstn (b - a) (skipn a s).

(** [match[0]] and [match[g]] ([None] is [undefined]). *)
Definition match0 (input : jsstr) (m : rmatch) : jsstr :=
  substring input (m_index m) (m_end m).

Definition group (input : jsstr) (m : rmatch) (g : nat) : option jsstr :=
  match find (fun '(g', _) => Nat.eqb g g') (m_caps m) with
  | Some (_, (a, b)) => Some (substring input a b)
  | None => None
  end.

(** ** Pattern builders *)

(** A literal string of pattern characters. *)
Fixpoint lit (s : jsstr) : regex :=
  match s with
  | [] => REmpty
  | [c] => RAtom (ALit c)
  | c :: s' => RSeq (RAtom (ALit c)) (lit s')
  end.

(** [a*], [a+], [a?] *)
Definition star (a : atom) : regex := RRep a 0 None.
Definition plus (a : atom) : regex := RRep a 1 None.
Definition opt (a : atom) : regex := RRep a 0 (Some 1).

(** A sequence of patterns. *)
Fixpoint seqs (rs : list regex) : regex :=
  match rs with
  | [] => REmpty
  | [r] => r
  | r :: rs' => RSeq r (seqs rs')
  end.

(** ** The least number of code units a pattern consumes *)

Fixpoint min_width (r : regex) : nat :=
  match r with
  | REmpty | RBol | REol => 0
  | RAtom _ => 1
  | RRep _ lo _ => lo
  | RSeq r1 r2 => min_width r1 + min_width r2
  | RAlt r1 r2 => Nat.min (min_width r1) (min_width r2)
  | RGroup _ r => min_width r
  end.

(** ** Properties of the matcher *)

(** The bodies of the groups numbered [g] in [r]. *)
Fixpoint group_bodies (r : regex) (g : nat) : list regex :=
  match r with
  | RSeq r1 r2 | RAlt r1 r2 => group_bodies r1 g ++ group_bodies r2 g
  | RGroup g' r' => (if Nat.eqb g g' then [r'] else []) ++ group_bodies r' g
  | _ => []
  end.

(** Groups that every match of [r] sets (those outside alternations). *)
Fixpoint mandatory_groups (r : regex) : list nat :=
  match r with
  | RSeq r1 r2 => mandatory_groups r1 ++ mandatory_groups r2
  | RGroup g r' => g :: mandatory_groups r'
  | _ => []
  end.

(** ** Declarative semantics and soundness of the matcher *)

Section Span.
Variable fl : flags.
Variable input : jsstr.

(** [span r i j]: the pattern [r] can match the units [i..j) of the
    input, anchors read in place. *)
Inductive span : regex -> nat -> nat -> Prop :=
| span_empty i : span REmpty i i
| span_atom a i c :
    nth_error input i = Some c -> atom_match fl a c = true -> span (RAtom a) i (i + 1)
| span_rep a lo hi i n :
    lo <= n <= avail fl input a hi i -> span (RRep a lo hi) i (i + n)
| span_bol i : at_bol fl input i = true -> span RBol i i
| span_eol i : at_eol fl input i = true -> span REol i i
| span_seq r1 r2 i j k : span r1 i j -> span r2 j k -> span (RSeq r1 r2) i k
| span_alt_l r1 r2 i j : span r1 i j -> span (RAlt r1 r2) i j
| span_alt_r r1 r2 i j : span r2 i j -> span (RAlt r1 r2) i j
| span_group g r i j : span r i j -> span (RGroup g r) i j.

(** Captures [extra] that come from groups of [r], each spanning its body. *)
Definition caps_from (r : regex) (extra : list (nat * (nat * nat))) : Prop :=
  Forall (fun '(g, (a, b)) => exists r', In r' (group_bodies r g) /\ span r' a b) extra.

Lemma caps_from_mono (r r' : regex) (extra : list (nat * (nat * nat))) :
  (forall g, incl (group_bodies r g) (group_bodies r' g)) ->
  caps_from r extra -> caps_from r' extra.
Proof.
  intros Hincl. apply Forall_impl. intros [g [a b]] (r0 & Hin & Hs).
  exists r0. split; [apply Hincl; exact Hin|exact Hs].
Qed.

Lemma run_len_le (p : char -> bool) (s : jsstr) : run_len p s <= length s.
Proof. induction s as [|c s IH]; simpl; [lia|]. destruct (p c); simpl; lia. Qed.

Lemma avail_le (a : atom) (hi : option nat) (i : nat) :
  avail fl input a hi i <= length input - i.
Proof.
  unfold avail. pose proof (run_len_le (atom_match fl a) (skipn i input)) as H.
  rewrite length_skipn in H. destruct hi; lia.
Qed.

(** A span covers at least [min_width r] units and stays in the input. *)
Lemma span_width (r : regex) (i j : nat) :
  span r i j -> i + min_width r <= j /\ (i <= length input -> j <= length input).
Proof.
  induction 1 as [i|a i c Hc _|a lo hi i n Hn| | |r1 r2 i j k _ [A1 B1] _ [A2 B2]
                 |r1 r2 i j _ [A B]|r1 r2 i j _ [A B]|g r i j _ [A B]]; simpl.
  - lia.
  - assert (i < length input) by (apply nth_error_Some; congruence). lia.
  - pose proof (avail_le a hi i). lia.
  - lia.
  - lia.
  - split; [lia|auto].
  - split; [lia|auto].
  - split; [lia|auto].
  - auto.
Qed.

(** [try_down] succeeds through one of the counts it tries. *)
Lemma try_down_some (k : mstate -> option mstate) (st res : mstate) (lo n : nat) :
  lo <= n -> try_down k st lo n = Some res ->
  exists m, lo <= m <= n /\ k (advance st m) = Some res.
Proof.
  induction n as [|n IH]; simpl; intros Hlo H.
  - destruct (k (advance st 0)) eqn:E; [inv H|discriminate]. exists 0. auto.
  - destruct (k (advance st (S n))) eqn:E; [inv H; exists (S n); auto|].
    destruct (Nat.leb_spec lo n); [|discriminate].
    destruct (IH ltac:(assumption) H) as (m & ? & ?). exists m. split; [lia|auto].
Qed.

Local Ltac no_new_caps :=
  exists []; split; [reflexivity|split; [constructor|intros ? []]].

(** Soundness of the backtracking matcher: a success of
    [mtch r st k] is a success of [k] at a state [st'] such that [r] spans
    from [pos st] to [pos st'], and the captures added on the way come from
    groups of [r], each spanning its body, and include every mandatory
    group. *)
Lemma mtch_sound (r : regex) :
  forall st k res, mtch fl input r st k = Some res ->
  exists st', k st' = Some res /\ span r (pos st) (pos st')
    /\ exists extra, caps st' = extra ++ caps st /\ caps_from r extra
        /\ forall g, In g (mandatory_groups r) -> In g (map fst extra).
Proof.
  induction r as [| a | a lo hi | | | r1 IH1 r2 IH2 | r1 IH1 r2 IH2 | g r IH];
    intros st k res H; simpl in H.
  - exists st. split; [auto|]. split; [constructor|no_new_caps].
  - destruct (nth_error input (pos st)) as [c|] eqn:E; [|discriminate].
    destruct (atom_match fl a c) eqn:Ea; [|discriminate].
    exists (advance st 1). split; [auto|]. split; [econstructor; eauto|no_new_caps].
  - destruct (Nat.leb_spec lo (avail fl input a hi (pos st))) as [Hle|]; [|discriminate].
    destruct (try_down_some _ _ _ _ _ Hle H) as (m & Hm & Hk).
    exists (advance st m). split; [auto|]. split; [constructor; lia|no_new_caps].
  - destruct (at_bol fl input (pos st)) eqn:E; [|discriminate].
    exists st. split; [auto|]. split; [constructor; auto|no_new_caps].
  - destruct (at_eol fl input (pos st)) eqn:E; [|discriminate].
    exists st. split; [auto|]. split; [constructor; auto|no_new_caps].
  - destruct (IH1 _ _ _ H) as (st1 & H1 & S1 & e1 & C1 & F1 & M1).
    destruct (IH2 _ _ _ H1) as (st2 & H2 & S2 & e2 & C2 & F2 & M2).
    exists st2. split; [auto|]. split; [econstructor; eauto|].
    exists (e2 ++ e1). split; [rewrite C2, C1, app_assoc; reflexivity|]. split.
    + apply Forall_app. split; eapply caps_from_mono; eauto;
        intros g; simpl; auto using incl_appl, incl_appr, incl_refl.
    + intros g Hg. rewrite map_app, in_app_iff.
      simpl in Hg. rewrite in_app_iff in Hg. destruct Hg; auto.
  - destruct (mtch fl input r1 st k) eqn:E1.
    + inv H. destruct (IH1 _ _ _ E1) as (st1 & H1 & S1 & e1 & C1 & F1 & M1).
      exists st1. split; [auto|]. split; [apply span_alt_l; auto|].
      exists e1. split; [auto|]. split; [|simpl; tauto].
      eapply caps_from_mono; eauto. intros g; simpl; auto using incl_appl, incl_refl.
    + destruct (IH2 _ _ _ H) as (st2 & H2 & S2 & e2 & C2 & F2 & M2).
      exists st2. split; [auto|]. split; [apply span_alt_r; auto|].
      exists e2. split; [auto|]. split; [|simpl; tauto].
      eapply caps_from_mono; eauto. intros g; simpl; auto using incl_appr, incl_refl.
  - destruct (IH _ _ _ H) as (st1 & H1 & S1 & e1 & C1 & F1 & M1).
    exists (set_cap g (pos st) st1). split; [auto|]. split; [constructor; auto|].
    exists ((g, (pos st, pos st1)) :: e1). simpl. rewrite C1. split; [reflexivity|]. split.
    + constructor.
      * exists r. simpl. rewrite Nat.eqb_refl. simpl. auto.
      * eapply caps_from_mono; eauto. intros g'; simpl; auto using incl_appr, incl_refl.
    + intros g' [<-|Hg']; auto.
Qed.
End Span.

Section MatcherFacts.
Variable fl : flags.
Variable input : jsstr.

Corollary match_at_sound (r : regex) (i : nat) (st : mstate) :
  match_at fl input r i = Some st ->
  span fl input r i (pos st) /\ caps_from fl input r (caps st)
  /\ forall g, In g (mandatory_groups r) -> In g (map fst (caps st)).
Proof.
  unfold match_at. intros H.
  destruct (mtch_sound _ _ r _ _ _ H) as (st' & [= ->] & Hs & e & C & F & M).
  simpl in *. rewrite app_nil_r in C. rewrite C. auto.
Qed.

Corollary match_at_progress (r : regex) (i : nat) (st : mstate) :
  match_at fl input r i = Some st ->
  i + min_width r <= pos st /\ (i <= length input -> pos st <= length input).
Proof. intros H. apply (span_width fl input r). apply (match_at_sound r i st H). Qed.
End MatcherFacts.

(** ** [exec] finds the leftmost match *)

Section ExecFacts.
Variable fl : flags.
Variable r : regex.
Variable input : jsstr.

Lemma search_some (n i : nat) (m : rmatch) :
  search fl r input n i = Some m ->
  i <= m_index m < i + n
  /\ match_at fl input r (m_index m) = Some (MState (m_end m) (m_caps m))
  /\ forall j, i <= j < m_index m -> match_at fl input r j = None.
Proof.
  revert i. induction n as [|n IH]; intros i H; simpl in H; [discriminate|].
  destruct (match_at fl input r i) as [st|] eqn:E.
  - inv H. simpl. destruct st. split; [lia|split; [auto|intros; lia]].
  - destruct (IH _ H) as (A & B & C). split; [lia|split; [auto|]].
    intros j Hj. destruct (Nat.eq_dec j i) as [->|]; [auto|apply C; lia].
Qed.

Lemma search_none (n i : nat) :
  search fl r input n i = None ->
  forall j, i <= j < i + n -> match_at fl input r j = None.
Proof.
  revert i. induction n as [|n IH]; intros i H j Hj; simpl in H; [lia|].
  destruct (match_at fl input r i) eqn:E; [discriminate|].
  destruct (Nat.eq_dec j i) as [->|]; [auto|apply (IH _ H); lia].
Qed.

Hypothesis Hglobal : global fl = true.

(** A successful [exec] from [lastIndex] returns the least start position
    at or after [lastIndex] where the pattern matches. *)
Lemma exec_some (li : nat) (m : rmatch) :
  exec fl r input li = Some m ->
  li <= m_index m <= length input
  /\ match_at fl input r (m_index m) = Some (MState (m_end m) (m_caps m))
  /\ forall j, li <= j < m_index m -> match_at fl input r j = None.
Proof.
  unfold exec. rewrite Hglobal. intros H.
  destruct (Nat.ltb_spec (length input) li); [discriminate|].
  destruct (search_some _ _ _ H) as (A & B & C). split; [lia|auto].
Qed.

Lemma exec_none (li : nat) :
  exec fl r input li = None ->
  forall j, li <= j <= length input -> match_at fl input r j = None.
Proof.
  unfold exec. rewrite Hglobal. intros H j Hj.
  destruct (Nat.ltb_spec (length input) li); [lia|].
  apply (search_none _ _ H). lia.
Qed.

(** A match of a pattern that consumes at least one unit ends after
    [lastIndex], inside the input. *)
Lemma exec_advances (li : nat) (m : rmatch) :
  1 <= min_width r -> exec fl r input li = Some m ->
  li < m_end m <= length input /\ m_index m < m_end m.
Proof.
  intros Hw H. destruct (exec_some _ _ H) as (A & B & _).
  destruct (match_at_progress _ _ _ _ _ B) as [P Q]. simpl in *. split; [split|]; lia.
Qed.
End ExecFacts.

(** ** The loop [while (match = re.exec(s))] *)

Section LoopFacts.
Variable fl : flags.
Variable r : regex.
Variable input : jsstr.
Hypothesis Hglobal : global fl = true.

(** The abstract behaviour of the loop: the successive leftmost matches,
    each searched from the end of the previous one, until none is left. *)
Inductive all_matches (li : nat) : list rmatch -> Prop :=
| am_nil :
    (forall j, li <= j <= length input -> match_at fl input r j = None) ->
    all_matches li []
| am_cons (i : nat) (st : mstate) (l : list rmatch) :
    li <= i <= length input ->
    (forall j, li <= j < i -> match_at fl input r j = None) ->
    match_at fl input r i = Some st ->
    all_matches (pos st) l ->
    all_matches li (RMatch i (pos st) (caps st) :: l).

(** Whatever the fuel, a list the loop [while (match = re.exec(s))]
    returns is the list of successive leftmost matches of the abstract
    specification [all_matches]. *)
Lemma exec_loop_sound (fuel li : nat) (l : list rmatch) :
  exec_loop fl r input fuel li = Some l -> all_matches li l.
Proof.
  revert li l. induction fuel as [|f IH]; intros li l H; simpl in H; [discriminate|].
  destruct (exec fl r input li) as [m|] eqn:E.
  - destruct (exec_loop fl r input f (next_index fl m li)) as [l'|] eqn:E'; [|discriminate].
    inv H. destruct (exec_some _ _ _ Hglobal _ _ E) as (A & B & C).
    unfold next_index in E'. rewrite Hglobal in E'.
    destruct m as [i e c]. simpl in *.
    apply (am_cons li i (MState e c) l'); auto.
  - inv H. apply am_nil. exact (exec_none _ _ _ Hglobal _ E).
Qed.

(** The abstract behaviour determines the list of matches. *)
Lemma all_matches_unique (li : nat) (l1 l2 : list rmatch) :
  all_matches li l1 -> all_matches li l2 -> l1 = l2.
Proof.
  intros H1. revert l2. induction H1 as [li Hn | li i st l Hi Hb Hm Hl IH];
    intros l2 H2; inversion H2 as [Hn2 | i2 st2 l2' Hi2 Hb2 Hm2 Hl2]; subst.
  - reflexivity.
  - rewrite (Hn i2) in Hm2 by lia. discriminate.
  - rewrite (Hn2 i) in Hm by lia. discriminate.
  - assert (i = i2) as <-.
    { destruct (Nat.lt_trichotomy i i2) as [Hlt|[Heq|Hlt]]; [|exact Heq|].
      - rewrite (Hb2 i) in Hm by lia. discriminate.
      - rewrite (Hb i2) in Hm2 by lia. discriminate. }
    rewrite Hm in Hm2. inv Hm2. f_equal. apply IH. exact Hl2.
Qed.

(** Fuel beyond what the loop needs changes nothing. *)
Lemma exec_loop_more_fuel (fuel li : nat) (l : list rmatch) :
  exec_loop fl r input fuel li = Some l -> exec_loop fl r input (S fuel) li = Some l.
Proof.
  revert li l. induction fuel as [|f IH]; intros li l H; [discriminate|].
  remember (S f) as f'. simpl. subst f'. simpl in H.
  destruct (exec fl r input li) as [m|]; [|exact H].
  destruct (exec_loop fl r input f (next_index fl m li)) as [l'|] eqn:E; [|discriminate].
  rewrite (IH _ _ E). exact H.
Qed.

(** Every match lies after the [lastIndex] it was searched from and spans
    at least [min_width r] units. *)
Lemma all_matches_after (li : nat) (l : list rmatch) :
  all_matches li l ->
  Forall (fun m => li <= m_index m /\ m_index m + min_width r <= m_end m) l.
Proof.
  induction 1 as [li Hn | li i st l Hi Hb Hm Hl IH]; constructor.
  - destruct (match_at_progress _ _ _ _ _ Hm). simpl. lia.
  - destruct (match_at_progress _ _ _ _ _ Hm).
    eapply Forall_impl; [|exact IH]. simpl. intros m' [? ?]. lia.
Qed.

Hypothesis Hwidth : 1 <= min_width r.

(** The matches come in strictly increasing order of position. *)
Lemma all_matches_sorted (li : nat) (l : list rmatch) :
  all_matches li l -> Sorted lt (map m_index l).
Proof.
  induction 1 as [li Hn | li i st l Hi Hb Hm Hl IH]; simpl; constructor; [exact IH|].
  destruct (match_at_progress _ _ _ _ _ Hm) as [P _].
  apply all_matches_after in Hl. destruct l as [|m l]; simpl; constructor.
  inversion Hl; subst. lia.
Qed.

(** When every match consumes a code unit, the loop stops within one
    iteration more than the code units left after [lastIndex]: the fuel of
    [exec_all] is always enough. *)
Lemma exec_loop_total (fuel li : nat) :
  length input - li < fuel -> exists l, exec_loop fl r input fuel li = Some l.
Proof.
  revert li. induction fuel as [|f IH]; intros li Hf; [lia|]. simpl.
  destruct (exec fl r input li) as [m|] eqn:E; [|eauto].
  destruct (exec_advances _ _ _ Hglobal _ _ Hwidth E) as [[A B] _].
  unfold next_index. rewrite Hglobal.
  destruct (IH (m_end m)) as [l Hl]; [lia|]. rewrite Hl. simpl. eauto.
Qed.
End LoopFacts.

(** The loop as the source runs it stops and yields the matches of the
    abstract specification. *)
Theorem exec_all_spec (fl : flags) (r : regex) (input : jsstr) :
  global fl = true -> 1 <= min_width r ->
  exists l, exec_all fl r input = Some l /\ all_matches fl r input 0 l.
Proof.
  intros Hg Hw. unfold exec_all.
  destruct (exec_loop_total fl r input Hg Hw (S (length input)) 0) as [l Hl]; [lia|].
  exists l. split; [exact Hl|]. exact (exec_loop_sound fl r input Hg _ _ _ Hl).
Qed.

(** ** Reading captures *)

Lemma find_key_some (g : nat) (l : list (nat * (nat * nat))) :
  In g (map fst l) ->
  exists a b, find (fun '(g', _) => Nat.eqb g g') l = Some (g, (a, b)) /\ In (g, (a, b)) l.
Proof.
  induction l as [|[g' [a b]] l IH]; simpl; [tauto|]. intros [->|Hin].
  - rewrite Nat.eqb_refl. eauto.
  - destruct (Nat.eqb_spec g g') as [->|]; [eauto|].
    destruct (IH Hin) as (a' & b' & H & H'). eauto.
Qed.

(** A mandatory group of a match is defined and spans one of its bodies. *)
Lemma group_of_match (fl : flags) (input : jsstr) (r : regex) (i : nat) (st : mstate) (g : nat) :
  match_at fl input r i = Some st -> In g (mandatory_groups r) ->
  exists a b r', group input (RMatch i (pos st) (caps st)) g = Some (substring input a b)
            /\ In r' (group_bodies r g) /\ span fl input r' a b.
Proof.
  intros H Hg. destruct (match_at_sound fl input r i st H) as (_ & Hc & Hm).
  destruct (find_key_some g (caps st) (Hm g Hg)) as (a & b & Hf & Hin).
  unfold caps_from in Hc. rewrite Forall_forall in Hc.
  destruct (Hc _ Hin) as (r' & Hr' & Hs).
  exists a, b, r'. unfold group. simpl. rewrite Hf. auto.
Qed.

Lemma run_len_firstn (p : char -> bool) (s : jsstr) (n : nat) :
  n <= run_len p s -> Forall (fun c => p c = true) (firstn n s) /\ length (firstn n s) = n.
Proof.
  revert n. induction s as [|c s IH]; intros n Hn; simpl in *.
  - assert (n = 0) as -> by lia. simpl. auto.
  - destruct n as [|n]; simpl; [auto|].
    destruct (p c) eqn:E; [|lia].
    destruct (IH n ltac:(lia)) as [A B]. auto.
Qed.

(** What a repetition spans: [n] units, each matching the atom. *)
Lemma span_rep_inv (fl : flags) (input : jsstr) (a : atom) (lo : nat) (hi : option nat) (i j : nat) :
  span fl input (RRep a lo hi) i j ->
  lo <= j - i /\ (forall h, hi = Some h -> j - i <= h) /\ i <= j
  /\ Forall (fun c => atom_match fl a c = true) (substring input i j)
  /\ length (substring input i j) = j - i.
Proof.
  intros H. inversion H as [| | ? ? ? ? n Hn | | | | | |]; subst.
  unfold avail in Hn. unfold substring. replace (i + n - i) with n by lia.
  assert (n <= run_len (atom_match fl a) (skipn i input)) by (destruct hi; lia).
  destruct (run_len_firstn _ _ _ H0). repeat split; auto; try lia.
  intros h ->. lia.
Qed.

(** Each match the loop returns is a success of the matcher at its index. *)
Lemma all_matches_matched (fl : flags) (r : regex) (input : jsstr) (li : nat) (l : list rmatch) :
  all_matches fl r input li l ->
  Forall (fun m => match_at fl input r (m_index m) = Some (MState (m_end m) (m_caps m))) l.
Proof.
  induction 1 as [li Hn | li i st l Hi Hb Hm Hl IH]; constructor; [|exact IH].
  simpl. rewrite Hm. destruct st; reflexivity.
Qed.

(** ** Case-insensitive matching of the digit and word classes *)

(** On [\d], [[0-9]] and [\w] the ignoreCase flag changes nothing. *)
Lemma atom_match_digit (fl : flags) (c : char) : atom_match fl ADigit c = is_digit c.
Proof.
  unfold atom_match, atom_set. rewrite lower_digit, upper_digit.
  destruct (is_digit c), (ignoreCase fl); reflexivity.
Qed.

Lemma atom_match_digit_class (fl : flags) (c : char) :
  atom_match fl (AClass [(48, 57)%N]) c = is_digit c.
Proof.
  assert (Hr : forall x, in_ranges [(48, 57)%N] x = is_digit x).
  { intros x. unfold in_ranges, is_digit. simpl. now rewrite orb_false_r. }
  unfold atom_match, atom_set. rewrite !Hr, lower_digit, upper_digit.
  destruct (is_digit c), (ignoreCase fl); reflexivity.
Qed.

Lemma atom_match_word (fl : flags) (c : char) : atom_match fl AWord c = is_word c.
Proof.
  unfold atom_match, atom_set. rewrite lower_word, upper_word.
  destruct (is_word c), (ignoreCase fl); reflexivity.
Qed.

(** The loop as the source runs it returns its matches in strictly
    increasing order of position, i.e. in source order. *)
Theorem exec_all_sorted (fl : flags) (r : regex) (input : jsstr) (l : list rmatch) :
  global fl = true -> 1 <= min_width r -> exec_all fl r input = Some l ->
  Sorted lt (map m_index l).
Proof.
  intros Hg Hw H. unfold exec_all in H.
  exact (all_matches_sorted fl r input Hw _ _ (exec_loop_sound fl r input Hg _ _ _ H)).
Qed.

(** ** Reading spans back as strings *)

Lemma substring_app (s : jsstr) (a j b : nat) :
  a <= j <= b -> substring s a b = substring s a j ++ substring s j b.
Proof.
  intros H. unfold substring.
  replace (b - a) with ((j - a) + (b - j)) by lia.
  rewrite firstn_plus, skipn_skipn. f_equal. f_equal. f_equal. lia.
Qed.

Lemma substring_one (s : jsstr) (i : nat) (c : char) :
  nth_error s i = Some c -> substring s i (i + 1) = [c].
Proof.
  unfold substring. replace (i + 1 - i) with 1 by lia. revert i.
  induction s as [|x s IH]; intros [|i] H; simpl in *; try discriminate.
  - now inv H.
  - apply IH. exact H.
Qed.

Lemma substring_empty (s : jsstr) (i : nat) : substring s i i = [].
Proof. unfold substring. now rewrite Nat.sub_diag. Qed.

(** An atom spans one unit that it matches. *)
Lemma span_atom_inv (fl : flags) (s : jsstr) (a : atom) (i j : nat) :
  span fl s (RAtom a) i j ->
  j = i + 1 /\ exists c, substring s i j = [c] /\ atom_match fl a c = true.
Proof.
  intros H. inversion H as [|? ? c Hc Hm| | | | | | |]; subst.
  split; [reflexivity|]. exists c. split; [apply substring_one; exact Hc|exact Hm].
Qed.

Lemma span_seq_inv (fl : flags) (s : jsstr) (r1 r2 : regex) (i k : nat) :
  span fl s (RSeq r1 r2) i k ->
  exists j, span fl s r1 i j /\ span fl s r2 j k
            /\ substring s i k = substring s i j ++ substring s j k.
Proof.
  intros H. inversion H as [| | | | |? ? ? j ? H1 H2| | |]; subst.
  exists j. split; [exact H1|split; [exact H2|]].
  destruct (span_width fl s r1 _ _ H1) as [A _]. destruct (span_width fl s r2 _ _ H2) as [B _].
  apply substring_app. lia.
Qed.

Lemma span_alt_inv (fl : flags) (s : jsstr) (r1 r2 : regex) (i j : nat) :
  span fl s (RAlt r1 r2) i j -> span fl s r1 i j \/ span fl s r2 i j.
Proof. intros H. inversion H; subst; auto. Qed.

(** Without ignoreCase a class is its ranges. *)
Lemma atom_match_class_nocase (fl : flags) (rs : list (char * char)) (c : char) :
  ignoreCase fl = false -> atom_match fl (AClass rs) c = in_ranges rs c.
Proof. intros H. unfold atom_match, atom_set. rewrite H. apply orb_false_r. Qed.

Lemma in_range_one (lo hi c : char) : in_ranges [(lo, hi)] c = true -> (lo <= c <= hi)%N.
Proof. unfold in_ranges. simpl. rewrite orb_false_r. intros H. nbounds H. lia. Qed.

Lemma atom_match_lit_nocase (fl : flags) (x c : char) :
  ignoreCase fl = false -> atom_match fl (ALit x) c = true -> c = x.
Proof.
  intros H. unfold atom_match, atom_set. rewrite H, orb_false_r. apply N.eqb_eq.
Qed.

(** Any group a match defines, mandatory or not, spans one of its bodies. *)
Lemma group_span (fl : flags) (input : jsstr) (r : regex) (i : nat) (st : mstate) (g : nat)
      (s : jsstr) :
  match_at fl input r i = Some st ->
  group input (RMatch i (pos st) (caps st)) g = Some s ->
  exists a b r', s = substring input a b /\ In r' (group_bodies r g) /\ span fl input r' a b.
Proof.
  intros H Hs. destruct (match_at_sound fl input r i st H) as (_ & Hc & _).
  unfold group in Hs. simpl in Hs.
  destruct (find _ (caps st)) as [[g' [a b]]|] eqn:Hf; [|discriminate]. inv Hs.
  destruct (find_some _ _ Hf) as [Hin Heq]. apply Nat.eqb_eq in Heq. subst g'.
  unfold caps_from in Hc. rewrite Forall_forall in Hc.
  destruct (Hc _ Hin) as (r' & Hr' & Hsp). exists a, b, r'. auto.
Qed.

(** A class of one range, without ignoreCase, matches the units of the range. *)
Lemma atom_match_range_nocase (fl : flags) (lo hi c : char) :
  ignoreCase fl = false -> atom_match fl (AClass [(lo, hi)]) c = true -> (lo <= c <= hi)%N.
Proof. intros H Hm. rewrite atom_match_class_nocase in Hm by exact H. now apply in_range_one. Qed.

(** ** What [exec] and the loop compute *)

(** [RegExp.prototype.exec] on a global regexp returns the leftmost
    position at or after [lastIndex] where the pattern spans a piece of the
    input, with captures taken from its groups; it returns [null] only when
    no position from [lastIndex] to the end matches. *)
Theorem exec_spec (fl : flags) (r : regex) (input : jsstr) (li : nat) :
  global fl = true ->
  match exec fl r input li with
  | Some m =>
      li <= m_index m <= length input /\ span fl input r (m_index m) (m_end m)
      /\ caps_from fl input r (m_caps m)
      /\ forall j, li <= j < m_index m -> match_at fl input r j = None
  | None => forall j, li <= j <= length input -> match_at fl input r j = None
  end.
Proof.
  intros Hg. destruct (exec fl r input li) as [m|] eqn:E.
  - destruct (exec_some fl r input Hg li m E) as (A & B & C).
    destruct (match_at_sound fl input r _ _ B) as (Hs & Hc & _). auto.
  - exact (exec_none fl r input Hg li E).
Qed.

(** C17: when every match consumes a code unit, the loop as the source runs
    it terminates and returns exactly the list of successive leftmost
    matches of [all_matches]: [exec_all] yields [l] if and only if [l] is
    that list. *)
Theorem exec_all_iff (fl : flags) (r : regex) (input : jsstr) (l : list rmatch) :
  global fl = true -> 1 <= min_width r ->
  exec_all fl r input = Some l <-> all_matches fl r input 0 l.
Proof.
  intros Hg Hw. destruct (exec_all_spec fl r input Hg Hw) as (l' & E & Hl').
  rewrite E. split.
  - intros H. inv H. exact Hl'.
  - intros Hl. f_equal. exact (all_matches_unique fl r input _ _ _ Hl' Hl).
Qed.

(** ** The loop as a step relation *)

(** The states of [while (match = re.exec(s)) { ... }]: running from a
    [lastIndex] with the matches so far, or stopped. *)
Inductive loop_state :=
| Running (lastIndex : nat) (found : list rmatch)
| Done (found : list rmatch).

Section LoopSteps.
Variable fl : flags.
Variable r : regex.
Variable input : jsstr.

(** One evaluation of the loop condition. *)
Inductive loop_step : loop_state -> loop_state -> Prop :=
| step_match li found m :
    exec fl r input li = Some m ->
    loop_step (Running li found) (Running (next_index fl m li) (found ++ [m]))
| step_stop li found :
    exec fl r input li = None -> loop_step (Running li found) (Done found).

(** The fuelled loop follows the steps to a stopped state. *)
Lemma exec_loop_steps (fuel li : nat) (found l : list rmatch) :
  exec_loop fl r input fuel li = Some l ->
  clos_refl_trans_1n _ loop_step (Running li found) (Done (found ++ l)).
Proof.
  revert li found l. induction fuel as [|f IH]; intros li found l H; simpl in H; [discriminate|].
  destruct (exec fl r input li) as [m|] eqn:E.
  - destruct (exec_loop fl r input f (next_index fl m li)) as [l'|] eqn:E'; inv H.
    replace (found ++ m :: l') with ((found ++ [m]) ++ l') by (rewrite <- app_assoc; reflexivity).
    econstructor; [apply step_match; exact E|]. exact (IH _ _ _ E').
  - inv H. rewrite app_nil_r. econstructor; [apply step_stop; exact E|constructor].
Qed.

Hypothesis Hglobal : global fl = true.
Hypothesis Hwidth : 1 <= min_width r.

Definition loop_measure (s : loop_state) : nat :=
  match s with
  | Running li _ => S (length input - li)
  | Done _ => 0
  end.

Lemma loop_step_decreases (s s' : loop_state) :
  loop_step s s' -> loop_measure s' < loop_measure s.
Proof.
  intros [li found m E|li found E]; simpl; [|lia].
  destruct (exec_advances fl r input Hglobal li m Hwidth E) as [[A B] _].
  unfold next_index. rewrite Hglobal. lia.
Qed.

(** No run of the loop is infinite: its measure decreases at each step. *)
Lemma loop_acc (s : loop_state) : Acc (fun s' s => loop_step s s') s.
Proof.
  remember (loop_measure s) as n eqn:Hn. revert s Hn.
  induction n as [n IH] using lt_wf_ind. intros s ->. constructor. intros s' Hs.
  exact (IH (loop_measure s') (loop_step_decreases s s' Hs) s' eq_refl).
Qed.

(** C18: liveness of the loop: for a global pattern whose matches consume
    a code unit, no run of the loop is infinite, and the run from a fresh
    regexp reaches the stopped state holding exactly the list [exec_all]
    returns. *)
Theorem exec_loop_live :
  Acc (fun s' s => loop_step s s') (Running 0 [])
  /\ exists l, clos_refl_trans_1n _ loop_step (Running 0 []) (Done l) /\ exec_all fl r input = Some l.
Proof.
  split.
  - apply loop_acc.
  - destruct (exec_all_spec fl r input Hglobal Hwidth) as (l & E & _). exists l. split; [|exact E].
    exact (exec_loop_steps _ _ [] l E).
Qed.
End LoopSteps.
