(* ===== verification/CfgScan.v ===== *)
(** * The directive scan of [getFXServerPort] (helpers.js lines 146-166)

    The two regex literals of lines 146-147 as terms of [Regex.regex], the
    records built from each match (lines 154-159 and 162), and the two
    [while (match = re.exec(rawCfgFile))] loops.  The theorems show that both
    loops stop on every input, that the records are built from every match
    in order of position, and what each field can hold: ports are integers
    of at most five digits, types are lower-case word characters, max-clients
    values are non-negative integers. *)

From Stdlib Require Import List Arith NArith ZArith Lia Bool Sorted.
From S2P Require Import Prelude JsText Regex.
Import ListNotations.
Open Scope js_scope.

(** ** The patterns *)

(** The flags [gim] of both literals. *)
Definition gim : flags := Flags true true true.

Definition digit_class : atom := AClass [(48, 57)%N].
Definition quote_class : atom := AClass [(34, 34); (39, 39)]%N.

(** [[0-9]{lo,hi}] *)
Definition digits (lo hi : nat) : regex := RRep digit_class lo (Some hi).

(** [[0-9]{1,3}\.[0-9]{1,3}\.[0-9]{1,3}\.[0-9]{1,3}] *)
Definition ipv4 : regex :=
  seqs [digits 1 3; RAtom (ALit 46%N); digits 1 3; RAtom (ALit 46%N);
        digits 1 3; RAtom (ALit 46%N); digits 1 3].

(** [/^\s*sv_maxclients\s+(\d+).*$/gim] (line 146) *)
Definition maxClientsRegex : regex :=
  seqs [RBol; star ASpace; lit (js "sv_maxclients"); plus ASpace;
        RGroup 1 (plus ADigit); star ADot; REol].

(** [/^\s*endpoint_add_(\w+)\s+["']?(ipv4)\:([0-9]{1,5})["']?.*$/gim]
    (line 147) *)
Definition endpointsRegex : regex :=
  seqs [RBol; star ASpace; lit (js "endpoint_add_"); RGroup 1 (plus AWord);
        plus ASpace; opt quote_class; RGroup 2 ipv4; RAtom (ALit 58%N);
        RGroup 3 (digits 1 5); opt quote_class; star ADot; REol].

(** ** The records *)

(** The object pushed at lines 154-159. *)
Record endpoint := Endpoint {
  line : jsstr;    (** [match[0].trim()] *)
  type : jsstr;    (** [match[1].toLowerCase()] *)
  iface : jsstr;   (** [match[2]] *)
  port : jsnum     (** [parseInt(match[3])] *)
}.

(** Lines 154-159 for one match.  [None] is an exception in the [try]
    block: [match[1].toLowerCase()] throws when group 1 is [undefined].  The
    model also requires groups 2 and 3, where the source would store
    [undefined] and [NaN]; [endpoint_groups_defined] shows that no match
    leaves any of the three groups undefined, so the difference never
    arises. *)
Definition endpoint_of_match (raw : jsstr) (m : rmatch) : option endpoint :=
  match group raw m 1, group raw m 2, group raw m 3 with
  | Some t, Some i, Some p => Some (Endpoint (trim (match0 raw m)) (toLowerCase t) i (parseInt p))
  | _, _, _ => None
  end.

(** Line 162: [parseInt(match[1])]; [parseInt(undefined)] is [NaN]. *)
Definition maxclients_of_match (raw : jsstr) (m : rmatch) : jsnum :=
  match group raw m 1 with
  | Some d => parseInt d
  | None => NaN
  end.

(** Lines 153-160: the endpoint loop; [None] when it throws (or, in the
    model, would run out of fuel). *)
Definition extract_endpoints (raw : jsstr) : option (list endpoint) :=
  match exec_all gim endpointsRegex raw with
  | Some ms => map_opt (endpoint_of_match raw) ms
  | None => None
  end.

(** Lines 161-163: the max-clients loop. *)
Definition extract_maxclients (raw : jsstr) : option (list jsnum) :=
  option_map (map (maxclients_of_match raw)) (exec_all gim maxClientsRegex raw).

(** ** Properties of the scan *)

(** A capture group with a single body: the group is defined and its
    text is spanned by the body. *)
Lemma capture_of_match (r body : regex) (raw : jsstr) (m : rmatch) (g : nat) :
  match_at gim raw r (m_index m) = Some (MState (m_end m) (m_caps m)) ->
  In g (mandatory_groups r) -> group_bodies r g = [body] ->
  exists a b, group raw m g = Some (substring raw a b) /\ span gim raw body a b.
Proof.
  intros H Hg Hb. destruct (group_of_match _ _ _ _ _ g H Hg) as (a & b & r' & Hgr & Hin & Hs).
  rewrite Hb in Hin. destruct Hin as [<-|[]]. destruct m. eauto.
Qed.

(** A capture of [a{lo,hi}] is a string of [lo] to [hi] units of the atom. *)
Lemma rep_capture (raw : jsstr) (a : atom) (lo : nat) (hi : option nat) (x y : nat) :
  span gim raw (RRep a lo hi) x y ->
  lo <= length (substring raw x y)
  /\ (forall h, hi = Some h -> length (substring raw x y) <= h)
  /\ Forall (fun c => atom_match gim a c = true) (substring raw x y).
Proof.
  intros H. destruct (span_rep_inv _ _ _ _ _ _ _ H) as (A & B & _ & D & E).
  rewrite E. split; [exact A|]. split; [exact B|exact D].
Qed.

Lemma endpoint_regex_width : min_width endpointsRegex = 24.
Proof. reflexivity. Qed.

Lemma maxclients_regex_width : min_width maxClientsRegex = 15.
Proof. reflexivity. Qed.

(** Every match of the endpoint pattern defines groups 1 to 3, so the
    record of lines 154-159 is always built. *)
Lemma endpoint_groups_defined (raw : jsstr) (m : rmatch) :
  match_at gim raw endpointsRegex (m_index m) = Some (MState (m_end m) (m_caps m)) ->
  exists e, endpoint_of_match raw m = Some e.
Proof.
  intros H. unfold endpoint_of_match.
  destruct (capture_of_match _ _ _ _ 1 H ltac:(simpl; tauto) eq_refl) as (a1 & b1 & -> & _).
  destruct (capture_of_match _ _ _ _ 2 H ltac:(simpl; tauto) eq_refl) as (a2 & b2 & -> & _).
  destruct (capture_of_match _ _ _ _ 3 H ltac:(simpl; tauto) eq_refl) as (a3 & b3 & -> & _).
  eauto.
Qed.

(** The shape of an endpoint record: a port of at most five digits, and a
    non-empty type of lower-case word characters. *)
Definition endpoint_wf (e : endpoint) : Prop :=
  (exists p, port e = Num p /\ (0 <= p <= 99999)%Z)
  /\ type e <> [] /\ Forall (fun c => is_word c = true /\ is_upper c = false) (type e).

(** [parseInt] of a capture of [[0-9]{lo,hi}] with [1 <= lo]. *)
Lemma parseInt_digit_capture (raw : jsstr) (a : atom) (lo h x y : nat) :
  (forall c, atom_match gim a c = is_digit c) -> 1 <= lo ->
  span gim raw (RRep a lo (Some h)) x y ->
  exists v, parseInt (substring raw x y) = Num (Z.of_N v) /\ (v < 10 ^ N.of_nat h)%N.
Proof.
  intros Ha Hlo Hs. destruct (rep_capture _ _ _ _ _ _ Hs) as (A & B & C).
  specialize (B h eq_refl).
  destruct (parseInt_digits (substring raw x y)) as (v & Hv & Hb).
  - intros E. rewrite E in A. simpl in A. lia.
  - eapply Forall_impl; [|exact C]. cbv beta. intros c. rewrite Ha. auto.
  - exists v. split; [exact Hv|]. eapply N.lt_le_trans; [exact Hb|].
    apply N.pow_le_mono_r; lia.
Qed.

Lemma endpoint_of_match_wf (raw : jsstr) (m : rmatch) (e : endpoint) :
  match_at gim raw endpointsRegex (m_index m) = Some (MState (m_end m) (m_caps m)) ->
  endpoint_of_match raw m = Some e -> endpoint_wf e.
Proof.
  intros H He. unfold endpoint_of_match in He.
  destruct (capture_of_match _ _ _ _ 1 H ltac:(simpl; tauto) eq_refl) as (a1 & b1 & E1 & S1).
  destruct (capture_of_match _ _ _ _ 2 H ltac:(simpl; tauto) eq_refl) as (a2 & b2 & E2 & _).
  destruct (capture_of_match _ _ _ _ 3 H ltac:(simpl; tauto) eq_refl) as (a3 & b3 & E3 & S3).
  rewrite E1, E2, E3 in He. inv He. split; [|split]; simpl.
  - destruct (parseInt_digit_capture raw digit_class 1 5 a3 b3 (atom_match_digit_class gim) ltac:(lia) S3)
      as (v & -> & Hv).
    exists (Z.of_N v). split; [reflexivity|]. simpl in Hv. lia.
  - destruct (rep_capture _ _ _ _ _ _ S1) as (A & _ & _).
    unfold toLowerCase. intros E. apply map_eq_nil in E. rewrite E in A. simpl in A. lia.
  - destruct (rep_capture _ _ _ _ _ _ S1) as (_ & _ & C).
    unfold toLowerCase. rewrite Forall_map. eapply Forall_impl; [|exact C].
    cbv beta. intros c. rewrite atom_match_word. intros Hw. rewrite lower_word, lower_not_upper. auto.
Qed.

(** The endpoint loop of lines 153-160 stops on every input and turns
    each match of the pattern, leftmost first and without overlap, into a
    record; the [catch] of line 164 is never reached from it. *)
Theorem extract_endpoints_total (raw : jsstr) :
  exists ms eps, all_matches gim endpointsRegex raw 0 ms
    /\ map_opt (endpoint_of_match raw) ms = Some eps
    /\ extract_endpoints raw = Some eps.
Proof.
  destruct (exec_all_spec gim endpointsRegex raw eq_refl) as (ms & Hall & Hsp);
    [rewrite endpoint_regex_width; lia|].
  pose proof (all_matches_matched _ _ _ _ _ Hsp) as Hm. rewrite Forall_forall in Hm.
  destruct (map_opt_total (endpoint_of_match raw) ms) as [eps Heps].
  { intros m Hin. apply endpoint_groups_defined. auto. }
  exists ms, eps. unfold extract_endpoints. rewrite Hall. auto.
Qed.

(** Every extracted endpoint is well formed: its port is an integer
    of at most five digits (never [NaN]) and its type a non-empty string of
    lower-case word characters. *)
Theorem extract_endpoints_wf (raw : jsstr) (eps : list endpoint) :
  extract_endpoints raw = Some eps -> Forall endpoint_wf eps.
Proof.
  intros He. destruct (extract_endpoints_total raw) as (ms & eps' & Hsp & Hmap & He').
  rewrite He in He'. inv He'. apply Forall_forall. intros e Hin.
  destruct (map_opt_in _ _ _ Hmap e Hin) as (m & Hm & Hme).
  pose proof (all_matches_matched _ _ _ _ _ Hsp) as Hall. rewrite Forall_forall in Hall.
  exact (endpoint_of_match_wf raw m e (Hall m Hm) Hme).
Qed.

(** The max-clients loop of lines 161-163 stops on every input, one
    value per match, each a non-negative integer (never [NaN]). *)
Theorem extract_maxclients_total (raw : jsstr) :
  exists ms, all_matches gim maxClientsRegex raw 0 ms
    /\ extract_maxclients raw = Some (map (maxclients_of_match raw) ms)
    /\ Forall (fun n => exists v, n = Num v /\ (0 <= v)%Z) (map (maxclients_of_match raw) ms).
Proof.
  destruct (exec_all_spec gim maxClientsRegex raw eq_refl) as (ms & Hall & Hsp);
    [rewrite maxclients_regex_width; lia|].
  exists ms. unfold extract_maxclients. rewrite Hall. split; [exact Hsp|split; [reflexivity|]].
  pose proof (all_matches_matched _ _ _ _ _ Hsp) as Hm.
  rewrite Forall_map. eapply Forall_impl; [|exact Hm]. intros m H.
  destruct (capture_of_match _ _ _ _ 1 H ltac:(simpl; tauto) eq_refl) as (a & b & E & S).
  unfold maxclients_of_match. rewrite E.
  destruct (rep_capture _ _ _ _ _ _ S) as (A & _ & C).
  destruct (parseInt_digits (substring raw a b)) as (v & -> & _).
  - intros E'. rewrite E' in A. simpl in A. lia.
  - eapply Forall_impl; [|exact C]. cbv beta. intros c. rewrite atom_match_digit. auto.
  - exists (Z.of_N v). split; [reflexivity|lia].
Qed.
