(* ===== verification/FXServerPort.v ===== *)
(** * [getFXServerPort] (helpers.js lines 131-229)

    The process-wide [GlobalData] fields the function reads, every [throw]
    of the function as a constructor of [fx_error] with the exception and
    message it raises, and the function itself as the sequence of its
    checks in source order.  The theorems characterise success by an
    abstract acceptance predicate written after the spec (a refinement), say
    which error each violated rule produces and in which order the rules are
    tried, and bound the returned port. *)

From Stdlib Require Import List Arith NArith ZArith Lia Bool.
From S2P Require Import Prelude JsText Regex CfgScan.
Import ListNotations.
Open Scope js_scope.

(** ** [GlobalData] *)

(** [GlobalData.deployerDefaults]: only [maxClients] is read.  [None] is
    [undefined]. *)
Record deployer_defaults := DeployerDefaults { dd_maxClients : option Z }.

(** The fields of [GlobalData] that [getFXServerPort] reads. *)
Record global_data := GlobalData {
  deployerDefaults : option deployer_defaults;
  forceInterface : option jsstr;
  forceFXServerPort : option Z
}.

(** [GlobalData.deployerDefaults && GlobalData.deployerDefaults.maxClients]
    (line 169): the cap when the expression is truthy (a non-zero
    number). *)
Definition max_clients_cap (gd : global_data) : option Z :=
  match deployerDefaults gd with
  | Some d =>
      match dd_maxClients d with
      | Some n => if Z.eqb n 0 then None else Some n
      | None => None
      end
  | None => None
  end.

(** [if (GlobalData.forceInterface)] (line 196): a non-empty string. *)
Definition forced_interface (gd : global_data) : option jsstr :=
  match forceInterface gd with
  | Some ((_ :: _) as s) => Some s
  | _ => None
  end.

(** ** Exceptions and their messages *)

Inductive js_exn :=
| JsError (msg : jsstr)
| JsReferenceError (msg : jsstr)
| JsTypeError (msg : jsstr).

(** One constructor per [throw] of [getFXServerPort], with the values its
    message interpolates. *)
Inductive fx_error :=
| StopMonitor                                              (** line 144 *)
| RegexMatchError                                          (** line 165 *)
| ZapMissingMaxClients (cap : Z)                           (** line 171 *)
| ZapMaxClientsTooHigh (cap : Z)                           (** line 174 *)
| NoTCPEndpoint                                            (** line 181 *)
| NoUDPEndpoint                                            (** line 183 *)
| FirstEndpointUndefined                                   (** line 186 *)
| PortMismatch                                             (** line 188 *)
| ReservedPort                                             (** line 192 *)
| ZapInvalidPort (fi : jsstr) (fport : option Z)            (** line 206 *)
| ZapInvalidInterface (bad fi : jsstr) (fport : option Z)   (** line 213 *)
| ZapMissingLoopback (fi : jsstr) (fport : option Z)        (** line 219 *)
| NoValidTCPEndpoint.                                      (** line 225 *)

Definition dq : jsstr := [34%N].

(** [`${x}`] for a number that may be [undefined]. *)
Definition opt_num_to_js (o : option Z) : jsstr :=
  match o with Some z => Z_to_js z | None => js "undefined" end.

(** [stdMessage] (lines 197-202). *)
Definition stdMessage (fi : jsstr) (fport : option Z) : jsstr :=
  let p := opt_num_to_js fport in
  join (nl ++ js "<br>")
    [js "Remove all lines containing <code>endpoint_add</code> and add the lines below to the top of your file.";
     js "<code>endpoint_add_tcp " ++ dq ++ js "127.0.0.1:" ++ p ++ dq;
     js "endpoint_add_tcp " ++ dq ++ fi ++ js ":" ++ p ++ dq;
     js "endpoint_add_udp " ++ dq ++ fi ++ js ":" ++ p ++ dq ++ js " </code>"].

(** The exception each throw site raises.  Line 192 interpolates [port],
    which is not declared in the function or the module: evaluating the
    template literal throws a [ReferenceError] before [new Error] runs. *)
Definition fx_exception (e : fx_error) : js_exn :=
  match e with
  | StopMonitor =>
      JsError (js "Remove " ++ dq ++ js "stop monitor" ++ dq ++ js " from your config")
  | RegexMatchError => JsError (js "Regex Match Error")
  | ZapMissingMaxClients cap =>
      JsError (js "Zap-Hosting: please add 'sv_maxclients " ++ Z_to_js cap
               ++ js "' to your server.cfg.")
  | ZapMaxClientsTooHigh cap =>
      JsError (js "Zap-Hosting: your 'sv_maxclients' MUST be less or equal than "
               ++ Z_to_js cap ++ js ".")
  | NoTCPEndpoint =>
      JsError (js "You MUST have at least one <code>endpoint_add_tcp</code> in your config")
  | NoUDPEndpoint =>
      JsError (js "You MUST have at least one <code>endpoint_add_udp</code> in your config")
  | FirstEndpointUndefined =>
      JsTypeError (js "Cannot read properties of undefined (reading 'port')")
  | PortMismatch => JsError (js "All <code>endpoint_add_*</code> MUST have the same port")
  | ReservedPort => JsReferenceError (js "port is not defined")
  | ZapInvalidPort fi fport =>
      JsError (js "Zap-Hosting: invalid port found.<br>" ++ nl ++ js " " ++ stdMessage fi fport)
  | ZapInvalidInterface bad fi fport =>
      JsError (js "Zap-Hosting: invalid interface '" ++ bad ++ js "'.<br>" ++ nl
               ++ stdMessage fi fport)
  | ZapMissingLoopback fi fport =>
      JsError (js "Zap-Hosting: missing interface '127.0.0.1'." ++ nl ++ stdMessage fi fport)
  | NoValidTCPEndpoint =>
      JsError (js "You MUST have one <code>endpoint_add_tcp</code> with IP 0.0.0.0 in your config")
  end.

(** ** The checks *)

Definition loopback : jsstr := js "127.0.0.1".
Definition wildcard : jsstr := js "0.0.0.0".

Definition is_tcp (m : endpoint) : bool := str_eqb (type m) (js "tcp").
Definition is_udp (m : endpoint) : bool := str_eqb (type m) (js "udp").

(** Lines 169-176. *)
Definition check_max_clients (gd : global_data) (maxClients : list jsnum) : result unit fx_error :=
  match max_clients_cap gd with
  | Some cap =>
      throw_if (match maxClients with [] => true | _ => false end) (ZapMissingMaxClients cap) ;;;
      throw_if (existsb (fun mc => num_gtb mc cap) maxClients) (ZapMaxClientsTooHigh cap)
  | None => Ok tt
  end.

(** Lines 186-189: [endpoints[0].port], then the [forEach] that throws on
    the first endpoint whose port is not [=== firstPort]. *)
Definition first_port (endpoints : list endpoint) : result jsnum fx_error :=
  match endpoints with
  | e0 :: _ => Ok (port e0)
  | [] => Err FirstEndpointUndefined
  end.

Definition check_same_port (firstPort : jsnum) (endpoints : list endpoint) : result unit fx_error :=
  throw_if (existsb (fun m => negb (num_eqb (port m) firstPort)) endpoints) PortMismatch.

(** Lines 191-193. *)
Definition check_reserved (firstPort : jsnum) : result unit fx_error :=
  throw_if (num_geb firstPort 40120 && num_leb firstPort 40130) ReservedPort.

(** Lines 204-219: the hosting provider's interface and port. *)
Definition check_forced (fi : jsstr) (fport : option Z) (firstPort : jsnum)
    (endpoints : list endpoint) : result unit fx_error :=
  throw_if (negb (match fport with Some p => num_eqb firstPort (Num p) | None => false end))
    (ZapInvalidPort fi fport) ;;;
  match find (fun m => negb (str_eqb (iface m) fi) && negb (str_eqb (iface m) loopback)) endpoints with
  | Some bad => Err (ZapInvalidInterface (iface bad) fi fport)
  | None => Ok tt
  end ;;;
  expect_some (find (fun m => is_tcp m && str_eqb (iface m) loopback) endpoints)
    (ZapMissingLoopback fi fport).

(** Lines 222-225. *)
Definition check_default_iface (endpoints : list endpoint) : result unit fx_error :=
  expect_some
    (find (fun m => is_tcp m && (str_eqb (iface m) wildcard || str_eqb (iface m) loopback)) endpoints)
    NoValidTCPEndpoint.

(** Lines 168-228: everything after the scan. *)
Definition validate (gd : global_data) (endpoints : list endpoint) (maxClients : list jsnum)
  : result jsnum fx_error :=
  check_max_clients gd maxClients ;;;
  expect_some (find is_tcp endpoints) NoTCPEndpoint ;;;
  expect_some (find is_udp endpoints) NoUDPEndpoint ;;;
  firstPort <- first_port endpoints ;;
  check_same_port firstPort endpoints ;;;
  check_reserved firstPort ;;;
  match forced_interface gd with
  | Some fi => check_forced fi (forceFXServerPort gd) firstPort endpoints
  | None => check_default_iface endpoints
  end ;;;
  Ok firstPort.

(** [getFXServerPort(rawCfgFile)] with [GlobalData] as [gd]. *)
Definition getFXServerPort (gd : global_data) (rawCfgFile : jsstr) : result jsnum fx_error :=
  throw_if (includes rawCfgFile (js "stop monitor")) StopMonitor ;;;
  match extract_endpoints rawCfgFile, extract_maxclients rawCfgFile with
  | Some endpoints, Some maxClients => validate gd endpoints maxClients
  | _, _ => Err RegexMatchError
  end.

(** ** Each check passes exactly when its rule holds *)

Lemma check_max_clients_ok (gd : global_data) (mcs : list jsnum) :
  check_max_clients gd mcs = Ok tt <->
  (forall cap, max_clients_cap gd = Some cap ->
     mcs <> [] /\ Forall (fun mc => num_gtb mc cap = false) mcs).
Proof.
  unfold check_max_clients. destruct (max_clients_cap gd) as [cap|].
  - rewrite bind_unit_ok, !throw_if_ok, existsb_false_forall. split.
    + intros [H1 H2] c [= <-]. split; [destruct mcs; discriminate|exact H2].
    + intros H. destruct (H cap eq_refl) as [Hne Hf]. split; [destruct mcs; congruence|exact Hf].
  - split; [intros _ c Hc; discriminate|reflexivity].
Qed.

Lemma expect_find_ok {A E} (f : A -> bool) (l : list A) (e : E) :
  expect_some (find f l) e = Ok tt <-> exists x, In x l /\ f x = true.
Proof. rewrite expect_some_ok. apply find_some_exists. Qed.

Lemma check_same_port_ok (p : jsnum) (eps : list endpoint) :
  check_same_port p eps = Ok tt <-> Forall (fun m => num_eqb (port m) p = true) eps.
Proof.
  unfold check_same_port. rewrite throw_if_ok, existsb_false_forall.
  split; apply Forall_impl; intros m; now rewrite negb_false_iff.
Qed.

Lemma check_reserved_ok (p : jsnum) :
  check_reserved p = Ok tt <-> ~ (exists z, p = Num z /\ (40120 <= z <= 40130)%Z).
Proof.
  unfold check_reserved. rewrite throw_if_ok.
  destruct p as [|z]; simpl; [split; [intros _ (z & ? & _); discriminate|reflexivity]|].
  rewrite andb_false_iff, !Z.leb_gt. split.
  - intros H (z' & [= <-] & ?). lia.
  - intros H. destruct (Z_lt_le_dec z 40120); [left; lia|right].
    destruct (Z_lt_le_dec 40130 z); [lia|]. exfalso. apply H. exists z. split; [auto|lia].
Qed.

Lemma check_forced_ok (fi : jsstr) (fport : option Z) (p : jsnum) (eps : list endpoint) :
  check_forced fi fport p eps = Ok tt <->
  (exists z, fport = Some z /\ num_eqb p (Num z) = true)
  /\ Forall (fun m => iface m = fi \/ iface m = loopback) eps
  /\ (exists m, In m eps /\ is_tcp m = true /\ iface m = loopback).
Proof.
  unfold check_forced. rewrite bind_unit_ok, throw_if_ok, bind_unit_ok, expect_find_ok.
  assert (Hf : (match find (fun m => negb (str_eqb (iface m) fi) && negb (str_eqb (iface m) loopback)) eps with
                | Some bad => Err (ZapInvalidInterface (iface bad) fi fport) | None => Ok tt end = Ok tt)
               <-> Forall (fun m => iface m = fi \/ iface m = loopback) eps).
  { rewrite Forall_forall. destruct (find _ eps) eqn:E.
    - split; [discriminate|]. intros H. apply find_some in E as [Hin Hb].
      destruct (H _ Hin) as [Hi|Hi]; rewrite Hi, str_eqb_refl in Hb;
        [discriminate|rewrite andb_false_r in Hb; discriminate].
    - rewrite find_none_forall in E. split; [|reflexivity]. intros _ m Hin.
      specialize (E m Hin). apply andb_false_iff in E.
      destruct E as [E|E]; apply negb_false_iff, str_eqb_eq in E; auto. }
  rewrite Hf. split.
  - intros [H1 [H2 (m & Hin & Hm)]]. apply andb_true_iff in Hm as [Ht Hl].
    apply str_eqb_eq in Hl. split; [|split; [exact H2|eauto]].
    destruct fport as [z|]; [|discriminate]. apply negb_false_iff in H1. eauto.
  - intros [(z & -> & Hz) [H2 (m & Hin & Ht & Hl)]]. split; [now rewrite Hz|split; [exact H2|]].
    exists m. split; [exact Hin|]. rewrite Ht, Hl, str_eqb_refl. reflexivity.
Qed.

Lemma check_default_iface_ok (eps : list endpoint) :
  check_default_iface eps = Ok tt <->
  exists m, In m eps /\ is_tcp m = true /\ (iface m = wildcard \/ iface m = loopback).
Proof.
  unfold check_default_iface. rewrite expect_find_ok. split.
  - intros (m & Hin & Hm). apply andb_true_iff in Hm as [Ht Hi].
    apply orb_true_iff in Hi as [Hi|Hi]; apply str_eqb_eq in Hi; eauto.
  - intros (m & Hin & Ht & [Hi|Hi]); exists m; rewrite Ht, Hi, str_eqb_refl;
      [|rewrite orb_true_r]; auto.
Qed.

(** ** The rules a configuration must satisfy (spec section 4.2) *)

(** Rule 2: with a cap, some [sv_maxclients] and none above the cap. *)
Definition max_clients_ok (gd : global_data) (mcs : list jsnum) : Prop :=
  forall cap, max_clients_cap gd = Some cap ->
    mcs <> [] /\ Forall (fun mc => num_gtb mc cap = false) mcs.

(** Rule 3: some endpoint of each protocol. *)
Definition has_tcp (eps : list endpoint) : Prop := exists e, In e eps /\ is_tcp e = true.
Definition has_udp (eps : list endpoint) : Prop := exists e, In e eps /\ is_udp e = true.

(** Rule 4: every endpoint on port [z]. *)
Definition uniform_port (eps : list endpoint) (z : Z) : Prop :=
  Forall (fun e => port e = Num z) eps.

(** Rule 5: the block reserved for txAdmin. *)
Definition reserved (z : Z) : Prop := (40120 <= z <= 40130)%Z.

(** Rule 6: the provider's interface and port. *)
Definition forced_ok (fi : jsstr) (fport : option Z) (eps : list endpoint) (z : Z) : Prop :=
  fport = Some z
  /\ Forall (fun e => iface e = fi \/ iface e = loopback) eps
  /\ exists e, In e eps /\ is_tcp e = true /\ iface e = loopback.

(** Rule 7: a TCP endpoint on the wildcard or loopback address. *)
Definition default_iface_ok (eps : list endpoint) : Prop :=
  exists e, In e eps /\ is_tcp e = true /\ (iface e = wildcard \/ iface e = loopback).

(** The rules of the validator, as a property of the extracted endpoints
    [eps], max-clients values [mcs] and returned port [p]. *)
Definition valid_directives (gd : global_data) (eps : list endpoint) (mcs : list jsnum)
    (p : jsnum) : Prop :=
  max_clients_ok gd mcs /\ has_tcp eps /\ has_udp eps
  /\ exists z, p = Num z /\ uniform_port eps z /\ ~ reserved z
     /\ match forced_interface gd with
        | Some fi => forced_ok fi (forceFXServerPort gd) eps z
        | None => default_iface_ok eps
        end.

(** The rules as the boolean tests that decide them. *)
Lemma has_tcp_iff (eps : list endpoint) : has_tcp eps <-> existsb is_tcp eps = true.
Proof. unfold has_tcp. now rewrite existsb_exists. Qed.

Lemma has_udp_iff (eps : list endpoint) : has_udp eps <-> existsb is_udp eps = true.
Proof. unfold has_udp. now rewrite existsb_exists. Qed.

Lemma uniform_port_iff (eps : list endpoint) (z : Z) :
  uniform_port eps z <-> forallb (fun e => num_eqb (port e) (Num z)) eps = true.
Proof.
  unfold uniform_port. rewrite forallb_forall, Forall_forall.
  split; intros H e Hin; specialize (H e Hin).
  - rewrite H. apply Z.eqb_refl.
  - apply num_eqb_true in H as (z' & -> & [= ->]). reflexivity.
Qed.

Lemma max_clients_ok_iff (gd : global_data) (mcs : list jsnum) :
  max_clients_ok gd mcs <-> check_max_clients gd mcs = Ok tt.
Proof. symmetry. apply check_max_clients_ok. Qed.

Lemma default_iface_ok_iff (eps : list endpoint) :
  default_iface_ok eps <-> check_default_iface eps = Ok tt.
Proof. symmetry. apply check_default_iface_ok. Qed.

Lemma first_port_uniform (eps : list endpoint) (p : jsnum) :
  first_port eps = Ok p -> Forall (fun m => num_eqb (port m) p = true) eps ->
  exists z, p = Num z /\ Forall (fun m => port m = Num z) eps.
Proof.
  destruct eps as [|e0 eps]; simpl; [discriminate|]. intros [= <-] H.
  inversion H as [|? ? H0 _]; subst. apply num_eqb_true in H0 as (z & Hz & _).
  exists z. split; [exact Hz|]. eapply Forall_impl; [|exact H].
  cbv beta. intros m Hm. apply num_eqb_true in Hm as (z' & ? & Hz'). congruence.
Qed.

(** The validator returns [p] exactly when the rules hold for [p]. *)
Lemma validate_ok_iff (gd : global_data) (eps : list endpoint) (mcs : list jsnum) (p : jsnum) :
  validate gd eps mcs = Ok p <-> valid_directives gd eps mcs p.
Proof.
  unfold validate, valid_directives, max_clients_ok, has_tcp, has_udp, uniform_port,
    reserved, forced_ok, default_iface_ok.
  rewrite bind_unit_ok, check_max_clients_ok, bind_unit_ok, expect_find_ok,
    bind_unit_ok, expect_find_ok, bind_eq_ok.
  split.
  - intros (Hmc & Htcp & Hudp & p0 & Hp0 & Hrest).
    rewrite bind_unit_ok, check_same_port_ok, bind_unit_ok, check_reserved_ok,
      bind_unit_ok in Hrest.
    destruct Hrest as (Hsame & Hres & Hif & [= ->]).
    destruct (first_port_uniform _ _ Hp0 Hsame) as (z & -> & Hz).
    split; [exact Hmc|split; [exact Htcp|split; [exact Hudp|]]].
    exists z. split; [reflexivity|split; [exact Hz|split; [intros ?; apply Hres; eauto|]]].
    destruct (forced_interface gd) as [fi|].
    + apply check_forced_ok in Hif as ((z' & Hf & Hzz) & Hi & Hl).
      apply num_eqb_true in Hzz as (? & [= <-] & [= <-]). auto.
    + apply check_default_iface_ok in Hif. exact Hif.
  - intros (Hmc & Htcp & Hudp & z & -> & Hz & Hres & Hif).
    split; [exact Hmc|split; [exact Htcp|split; [exact Hudp|]]].
    destruct Htcp as (e & Hin & _).
    destruct eps as [|e0 eps']; [destruct Hin|]. inversion Hz as [|? ? Hz0 _]; subst.
    exists (Num z). split; [simpl; now rewrite Hz0|].
    rewrite bind_unit_ok, check_same_port_ok, bind_unit_ok, check_reserved_ok, bind_unit_ok.
    split; [|split; [intros (z' & [= <-] & ?); contradiction|split; [|reflexivity]]].
    + eapply Forall_impl; [|exact Hz]. cbv beta. intros m ->. apply num_eqb_true. eauto.
    + destruct (forced_interface gd) as [fi|].
      * destruct Hif as (Hf & Hi & Hl). apply check_forced_ok.
        split; [exists z; split; [exact Hf|apply Z.eqb_refl]|auto].
      * apply check_default_iface_ok. exact Hif.
Qed.

(** ** [getFXServerPort] *)

(** The scan of lines 146-166 always completes, so the function is the
    stop-monitor test followed by the validator on the extracted
    directives. *)
Lemma getFXServerPort_scan (gd : global_data) (raw : jsstr) :
  exists eps mcs, extract_endpoints raw = Some eps /\ extract_maxclients raw = Some mcs
    /\ Forall endpoint_wf eps
    /\ getFXServerPort gd raw
       = (throw_if (includes raw (js "stop monitor")) StopMonitor ;;; validate gd eps mcs).
Proof.
  destruct (extract_endpoints_total raw) as (ms & eps & _ & _ & He).
  destruct (extract_maxclients_total raw) as (ms' & _ & Hm & _).
  exists eps, (map (maxclients_of_match raw) ms'). unfold getFXServerPort. rewrite He, Hm.
  split; [reflexivity|split; [reflexivity|split; [exact (extract_endpoints_wf raw eps He)|reflexivity]]].
Qed.

Lemma getFXServerPort_eq (gd : global_data) (raw : jsstr) (eps : list endpoint) (mcs : list jsnum) :
  extract_endpoints raw = Some eps -> extract_maxclients raw = Some mcs ->
  getFXServerPort gd raw
  = (throw_if (includes raw (js "stop monitor")) StopMonitor ;;; validate gd eps mcs).
Proof. intros He Hm. unfold getFXServerPort. now rewrite He, Hm. Qed.

(** [GlobalData] is read only through the cap, the forced interface and
    the forced port. *)
Lemma getFXServerPort_gd_ext (gd gd' : global_data) (raw : jsstr) :
  max_clients_cap gd = max_clients_cap gd' -> forced_interface gd = forced_interface gd' ->
  forceFXServerPort gd = forceFXServerPort gd' ->
  getFXServerPort gd raw = getFXServerPort gd' raw.
Proof.
  intros Hc Hi Hp. unfold getFXServerPort, validate, check_max_clients.
  now rewrite Hc, Hi, Hp.
Qed.

(** ** The validator stage by stage *)

Lemma validate_after_presence (gd : global_data) (eps : list endpoint) (mcs : list jsnum) :
  max_clients_ok gd mcs -> has_tcp eps -> has_udp eps ->
  validate gd eps mcs
  = (firstPort <- first_port eps ;;
     check_same_port firstPort eps ;;;
     check_reserved firstPort ;;;
     match forced_interface gd with
     | Some fi => check_forced fi (forceFXServerPort gd) firstPort eps
     | None => check_default_iface eps
     end ;;;
     Ok firstPort).
Proof.
  intros Hm Ht Hu. unfold validate.
  rewrite (proj2 (check_max_clients_ok gd mcs) Hm), (proj2 (expect_find_ok is_tcp eps _) Ht),
    (proj2 (expect_find_ok is_udp eps _) Hu).
  reflexivity.
Qed.

Lemma validate_after_port (gd : global_data) (eps : list endpoint) (mcs : list jsnum) (z : Z) :
  max_clients_ok gd mcs -> has_tcp eps -> has_udp eps -> uniform_port eps z -> ~ reserved z ->
  validate gd eps mcs
  = (match forced_interface gd with
     | Some fi => check_forced fi (forceFXServerPort gd) (Num z) eps
     | None => check_default_iface eps
     end ;;;
     Ok (Num z)).
Proof.
  intros Hm Ht Hu Hz Hr. rewrite validate_after_presence by assumption.
  destruct Ht as (e & Hin & _). destruct eps as [|e0 eps']; [destruct Hin|].
  assert (Hp : port e0 = Num z) by (inversion Hz; assumption). simpl first_port. rewrite Hp, bind_ok.
  rewrite (proj2 (check_same_port_ok _ _)), bind_ok.
  - rewrite (proj2 (check_reserved_ok _)), bind_ok; [reflexivity|].
    intros (z' & [= <-] & ?). contradiction.
  - eapply Forall_impl; [|exact Hz]. cbv beta. intros m ->. apply num_eqb_true. eauto.
Qed.

(** No error of the validator is the [catch] of line 165 or the
    [TypeError] of line 186: [endpoints[0]] is read only after a TCP
    endpoint was found. *)
Lemma validate_err (gd : global_data) (eps : list endpoint) (mcs : list jsnum) (e : fx_error) :
  validate gd eps mcs = Err e -> e <> RegexMatchError /\ e <> FirstEndpointUndefined.
Proof.
  unfold validate, check_max_clients, first_port, check_same_port, check_reserved,
    check_forced, check_default_iface, expect_some, throw_if, bind.
  intros H. destruct eps as [|e0 eps']; simpl in H; destr_in H; inv H; split; discriminate.
Qed.

(** ** Properties of [getFXServerPort] *)

(** C1: [getFXServerPort] returns [p] exactly when the configuration has no
    "stop monitor" and the directives scanned from it satisfy every rule of
    the validator with port [p]: the code refines the declarative rules. *)
Theorem getFXServerPort_ok_iff (gd : global_data) (raw : jsstr) (p : jsnum) :
  getFXServerPort gd raw = Ok p <->
  includes raw (js "stop monitor") = false
  /\ exists eps mcs, extract_endpoints raw = Some eps /\ extract_maxclients raw = Some mcs
                     /\ valid_directives gd eps mcs p.
Proof.
  destruct (getFXServerPort_scan gd raw) as (eps & mcs & He & Hm & _ & ->).
  destruct (includes raw (js "stop monitor")); simpl.
  - split; [discriminate|intros [? _]; discriminate].
  - rewrite validate_ok_iff. split.
    + intros H. split; [reflexivity|]. exists eps, mcs. auto.
    + intros [_ (eps' & mcs' & He' & Hm' & H)]. congruence.
Qed.

(** C2: a configuration containing "stop monitor" anywhere, comments
    included, is rejected with [StopMonitor] whatever else it holds. *)
Theorem getFXServerPort_stop_monitor (gd : global_data) (raw : jsstr) :
  includes raw (js "stop monitor") = true -> getFXServerPort gd raw = Err StopMonitor.
Proof. intros H. unfold getFXServerPort. now rewrite H. Qed.

(** C16: the cap is read with a truthiness test (line 169): a provider
    whose [maxClients] is 0 or absent is treated exactly as no provider
    defaults at all, for every configuration and every forced interface
    and port. *)
Theorem getFXServerPort_cap_zero (fi : option jsstr) (fp : option Z) (raw : jsstr) :
  getFXServerPort (GlobalData (Some (DeployerDefaults (Some 0%Z))) fi fp) raw
  = getFXServerPort (GlobalData None fi fp) raw
  /\ getFXServerPort (GlobalData (Some (DeployerDefaults None)) fi fp) raw
     = getFXServerPort (GlobalData None fi fp) raw.
Proof. split; apply getFXServerPort_gd_ext; reflexivity. Qed.

(** C3: the returned port is an integer of at most five digits outside the
    block 40120-40130 reserved for txAdmin. *)
Theorem getFXServerPort_port_bounds (gd : global_data) (raw : jsstr) (p : jsnum) :
  getFXServerPort gd raw = Ok p -> exists z, p = Num z /\ (0 <= z <= 99999)%Z /\ ~ reserved z.
Proof.
  destruct (getFXServerPort_scan gd raw) as (eps & mcs & _ & _ & Hwf & ->).
  destruct (includes raw (js "stop monitor")); simpl; [discriminate|].
  rewrite validate_ok_iff. intros (_ & (e & Hin & _) & _ & z & -> & Hz & Hr & _).
  rewrite Forall_forall in Hwf.
  destruct (Hwf e Hin) as [(z' & Hp & Hb) _].
  unfold uniform_port in Hz. rewrite Forall_forall in Hz. rewrite (Hz e Hin) in Hp. inv Hp. eauto.
Qed.

(** C4: the [catch] of line 165 and the [TypeError] of [endpoints[0]] at
    line 186 are unreachable: the scan always completes and the first
    endpoint is read only when one exists. *)
Theorem getFXServerPort_no_internal_error (gd : global_data) (raw : jsstr) :
  getFXServerPort gd raw <> Err RegexMatchError
  /\ getFXServerPort gd raw <> Err FirstEndpointUndefined.
Proof.
  destruct (getFXServerPort_scan gd raw) as (eps & mcs & _ & _ & _ & ->).
  destruct (includes raw (js "stop monitor")); simpl; [split; discriminate|].
  destruct (validate gd eps mcs) as [p|e] eqn:E; [split; discriminate|].
  destruct (validate_err gd eps mcs e E). split; congruence.
Qed.

(** C5: when the provider sets a client cap and the file has no
    [sv_maxclients] line, the error is [ZapMissingMaxClients] with the cap,
    before any endpoint is looked at. *)
Theorem getFXServerPort_missing_maxclients (gd : global_data) (raw : jsstr) (cap : Z) :
  includes raw (js "stop monitor") = false -> max_clients_cap gd = Some cap ->
  extract_maxclients raw = Some [] -> getFXServerPort gd raw = Err (ZapMissingMaxClients cap).
Proof.
  intros Hs Hc Hm. destruct (extract_endpoints_total raw) as (_ & eps & _ & _ & He).
  rewrite (getFXServerPort_eq gd raw eps [] He Hm), Hs. unfold validate, check_max_clients.
  now rewrite Hc.
Qed.

(** C6: when some [sv_maxclients] value exceeds the cap, the error is
    [ZapMaxClientsTooHigh] with the cap. *)
Theorem getFXServerPort_maxclients_too_high (gd : global_data) (raw : jsstr) (cap : Z)
    (mcs : list jsnum) :
  includes raw (js "stop monitor") = false -> max_clients_cap gd = Some cap ->
  extract_maxclients raw = Some mcs -> Exists (fun mc => num_gtb mc cap = true) mcs ->
  getFXServerPort gd raw = Err (ZapMaxClientsTooHigh cap).
Proof.
  intros Hs Hc Hm Hx. destruct (extract_endpoints_total raw) as (_ & eps & _ & _ & He).
  rewrite (getFXServerPort_eq gd raw eps mcs He Hm), Hs. unfold validate, check_max_clients.
  rewrite Hc. assert (Hne : mcs <> []) by (intros ->; inversion Hx).
  assert (Hb : existsb (fun mc => num_gtb mc cap) mcs = true) by (apply existsb_exists, Exists_exists, Hx).
  destruct mcs; [congruence|]. simpl throw_if at 1. rewrite bind_ok. unfold throw_if. now rewrite Hb.
Qed.

(** C7: with the client rule satisfied and no endpoint of type [tcp], the
    error is [NoTCPEndpoint]. *)
Theorem getFXServerPort_no_tcp (gd : global_data) (raw : jsstr) (eps : list endpoint)
    (mcs : list jsnum) :
  includes raw (js "stop monitor") = false ->
  extract_endpoints raw = Some eps -> extract_maxclients raw = Some mcs ->
  max_clients_ok gd mcs -> ~ has_tcp eps -> getFXServerPort gd raw = Err NoTCPEndpoint.
Proof.
  intros Hs He Hm Hmc Ht. rewrite (getFXServerPort_eq gd raw eps mcs He Hm), Hs. simpl.
  unfold validate. rewrite (proj2 (check_max_clients_ok gd mcs) Hmc), bind_ok.
  destruct (find is_tcp eps) eqn:E; [|reflexivity].
  exfalso. apply Ht. apply find_some_exists. eauto.
Qed.

(** C8: with a TCP endpoint but none of type [udp], the error is
    [NoUDPEndpoint]. *)
Theorem getFXServerPort_no_udp (gd : global_data) (raw : jsstr) (eps : list endpoint)
    (mcs : list jsnum) :
  includes raw (js "stop monitor") = false ->
  extract_endpoints raw = Some eps -> extract_maxclients raw = Some mcs ->
  max_clients_ok gd mcs -> has_tcp eps -> ~ has_udp eps ->
  getFXServerPort gd raw = Err NoUDPEndpoint.
Proof.
  intros Hs He Hm Hmc Ht Hu. rewrite (getFXServerPort_eq gd raw eps mcs He Hm), Hs. simpl.
  unfold validate. rewrite (proj2 (check_max_clients_ok gd mcs) Hmc),
    (proj2 (expect_find_ok is_tcp eps _) Ht), !bind_ok.
  destruct (find is_udp eps) eqn:E; [|reflexivity].
  exfalso. apply Hu. apply find_some_exists. eauto.
Qed.

(** C9: when some endpoint's port differs from the first endpoint's, the
    error is [PortMismatch], whatever the protocol of either endpoint. *)
Theorem getFXServerPort_port_mismatch (gd : global_data) (raw : jsstr) (e0 : endpoint)
    (rest : list endpoint) (mcs : list jsnum) :
  includes raw (js "stop monitor") = false ->
  extract_endpoints raw = Some (e0 :: rest) -> extract_maxclients raw = Some mcs ->
  max_clients_ok gd mcs -> has_tcp (e0 :: rest) -> has_udp (e0 :: rest) ->
  Exists (fun e => port e <> port e0) rest ->
  getFXServerPort gd raw = Err PortMismatch.
Proof.
  intros Hs He Hm Hmc Ht Hu Hx. rewrite (getFXServerPort_eq gd raw _ mcs He Hm), Hs. simpl.
  rewrite validate_after_presence by assumption. simpl first_port. rewrite bind_ok.
  unfold check_same_port.
  replace (existsb (fun m => negb (num_eqb (port m) (port e0))) (e0 :: rest)) with true; [reflexivity|].
  symmetry. apply existsb_exists. apply Exists_exists in Hx as (e & Hin & Hne).
  exists e. split; [now right|]. apply negb_true_iff.
  destruct (num_eqb (port e) (port e0)) eqn:E; [|reflexivity].
  apply num_eqb_true in E as (z & ? & ?). congruence.
Qed.

(** C10: a uniform port inside 40120-40130 is rejected at line 192, and the
    exception raised there is a [ReferenceError] for the undeclared [port],
    not the [Error] whose message the line builds. *)
Theorem getFXServerPort_reserved_port (gd : global_data) (raw : jsstr) (eps : list endpoint)
    (mcs : list jsnum) (z : Z) :
  includes raw (js "stop monitor") = false ->
  extract_endpoints raw = Some eps -> extract_maxclients raw = Some mcs ->
  max_clients_ok gd mcs -> has_tcp eps -> has_udp eps -> uniform_port eps z -> reserved z ->
  getFXServerPort gd raw = Err ReservedPort
  /\ fx_exception ReservedPort = JsReferenceError (js "port is not defined").
Proof.
  intros Hs He Hm Hmc Ht Hu Hz Hr. split; [|reflexivity].
  rewrite (getFXServerPort_eq gd raw eps mcs He Hm), Hs. simpl.
  rewrite validate_after_presence by assumption.
  destruct Ht as (e & Hin & _). destruct eps as [|e0 eps']; [destruct Hin|].
  assert (Hp : port e0 = Num z) by (inversion Hz; assumption).
  simpl first_port. rewrite Hp, bind_ok.
  rewrite (proj2 (check_same_port_ok _ _)), bind_ok.
  - unfold check_reserved, throw_if. unfold reserved in Hr. simpl.
    rewrite (proj2 (Z.leb_le _ _)), (proj2 (Z.leb_le _ _)) by lia. reflexivity.
  - eapply Forall_impl; [|exact Hz]. cbv beta. intros m ->. apply num_eqb_true. eauto.
Qed.

(** ** The interface rules, once the port is settled *)

Section InterfaceRules.
Variables (gd : global_data) (raw : jsstr) (eps : list endpoint) (mcs : list jsnum) (z : Z).
Hypothesis Hstop : includes raw (js "stop monitor") = false.
Hypothesis Heps : extract_endpoints raw = Some eps.
Hypothesis Hmcs : extract_maxclients raw = Some mcs.
Hypothesis Hmax : max_clients_ok gd mcs.
Hypothesis Htcp : has_tcp eps.
Hypothesis Hudp : has_udp eps.
Hypothesis Hport : uniform_port eps z.
Hypothesis Hfree : ~ reserved z.

Lemma getFXServerPort_after_port :
  getFXServerPort gd raw
  = (match forced_interface gd with
     | Some fi => check_forced fi (forceFXServerPort gd) (Num z) eps
     | None => check_default_iface eps
     end ;;; Ok (Num z)).
Proof.
  rewrite (getFXServerPort_eq gd raw eps mcs Heps Hmcs), Hstop. simpl.
  apply validate_after_port; assumption.
Qed.

(** C11: with a forced interface, a port other than the forced one is
    rejected with [ZapInvalidPort]; when [forceFXServerPort] is undefined
    no port matches, so every configuration that reaches line 205 is
    rejected. *)
Theorem getFXServerPort_forced_port (fi : jsstr) :
  forced_interface gd = Some fi -> forceFXServerPort gd <> Some z ->
  getFXServerPort gd raw = Err (ZapInvalidPort fi (forceFXServerPort gd)).
Proof.
  intros Hfi Hfp. rewrite getFXServerPort_after_port, Hfi. unfold check_forced, throw_if.
  destruct (forceFXServerPort gd) as [p|]; [|reflexivity]. simpl.
  destruct (Z.eqb_spec z p) as [->|]; [congruence|reflexivity].
Qed.

(** C12: with a forced interface and the forced port, the first endpoint
    bound to an address that is neither the forced one nor 127.0.0.1 is
    the one the error names. *)
Theorem getFXServerPort_forced_interface (fi : jsstr) (pre post : list endpoint)
    (bad : endpoint) :
  forced_interface gd = Some fi -> forceFXServerPort gd = Some z ->
  eps = pre ++ bad :: post -> Forall (fun e => iface e = fi \/ iface e = loopback) pre ->
  iface bad <> fi -> iface bad <> loopback ->
  getFXServerPort gd raw = Err (ZapInvalidInterface (iface bad) fi (Some z)).
Proof.
  intros Hfi Hfp Heq Hpre Hb1 Hb2. rewrite getFXServerPort_after_port, Hfi, Hfp.
  unfold check_forced. simpl. rewrite Z.eqb_refl. simpl. rewrite Heq.
  rewrite find_first; [reflexivity| |].
  - eapply Forall_impl; [|exact Hpre]. cbv beta. intros m [-> | ->];
      rewrite str_eqb_refl; [|apply andb_false_r]; reflexivity.
  - apply andb_true_iff. split; apply negb_true_iff;
      (destruct (str_eqb _ _) eqn:E; [apply str_eqb_eq in E; congruence|reflexivity]).
Qed.

(** C13: with a forced interface, the forced port and every address
    allowed, a configuration with no TCP endpoint on 127.0.0.1 is rejected
    with [ZapMissingLoopback]. *)
Theorem getFXServerPort_missing_loopback (fi : jsstr) :
  forced_interface gd = Some fi -> forceFXServerPort gd = Some z ->
  Forall (fun e => iface e = fi \/ iface e = loopback) eps ->
  ~ (exists e, In e eps /\ is_tcp e = true /\ iface e = loopback) ->
  getFXServerPort gd raw = Err (ZapMissingLoopback fi (Some z)).
Proof.
  intros Hfi Hfp Hall Hno. rewrite getFXServerPort_after_port, Hfi.
  destruct (check_forced fi (forceFXServerPort gd) (Num z) eps) as [[]|e] eqn:E.
  - exfalso. apply check_forced_ok in E as (_ & _ & H). exact (Hno H).
  - simpl. unfold check_forced in E. rewrite Hfp in E. simpl in E. rewrite Z.eqb_refl in E.
    simpl in E.
    destruct (find _ eps) eqn:F.
    + apply find_some in F as [Hin Hb]. rewrite Forall_forall in Hall.
      destruct (Hall _ Hin) as [Hi|Hi]; rewrite Hi, str_eqb_refl in Hb;
        [discriminate|rewrite andb_false_r in Hb; discriminate].
    + simpl in E. unfold expect_some in E.
      destruct (find (fun m => is_tcp m && str_eqb (iface m) loopback) eps); [discriminate|congruence].
Qed.

(** C14: without a forced interface, a configuration with no TCP endpoint
    on 0.0.0.0 or 127.0.0.1 is rejected with [NoValidTCPEndpoint]. *)
Theorem getFXServerPort_no_valid_tcp :
  forced_interface gd = None -> ~ default_iface_ok eps ->
  getFXServerPort gd raw = Err NoValidTCPEndpoint.
Proof.
  intros Hfi Hno. rewrite getFXServerPort_after_port, Hfi.
  destruct (check_default_iface eps) as [[]|e] eqn:E.
  - exfalso. apply check_default_iface_ok in E. exact (Hno E).
  - simpl. unfold check_default_iface, expect_some in E. destruct (find _ eps); congruence.
Qed.
(** C15: without a forced interface, one TCP endpoint on 127.0.0.1
    satisfies the interface rule of lines 222-225: a configuration whose
    TCP endpoints are all on 127.0.0.1 is accepted, although the doc
    comment of line 136 and the message of line 225 ask for 0.0.0.0. *)
Theorem getFXServerPort_loopback_accepted (e : endpoint) :
  forced_interface gd = None -> In e eps -> is_tcp e = true -> iface e = loopback ->
  getFXServerPort gd raw = Ok (Num z).
Proof.
  intros Hfi Hin Ht Hi. rewrite getFXServerPort_after_port, Hfi.
  replace (check_default_iface eps) with (Ok (E := fx_error) tt); [reflexivity|].
  symmetry. apply check_default_iface_ok. exists e. auto.
Qed.
End InterfaceRules.
