(* ===== verification/NodePath.v ===== *)
(** * Node's [path] module on POSIX

    [resolveCFGFilePath] and [findLikelyCFGPath] call [path.isAbsolute],
    [path.resolve] and [path.join] of Node's [path] module, which is not part
    of the repository.  This file writes them after Node's documented
    behaviour for POSIX paths ([path.posix]): [normalizeString] keeps a stack
    of segments, drops empty and [.] segments, and lets [..] remove the last
    segment or, in a relative path, stay in front.  The Windows flavour of
    the module (drive letters, backslashes) is not modelled. *)

From Stdlib Require Import List Arith NArith Lia Bool.
From S2P Require Import Prelude JsText.
Import ListNotations.
Open Scope js_scope.

Module Path.

Definition sep : char := 47%N.
Definition dot : jsstr := [46%N].
Definition dotdot : jsstr := [46%N; 46%N].

(** [path.isAbsolute(p)]: the path starts with [/]. *)
Definition isAbsolute (p : jsstr) : bool :=
  match p with
  | c :: _ => N.eqb c sep
  | [] => false
  end.

(** The segment loop of [normalizeString(path, allowAboveRoot)], with the
    result as a stack [acc] of segments, the last one first. *)
Fixpoint norm_segs (allowAboveRoot : bool) (acc : list jsstr) (segs : list jsstr) : list jsstr :=
  match segs with
  | [] => acc
  | seg :: rest =>
      if negb (nonempty seg) || str_eqb seg dot then norm_segs allowAboveRoot acc rest
      else if str_eqb seg dotdot then
        match acc with
        | top :: acc' =>
            if str_eqb top dotdot then
              norm_segs allowAboveRoot (if allowAboveRoot then dotdot :: acc else acc) rest
            else norm_segs allowAboveRoot acc' rest
        | [] => norm_segs allowAboveRoot (if allowAboveRoot then [dotdot] else []) rest
        end
      else norm_segs allowAboveRoot (seg :: acc) rest
  end.

(** [normalizeString(path, allowAboveRoot, '/', isPosixPathSeparator)] *)
Definition normalizeString (p : jsstr) (allowAboveRoot : bool) : jsstr :=
  join [sep] (rev (norm_segs allowAboveRoot [] (split p sep))).

Definition ends_with_sep (p : jsstr) : bool :=
  match rev p with
  | c :: _ => N.eqb c sep
  | [] => false
  end.

(** [path.normalize(p)] *)
Definition normalize (p : jsstr) : jsstr :=
  match p with
  | [] => dot
  | _ :: _ =>
      let isAbs := isAbsolute p in
      let trailingSeparator := ends_with_sep p in
      match normalizeString p (negb isAbs) with
      | [] => if isAbs then [sep] else if trailingSeparator then dot ++ [sep] else dot
      | q => let q' := if trailingSeparator then q ++ [sep] else q in
             if isAbs then sep :: q' else q'
      end
  end.

(** [path.join(a, b)]: the non-empty arguments joined by [/], normalised. *)
Definition join2 (a b : jsstr) : jsstr :=
  let joined := match a, b with
                | [], [] => []
                | [], _ => b
                | _, [] => a
                | _, _ => a ++ [sep] ++ b
                end in
  match joined with
  | [] => dot
  | _ :: _ => normalize joined
  end.

(** The loop of [path.resolve(...args)], from the last argument backwards
    and then [process.cwd()], until an absolute path has been prepended. *)
Fixpoint resolve_scan (paths : list jsstr) (resolvedPath : jsstr) : jsstr * bool :=
  match paths with
  | [] => (resolvedPath, false)
  | p :: ps =>
      match p with
      | [] => resolve_scan ps resolvedPath
      | _ :: _ =>
          let resolvedPath' := p ++ [sep] ++ resolvedPath in
          if isAbsolute p then (resolvedPath', true) else resolve_scan ps resolvedPath'
      end
  end.

(** [path.resolve(...args)] with the process's working directory [cwd]. *)
Definition resolve (cwd : jsstr) (args : list jsstr) : jsstr :=
  let '(resolvedPath, resolvedAbsolute) := resolve_scan (rev args ++ [cwd]) [] in
  let q := normalizeString resolvedPath (negb resolvedAbsolute) in
  if resolvedAbsolute then sep :: q
  else match q with [] => dot | _ :: _ => q end.

(** ** Normal forms *)

(** A segment [normalizeString] keeps as it is. *)
Definition plain_seg (s : jsstr) : bool :=
  nonempty s && negb (str_eqb s dot) && negb (str_eqb s dotdot) && negb (existsb (N.eqb sep) s).

(** The segments of a normalised path: some [..] in front (only when the
    path may go above its root), then plain segments. *)
Definition clean (allowAboveRoot : bool) (l : list jsstr) : Prop :=
  exists dd rest, l = dd ++ rest /\ Forall (eq dotdot) dd
    /\ (allowAboveRoot = false -> dd = []) /\ Forall (fun s => plain_seg s = true) rest.

Lemma plain_dotdot : plain_seg dotdot = false.
Proof. reflexivity. Qed.

Lemma plain_no_sep (s : jsstr) : plain_seg s = true -> ~ In sep s.
Proof.
  unfold plain_seg. intros H Hin. rewrite !andb_true_iff in H. destruct H as [_ H].
  apply negb_true_iff in H. rewrite existsb_false_forall in H.
  rewrite Forall_forall in H. specialize (H _ Hin). rewrite N.eqb_refl in H. discriminate.
Qed.

Lemma clean_nil (a : bool) : clean a [].
Proof. exists [], []. repeat split; auto. Qed.

Lemma clean_snoc_plain (a : bool) (l : list jsstr) (s : jsstr) :
  clean a l -> plain_seg s = true -> clean a (l ++ [s]).
Proof.
  intros (dd & rest & -> & Hd & Ha & Hr) Hs. exists dd, (rest ++ [s]).
  rewrite <- app_assoc. repeat split; auto. apply Forall_app. auto.
Qed.

Lemma clean_snoc_dotdot (l : list jsstr) : Forall (eq dotdot) l -> clean true (l ++ [dotdot]).
Proof.
  intros H. exists (l ++ [dotdot]), []. rewrite app_nil_r.
  split; [reflexivity|split; [apply Forall_app; auto|split; [discriminate|constructor]]].
Qed.

(** The last segment of a clean path is plain, or all segments are [..]. *)
Lemma clean_unsnoc (a : bool) (l : list jsstr) (x : jsstr) :
  clean a (l ++ [x]) ->
  clean a l /\ (plain_seg x = true \/ (x = dotdot /\ Forall (eq dotdot) l /\ a = true)).
Proof.
  intros (dd & rest & E & Hd & Ha & Hr). destruct rest as [|y rest'] using rev_ind.
  - rewrite app_nil_r in E. subst dd. apply Forall_app in Hd as [Hl Hx]. inv Hx.
    split; [exists l, []; rewrite app_nil_r; repeat split; auto|].
    + intros Hf. specialize (Ha Hf). destruct l; discriminate.
    + right. repeat split; auto. destruct a; auto. specialize (Ha eq_refl). destruct l; discriminate.
  - rewrite app_assoc in E. apply app_inj_tail in E as [-> ->].
    apply Forall_app in Hr as [Hr Hy]. inv Hy. split; [exists dd, rest'; auto|left; auto].
Qed.

Lemma clean_no_sep (a : bool) (l : list jsstr) : clean a l -> Forall (fun s => ~ In sep s) l.
Proof.
  intros (dd & rest & -> & Hd & _ & Hr). apply Forall_app. split.
  - eapply Forall_impl; [|exact Hd]. intros s <- [H|[H|[]]]; discriminate.
  - eapply Forall_impl; [|exact Hr]. apply plain_no_sep.
Qed.

Lemma plain_seg_intro (s : jsstr) :
  negb (nonempty s) || str_eqb s dot = false -> str_eqb s dotdot = false -> ~ In sep s ->
  plain_seg s = true.
Proof.
  intros H1 H2 H3. apply orb_false_iff in H1 as [H1 H1'].
  unfold plain_seg. rewrite (negb_false_iff _) in H1. rewrite H1, H1', H2. simpl.
  apply negb_true_iff, existsb_false_forall, Forall_forall. intros c Hc.
  apply N.eqb_neq. intros E. subst c. contradiction.
Qed.

Lemma norm_segs_app (a : bool) (acc : list jsstr) (l1 l2 : list jsstr) :
  norm_segs a acc (l1 ++ l2) = norm_segs a (norm_segs a acc l1) l2.
Proof.
  revert acc. induction l1 as [|x l1 IH]; intros acc; simpl; [reflexivity|].
  repeat case_goal; apply IH.
Qed.

(** The stack of [normalizeString] always holds a normal form. *)
Lemma norm_segs_clean (a : bool) (acc segs : list jsstr) :
  clean a (rev acc) -> Forall (fun s => ~ In sep s) segs -> clean a (rev (norm_segs a acc segs)).
Proof.
  revert acc. induction segs as [|seg segs IH]; intros acc Hc Hs; simpl; [exact Hc|].
  inv Hs. destruct (negb (nonempty seg) || str_eqb seg dot) eqn:E1; [auto|].
  destruct (str_eqb seg dotdot) eqn:E2.
  - destruct acc as [|top acc'].
    { apply IH; [|assumption]. destruct a; [apply (clean_snoc_dotdot []); constructor|apply clean_nil]. }
    simpl in Hc. apply clean_unsnoc in Hc as [Hc' [Hp|(-> & Hall & ->)]].
    + destruct (str_eqb top dotdot) eqn:E3; [apply str_eqb_eq in E3; subst; discriminate|auto].
    + rewrite str_eqb_refl. apply IH; auto. simpl. apply clean_snoc_dotdot.
      apply Forall_app. auto.
  - apply IH; auto. simpl. apply clean_snoc_plain; [exact Hc|apply plain_seg_intro; auto].
Qed.

Lemma norm_segs_plain (a : bool) (acc rest : list jsstr) :
  Forall (fun s => plain_seg s = true) rest -> norm_segs a acc rest = rev rest ++ acc.
Proof.
  revert acc. induction rest as [|s rest IH]; intros acc H; simpl; [reflexivity|]. inv H.
  unfold plain_seg in H2. rewrite !andb_true_iff in H2. destruct H2 as [[[A B] C] _].
  rewrite A. apply negb_true_iff in B, C. rewrite B, C. simpl. rewrite IH by auto.
  now rewrite <- app_assoc.
Qed.

Lemma norm_segs_dotdots (acc dd : list jsstr) :
  Forall (eq dotdot) acc -> Forall (eq dotdot) dd -> norm_segs true acc dd = rev dd ++ acc.
Proof.
  revert acc. induction dd as [|s dd IH]; intros acc Ha H; simpl; [reflexivity|]. inv H.
  simpl. destruct acc as [|top acc'].
  - rewrite IH, app_nil_r; auto.
  - inv Ha. simpl. rewrite IH; [now rewrite <- app_assoc|constructor; auto|auto].
Qed.

(** On a normal form the segment loop changes nothing. *)
Lemma norm_segs_of_clean (a : bool) (l : list jsstr) : clean a l -> norm_segs a [] l = rev l.
Proof.
  intros (dd & rest & -> & Hd & Ha & Hr). rewrite norm_segs_app, norm_segs_plain by exact Hr.
  destruct dd as [|d dd']; [now rewrite app_nil_r|].
  destruct a; [|discriminate (Ha eq_refl)].
  rewrite norm_segs_dotdots by auto. now rewrite rev_app_distr, app_nil_r.
Qed.

Lemma normalizeString_clean (a : bool) (p : jsstr) :
  clean a (rev (norm_segs a [] (split p sep))).
Proof. apply norm_segs_clean; [apply clean_nil|apply split_no_sep]. Qed.

(** [normalizeString] is idempotent. *)
Lemma normalizeString_idem (p : jsstr) (a : bool) :
  normalizeString (normalizeString p a) a = normalizeString p a.
Proof.
  unfold normalizeString at 2 3. pose proof (normalizeString_clean a p) as Hc.
  set (L := rev (norm_segs a [] (split p sep))) in *.
  destruct L as [|s l]; [reflexivity|]. unfold normalizeString.
  rewrite split_join by first [discriminate|exact (clean_no_sep a _ Hc)].
  now rewrite norm_segs_of_clean, rev_involutive.
Qed.

(** Separators around a path change nothing. *)
Lemma normalizeString_wrap (q : jsstr) (a : bool) :
  normalizeString (sep :: q ++ [sep]) a = normalizeString q a.
Proof.
  unfold normalizeString. f_equal. f_equal.
  change (sep :: q ++ [sep]) with ([] ++ sep :: (q ++ sep :: [])).
  rewrite !split_app_sep, !norm_segs_app. reflexivity.
Qed.

Lemma resolve_scan_abs (paths : list jsstr) (acc : jsstr) :
  (exists p, In p paths /\ isAbsolute p = true) -> snd (resolve_scan paths acc) = true.
Proof.
  revert acc. induction paths as [|[|c p] ps IH]; intros acc (x & Hin & Hx); simpl.
  - destruct Hin.
  - destruct Hin as [<-|Hin]; [discriminate|eauto].
  - destruct (N.eqb c sep) eqn:E; [reflexivity|].
    destruct Hin as [<-|Hin]; [simpl in Hx; congruence|eauto].
Qed.

(** When the working directory is absolute, [path.resolve] returns [/]
    followed by a normalised path. *)
Lemma resolve_abs_form (cwd : jsstr) (args : list jsstr) :
  isAbsolute cwd = true -> exists rp, resolve cwd args = sep :: normalizeString rp false.
Proof.
  intros H. unfold resolve.
  pose proof (resolve_scan_abs (rev args ++ [cwd]) []) as Hs.
  destruct (resolve_scan (rev args ++ [cwd]) []) as [rp b]. simpl in Hs. rewrite Hs.
  - exists rp. reflexivity.
  - exists cwd. split; [apply in_or_app; right; left; reflexivity|exact H].
Qed.

Lemma isAbsolute_app (p q : jsstr) : p <> [] -> isAbsolute (p ++ q) = isAbsolute p.
Proof. destruct p; [congruence|reflexivity]. Qed.

Lemma normalize_abs (p : jsstr) : isAbsolute p = true -> isAbsolute (normalize p) = true.
Proof.
  destruct p as [|c p]; [discriminate|]. intros H. unfold normalize. rewrite H.
  destruct (normalizeString _ _); [reflexivity|destruct (ends_with_sep _); reflexivity].
Qed.

(** A normalised relative path does not start with [/]. *)
Lemma join_clean_rel (a : bool) (l : list jsstr) : clean a l -> isAbsolute (join [sep] l) = false.
Proof.
  intros Hc. pose proof (clean_no_sep a l Hc) as Hn.
  destruct Hc as (dd & rest & -> & Hd & _ & Hr).
  destruct dd as [|d dd]; [destruct rest as [|s rest]; [reflexivity|]|].
  - apply Forall_cons_iff in Hn as [Hn _]. apply Forall_cons_iff in Hr as [Hs _].
    unfold plain_seg in Hs. destruct s as [|c s]; [discriminate|].
    assert (c <> sep) by (intros ->; apply Hn; left; reflexivity).
    destruct rest; simpl; apply N.eqb_neq; exact H.
  - inv Hd. simpl. destruct (dd ++ rest); reflexivity.
Qed.

Lemma normalize_rel (p : jsstr) : isAbsolute p = false -> isAbsolute (normalize p) = false.
Proof.
  destruct p as [|c p]; [reflexivity|]. intros H. unfold normalize. rewrite H.
  pose proof (join_clean_rel true _ (normalizeString_clean true (c :: p))) as Hj.
  change (join [sep] (rev (norm_segs true [] (split (c :: p) sep)))) with (normalizeString (c :: p) true) in Hj.
  destruct (normalizeString (c :: p) (negb false)) as [|x q] eqn:E;
    [destruct (ends_with_sep _); reflexivity|].
  simpl negb in E. rewrite E in Hj. destruct (ends_with_sep _); [rewrite isAbsolute_app by discriminate|]; exact Hj.
Qed.

(** [path.resolve] with an absolute working directory gives an absolute path. *)
Theorem resolve_absolute (cwd : jsstr) (args : list jsstr) :
  isAbsolute cwd = true -> isAbsolute (resolve cwd args) = true.
Proof.
  intros H. destruct (resolve_abs_form cwd args H) as [rp ->]. apply N.eqb_refl.
Qed.

(** Resolving an already resolved path gives it back. *)
Theorem resolve_idem (cwd : jsstr) (args : list jsstr) :
  isAbsolute cwd = true -> resolve cwd [resolve cwd args] = resolve cwd args.
Proof.
  intros H. destruct (resolve_abs_form cwd args H) as [rp ->].
  unfold resolve. cbn [rev app resolve_scan].
  replace (isAbsolute (sep :: normalizeString rp false)) with true by (symmetry; apply N.eqb_refl).
  cbn [negb]. now rewrite normalizeString_wrap, normalizeString_idem.
Qed.

(** [path.join] keeps an absolute first argument absolute and two
    relative arguments relative. *)
Theorem join2_absolute (a b : jsstr) :
  isAbsolute (join2 a b) = isAbsolute a || (negb (nonempty a) && isAbsolute b).
Proof.
  destruct a as [|c a]; destruct b as [|d b]; unfold join2; cbn [nonempty negb andb orb].
  - reflexivity.
  - destruct (isAbsolute (d :: b)) eqn:E; [now apply normalize_abs|now apply normalize_rel].
  - destruct (isAbsolute (c :: a)) eqn:E; [now apply normalize_abs|now apply normalize_rel].
  - rewrite ?andb_false_l, ?orb_false_r.
    destruct (isAbsolute (c :: a)) eqn:E; [apply normalize_abs|apply normalize_rel]; exact E.
Qed.

End Path.
