(* ===== verification/Schedule.v ===== *)
(** * [parseSchedule] (helpers.js lines 61-85)

    The restart schedule is a comma-separated list of times of day.  Each
    non-empty entry is trimmed and matched with a fresh
    [/^$|^([01]?[0-9]|2[0-3]):([0-5][0-9])$/gm]; a match becomes an object
    [{string, hour, minute}], and an entry without a match is kept as is
    when [filter] is false and dropped otherwise. *)

From Stdlib Require Import List Arith NArith ZArith Lia Bool.
From S2P Require Import Prelude JsText Regex.
Import ListNotations.
Open Scope js_scope.

(** ** The pattern of line 71 *)

(** The flags [gm] (no [i]). *)
Definition gm : flags := Flags true false true.

Definition any_digit : atom := AClass [(48, 57)%N].

(** [[01]?[0-9]|2[0-3]] *)
Definition hour_pat : regex :=
  RAlt (RSeq (opt (AClass [(48, 49)%N])) (RAtom any_digit))
       (RSeq (RAtom (ALit 50%N)) (RAtom (AClass [(48, 51)%N]))).

(** [[0-5][0-9]] *)
Definition minute_pat : regex := RSeq (RAtom (AClass [(48, 53)%N])) (RAtom any_digit).

(** [/^$|^([01]?[0-9]|2[0-3]):([0-5][0-9])$/gm] *)
Definition scheduleRegex : regex :=
  RAlt (RSeq RBol REol)
       (seqs [RBol; RGroup 1 hour_pat; RAtom (ALit 58%N); RGroup 2 minute_pat; REol]).

(** ** The function *)

(** The argument: a string, or an array used as it is (line 67). *)
Inductive schedule_arg :=
| SchedString (s : jsstr)
| SchedArray (times : list jsstr).

(** An element of [out]. *)
Inductive sched_item :=
| RawTime (time : jsstr)                               (** [out.push(time)], line 74 *)
| ParsedTime (string : jsstr) (hour minute : jsnum).   (** lines 76-80 *)

(** Lines 71-81 for one non-empty entry: the regex is created anew, so
    [exec] starts at index 0. *)
Definition parse_time (filter : bool) (time : jsstr) : list sched_item :=
  let t := trim time in
  match exec gm scheduleRegex t 0 with
  | None => if filter then [] else [RawTime time]
  | Some m =>
      [ParsedTime (match0 t m) (parseInt_value (group t m 1)) (parseInt_value (group t m 2))]
  end.

(** The [forEach] of lines 69-82; an empty entry is skipped (line 70). *)
Fixpoint parse_times (filter : bool) (times : list jsstr) : list sched_item :=
  match times with
  | [] => []
  | time :: rest =>
      match time with
      | [] => parse_times filter rest
      | _ :: _ => parse_time filter time ++ parse_times filter rest
      end
  end.

(** Line 67: a string is split on commas, an array is used as it is. *)
Definition times_of (schedule : schedule_arg) : list jsstr :=
  match schedule with
  | SchedString s => split s 44%N
  | SchedArray l => l
  end.

(** [parseSchedule(schedule, filter)] *)
Definition parseSchedule (schedule : schedule_arg) (filter : bool) : list sched_item :=
  parse_times filter (times_of schedule).

(** ** Properties *)

(** A field of a parsed time: [NaN] (the group did not take part) or a
    number in [0 .. hi]. *)
Definition field_ok (hi : Z) (v : jsnum) : bool :=
  match v with
  | NaN => true
  | Num z => Z.leb 0 z && Z.leb z hi
  end.

(** [HH] with a leading zero, as a clock prints it. *)
Definition pad2 (n : N) : jsstr := [48 + n / 10; 48 + n mod 10]%N.

Definition time_text (h m : N) : jsstr := pad2 h ++ [58%N] ++ pad2 m.

Definition sched_item_eq_dec (x y : sched_item) : {x = y} + {x <> y}.
Proof.
  pose proof (list_eq_dec N.eq_dec) as Hs.
  assert (Hn : forall a b : jsnum, {a = b} + {a <> b}) by (decide equality; apply Z.eq_dec).
  decide equality.
Defined.

Lemma field_ok_num (hi z : Z) : (0 <= z <= hi)%Z -> field_ok hi (Num z) = true.
Proof. intros H. simpl. apply andb_true_iff. split; apply Z.leb_le; lia. Qed.

Lemma digit_of_range (c : char) : (48 <= c <= 57)%N -> is_digit c = true.
Proof. intros H. unfold is_digit. apply andb_true_iff. split; apply N.leb_le; lia. Qed.

Lemma range_gm (lo hi c : char) : atom_match gm (AClass [(lo, hi)]) c = true -> (lo <= c <= hi)%N.
Proof. apply atom_match_range_nocase. reflexivity. Qed.

(** [c?] spans nothing or one unit the atom matches. *)
Lemma opt_span_inv (t : jsstr) (a : atom) (x y : nat) :
  span gm t (opt a) x y ->
  substring t x y = [] \/ exists c, substring t x y = [c] /\ atom_match gm a c = true.
Proof.
  intros H. destruct (span_rep_inv _ _ _ _ _ _ _ H) as (_ & B & _ & D & E).
  specialize (B 1 eq_refl). destruct (substring t x y) as [|c [|c' l]] eqn:Es; auto.
  - right. exists c. inv D. auto.
  - simpl in E. lia.
Qed.

(** The text [hour_pat] spans reads as an hour of [0 .. 23]. *)
Lemma hour_value (t : jsstr) (a b : nat) :
  span gm t hour_pat a b -> field_ok 23 (parseInt (substring t a b)) = true.
Proof.
  intros H. apply span_alt_inv in H as [H|H];
    apply span_seq_inv in H as (j & H1 & H2 & ->);
    apply span_atom_inv in H2 as (_ & d & -> & Hd); apply range_gm in Hd.
  - apply opt_span_inv in H1 as [->|(x & -> & Hx)]; [|apply range_gm in Hx]; simpl app.
    + rewrite parseInt_one_digit by (apply digit_of_range; lia). apply field_ok_num; lia.
    + rewrite parseInt_two_digits by (apply digit_of_range; lia). apply field_ok_num; lia.
  - apply span_atom_inv in H1 as (_ & x & -> & Hx).
    apply atom_match_lit_nocase in Hx; [subst x|reflexivity]. simpl app.
    rewrite parseInt_two_digits by (apply digit_of_range; lia). apply field_ok_num; lia.
Qed.

(** The text [minute_pat] spans reads as a minute of [0 .. 59]. *)
Lemma minute_value (t : jsstr) (a b : nat) :
  span gm t minute_pat a b -> field_ok 59 (parseInt (substring t a b)) = true.
Proof.
  intros H. apply span_seq_inv in H as (j & H1 & H2 & ->).
  apply span_atom_inv in H1 as (_ & x & -> & Hx); apply range_gm in Hx.
  apply span_atom_inv in H2 as (_ & d & -> & Hd); apply range_gm in Hd. simpl app.
  rewrite parseInt_two_digits by (apply digit_of_range; lia). apply field_ok_num; lia.
Qed.

(** A defined group of the schedule pattern reads as a field in range; an
    undefined one is [parseInt(undefined)], i.e. [NaN]. *)
Lemma group_field (t : jsstr) (m : rmatch) (g : nat) (hi : Z) (body : regex) :
  exec gm scheduleRegex t 0 = Some m -> group_bodies scheduleRegex g = [body] ->
  (forall a b, span gm t body a b -> field_ok hi (parseInt (substring t a b)) = true) ->
  field_ok hi (parseInt_value (group t m g)) = true.
Proof.
  intros H Hb Hf. destruct (exec_some gm scheduleRegex t eq_refl 0 m H) as (_ & Hm & _).
  destruct (group t m g) as [x|] eqn:G; [|reflexivity].
  destruct m as [i e cs]. simpl in Hm.
  destruct (group_span gm t scheduleRegex i (MState e cs) g x Hm G) as (a & b & r' & -> & Hin & Hs). rewrite Hb in Hin.
  destruct Hin as [<-|[]]. exact (Hf a b Hs).
Qed.

Definition is_parsed (it : sched_item) : bool :=
  match it with ParsedTime _ _ _ => true | RawTime _ => false end.

(** What one entry contributes. *)
Lemma parse_time_items (filter : bool) (time : jsstr) (it : sched_item) :
  In it (parse_time filter time) ->
  match it with
  | RawTime x => x = time /\ filter = false
  | ParsedTime _ h m => field_ok 23 h = true /\ field_ok 59 m = true
  end.
Proof.
  unfold parse_time. destruct (exec gm scheduleRegex (trim time) 0) as [m|] eqn:E.
  - intros [<-|[]]. split.
    + apply (group_field _ _ 1 23 hour_pat E eq_refl), hour_value.
    + apply (group_field _ _ 2 59 minute_pat E eq_refl), minute_value.
  - destruct filter; [intros []|intros [<-|[]]; auto].
Qed.

Lemma in_parse_times (filter : bool) (l : list jsstr) (it : sched_item) :
  In it (parse_times filter l) <-> exists time, In time l /\ time <> [] /\ In it (parse_time filter time).
Proof.
  induction l as [|[|c s] l IH]; simpl; [firstorder| |rewrite in_app_iff]; rewrite IH.
  - split; [intros (t & ? & ? & ?); exists t; auto|].
    intros (t & [<-|?] & ? & ?); [congruence|eauto].
  - split.
    + intros [Hi|(t & ? & ? & ?)]; [exists (c :: s); repeat split; auto; discriminate|eauto].
    + intros (t & [<-|?] & ? & ?); [left|right; exists t]; auto.
Qed.

Lemma parse_time_filter (time : jsstr) :
  parse_time true time = filter is_parsed (parse_time false time).
Proof. unfold parse_time. now destruct (exec gm scheduleRegex (trim time) 0). Qed.

Lemma parse_time_one (time : jsstr) : length (parse_time false time) = 1.
Proof. unfold parse_time. now destruct (exec gm scheduleRegex (trim time) 0). Qed.

(** ** Every well-formed time reads back *)

Definition parsed_text (h m : N) : sched_item :=
  ParsedTime (time_text h m) (Num (Z.of_N h)) (Num (Z.of_N m)).

Definition time_reads_back (filter : bool) (h m : N) : bool :=
  if list_eq_dec sched_item_eq_dec (parse_time filter (time_text h m)) [parsed_text h m]
  then true else false.

(** The 1440 times of day, checked by evaluation. *)
Lemma all_times_read_back :
  forallb (fun h => forallb (fun m => time_reads_back true h m && time_reads_back false h m)
                            (N_upto 60)) (N_upto 24) = true.
Proof. vm_compute. reflexivity. Qed.

Lemma parse_time_text (filter : bool) (h m : N) :
  (h < 24)%N -> (m < 60)%N -> parse_time filter (time_text h m) = [parsed_text h m].
Proof.
  intros Hh Hm. pose proof (forall_upto2 24 60 _ h m all_times_read_back Hh Hm) as A.
  apply andb_true_iff in A. unfold time_reads_back in A.
  destruct filter; [destruct A as [A _]|destruct A as [_ A]];
    destruct (list_eq_dec _ _ _); congruence.
Qed.

Lemma comma_not_in_time (h m : N) : ~ In 44%N (time_text h m).
Proof.
  unfold time_text, pad2. cbn [In app]. intros H. repeat destruct H as [H|H]; try lia;
    revert H; match goal with |- (48 + ?x)%N = _ -> _ => generalize x end; intros; lia.
Qed.

Lemma parse_times_app (filter : bool) (l1 l2 : list jsstr) :
  parse_times filter (l1 ++ l2) = parse_times filter l1 ++ parse_times filter l2.
Proof.
  induction l1 as [|[|c s] l1 IH]; simpl; [reflexivity|exact IH|].
  now rewrite IH, app_assoc.
Qed.

(** A non-empty entry of blanks passes the length test of line 70, trims
    to the empty string and is matched by the [^$] alternative, whose
    groups do not take part: [parseInt(undefined)] is [NaN]. *)
Lemma parse_time_blank (filter : bool) (time : jsstr) :
  forallb is_space time = true -> parse_time filter time = [ParsedTime [] NaN NaN].
Proof. intros H. unfold parse_time. rewrite (trim_blank time H). reflexivity. Qed.

(** C22: wherever it stands in the schedule, string or array, a
    non-empty entry made only of blanks yields a time with an empty
    [string] and [NaN] hour and minute, and [filter] does not remove it;
    the entries around it are parsed as if it were absent. *)
Theorem parseSchedule_blank_entry (schedule : schedule_arg) (filter : bool)
    (pre post : list jsstr) (b : jsstr) :
  times_of schedule = pre ++ b :: post -> b <> [] -> forallb is_space b = true ->
  parseSchedule schedule filter
  = parseSchedule (SchedArray pre) filter ++ ParsedTime [] NaN NaN
      :: parseSchedule (SchedArray post) filter.
Proof.
  intros Ht Hb Hs. unfold parseSchedule. rewrite Ht, parse_times_app. cbn [times_of].
  destruct b as [|c b']; [congruence|]. cbn [parse_times].
  now rewrite parse_time_blank.
Qed.

(** C19: every parsed time has an hour that is [NaN] or in [0 .. 23] and a
    minute that is [NaN] or in [0 .. 59], whatever the schedule. *)
Theorem parseSchedule_fields_bounded (schedule : schedule_arg) (filter : bool)
        (s : jsstr) (h m : jsnum) :
  In (ParsedTime s h m) (parseSchedule schedule filter) ->
  field_ok 23 h = true /\ field_ok 59 m = true.
Proof.
  unfold parseSchedule. rewrite in_parse_times. intros (t & _ & _ & Hi).
  exact (parse_time_items _ _ _ Hi).
Qed.

(** C20: a schedule printed as comma-separated [HH:MM] times of day reads
    back as those times, in order, whatever [filter] is. *)
Theorem parseSchedule_roundtrip (times : list (N * N)) (filter : bool) :
  times <> [] -> Forall (fun '(h, m) => (h < 24)%N /\ (m < 60)%N) times ->
  parseSchedule (SchedString (join [44%N] (map (fun '(h, m) => time_text h m) times))) filter
  = map (fun '(h, m) => parsed_text h m) times.
Proof.
  intros Hne Hall. unfold parseSchedule, times_of. rewrite split_join.
  - clear Hne. induction Hall as [|[h m] times [Hh Hm] _ IH]; [reflexivity|].
    cbn [map]. match goal with |- parse_times _ (_ :: ?rest) = _ =>
      transitivity (parse_time filter (time_text h m) ++ parse_times filter rest); [reflexivity|] end.
    rewrite parse_time_text, IH by assumption. reflexivity.
  - destruct times; [congruence|discriminate].
  - apply Forall_map. eapply Forall_impl; [|exact Hall]. intros [h m] _. apply comma_not_in_time.
Qed.

(** C21: with [filter] true the result is the result with [filter] false
    without the entries kept as raw strings. *)
Theorem parseSchedule_filter (schedule : schedule_arg) :
  parseSchedule schedule true = filter is_parsed (parseSchedule schedule false).
Proof.
  unfold parseSchedule. induction (times_of schedule) as [|[|c s] l IH]; simpl; auto.
  now rewrite filter_app, IH, parse_time_filter.
Qed.

(** C23: A raw string in the result is a non-empty entry of the schedule,
    and appears only when [filter] is false. *)
Theorem parseSchedule_raw_entries (schedule : schedule_arg) (filter : bool) (x : jsstr) :
  In (RawTime x) (parseSchedule schedule filter) ->
  filter = false /\ In x (times_of schedule) /\ x <> [].
Proof.
  unfold parseSchedule. rewrite in_parse_times. intros (t & Ht & Hne & Hi).
  destruct (parse_time_items _ _ _ Hi) as [-> ->]. auto.
Qed.

(** C24: With [filter] false each non-empty entry gives exactly one item. *)
Theorem parseSchedule_length (schedule : schedule_arg) :
  length (parseSchedule schedule false) = length (List.filter nonempty (times_of schedule)).
Proof.
  unfold parseSchedule. induction (times_of schedule) as [|[|c s] l IH]; simpl; auto.
  now rewrite length_app, parse_time_one, IH.
Qed.
