(* ===== verification/CfgFiles.v ===== *)
(** * Locating and reading [server.cfg] (helpers.js lines 95-128, 237-255)

    [getCFGFileData] checks a path with [path.isAbsolute], [fs.existsSync]
    and [fs.lstatSync(p).isFile()] and reads it with [fs.readFileSync];
    [resolveCFGFilePath] makes a path absolute with [path.resolve];
    [findLikelyCFGPath] tries six names under the server data folder and
    returns the first one [getCFGFileData] accepts, or [false].

    The file system is the interface [FileSystem]: the calls the code makes
    and the working directory of the process, with the laws [FileSystemLaws]
    that every real file system satisfies.  The functions and their theorems
    are written against the interface; [Disk] is a concrete file system of
    files, directories and symbolic links that implements it and discharges
    the laws. *)

From Stdlib Require Import List Arith NArith Lia Bool.
From S2P Require Import Prelude JsText NodePath.
Import ListNotations.
Open Scope js_scope.

(** ** The interface *)

(** The [code] of the errors [fs] throws. *)
Inductive fs_error := ENOENT | EACCES | EISDIR | ELOOP.

Class FileSystem (S : Type) := {
  existsSync : S -> jsstr -> bool;                   (** [fs.existsSync(p)] *)
  lstatIsFile : S -> jsstr -> result bool fs_error;  (** [fs.lstatSync(p).isFile()] *)
  readFileSync : S -> jsstr -> result jsstr fs_error; (** [fs.readFileSync(p).toString()] *)
  cwd : S -> jsstr                                   (** [process.cwd()] *)
}.

Class FileSystemLaws (S : Type) `{FileSystem S} := {
  (** A path that exists can be [lstat]ed. *)
  lstat_of_exists : forall s p, existsSync s p = true -> exists b, lstatIsFile s p = Ok b;
  (** The working directory of a process is absolute. *)
  cwd_absolute : forall s, Path.isAbsolute (cwd s) = true
}.

(** ** The functions *)

(** The three [Error]s of [getCFGFileData], and the error of [lstatSync]
    which the function lets through. *)
Inductive cfg_error :=
| CfgNotAbsolute                  (** line 98 *)
| CfgNotFound                     (** line 103 *)
| CfgNotAFile                     (** line 108 *)
| CfgCannotRead                   (** line 115 *)
| CfgFsError (e : fs_error).      (** uncaught, from [lstatSync] *)

Definition cfg_message (e : cfg_error) : option jsstr :=
  match e with
  | CfgNotAbsolute => Some (js "File path must be absolute.")
  | CfgNotFound => Some (js "File doesn't exist or its unreadable.")
  | CfgNotAFile => Some (js "File doesn't exist or its unreadable. Make sure to include the CFG file in the path, and not just the directory that contains it.")
  | CfgCannotRead => Some (js "Cannot read CFG file.")
  | CfgFsError _ => None
  end.

Section Client.
Context {S : Type} `{FileSystem S}.

(** [getCFGFileData(cfgPath)] (lines 95-117). *)
Definition getCFGFileData (s : S) (cfgPath : jsstr) : result jsstr cfg_error :=
  throw_if (negb (Path.isAbsolute cfgPath)) CfgNotAbsolute ;;;
  throw_if (negb (existsSync s cfgPath)) CfgNotFound ;;;
  isFile <- map_err CfgFsError (lstatIsFile s cfgPath) ;;
  throw_if (negb isFile) CfgNotAFile ;;;
  match readFileSync s cfgPath with
  | Ok data => Ok data
  | Err _ => Err CfgCannotRead
  end.

(** [resolveCFGFilePath(cfgPath, serverDataPath)] (lines 126-128). *)
Definition resolveCFGFilePath (s : S) (cfgPath serverDataPath : jsstr) : jsstr :=
  if Path.isAbsolute cfgPath then cfgPath else Path.resolve (cwd s) [serverDataPath; cfgPath].

(** The array [attempts] (lines 238-245). *)
Definition attempts : list jsstr :=
  [js "server.cfg"; js "server.cfg.txt"; js "server.cfg.cfg"; js "server.txt"; js "server";
   js "../server.cfg"].

(** The [for] loop of lines 247-253: the first candidate whose
    [getCFGFileData] does not throw. *)
Fixpoint try_attempts (s : S) (serverDataPath : jsstr) (l : list jsstr) : option jsstr :=
  match l with
  | [] => None
  | a :: l' =>
      let cfgPath := Path.join2 serverDataPath a in
      match getCFGFileData s cfgPath with
      | Ok _ => Some cfgPath
      | Err _ => try_attempts s serverDataPath l'
      end
  end.

(** [findLikelyCFGPath(serverDataPath)] (lines 237-255); [None] is [false]. *)
Definition findLikelyCFGPath (s : S) (serverDataPath : jsstr) : option jsstr :=
  try_attempts s serverDataPath attempts.

End Client.


(** ** Properties against the interface *)

Section ClientFacts.
Context {S : Type} `{FileSystem S}.

(** What [getCFGFileData] requires of a path: absolute, existing, a
    regular file by [lstat], and readable. *)
Definition readable_cfg (s : S) (p : jsstr) : Prop :=
  Path.isAbsolute p = true /\ existsSync s p = true /\ lstatIsFile s p = Ok true
  /\ exists data, readFileSync s p = Ok data.

(** The error [getCFGFileData] throws, by the first check that fails. *)
Definition cfg_failure (s : S) (p : jsstr) (e : cfg_error) : Prop :=
  match e with
  | CfgNotAbsolute => Path.isAbsolute p = false
  | CfgNotFound => Path.isAbsolute p = true /\ existsSync s p = false
  | CfgFsError fe => Path.isAbsolute p = true /\ existsSync s p = true /\ lstatIsFile s p = Err fe
  | CfgNotAFile => Path.isAbsolute p = true /\ existsSync s p = true /\ lstatIsFile s p = Ok false
  | CfgCannotRead => Path.isAbsolute p = true /\ existsSync s p = true /\ lstatIsFile s p = Ok true
                     /\ exists fe, readFileSync s p = Err fe
  end.

(** C25: [getCFGFileData] returns the contents exactly when the path is
    absolute, exists, is a regular file by [lstat] and reads. *)
Theorem getCFGFileData_ok_iff (s : S) (p data : jsstr) :
  getCFGFileData s p = Ok data <->
  Path.isAbsolute p = true /\ existsSync s p = true /\ lstatIsFile s p = Ok true
  /\ readFileSync s p = Ok data.
Proof.
  unfold getCFGFileData.
  destruct (Path.isAbsolute p), (existsSync s p), (lstatIsFile s p) as [[|]|], (readFileSync s p);
    simpl; intuition congruence.
Qed.

(** C26: [getCFGFileData] throws [e] exactly when [e] is the error of the
    first check that fails. *)
Theorem getCFGFileData_err_iff (s : S) (p : jsstr) (e : cfg_error) :
  getCFGFileData s p = Err e <-> cfg_failure s p e.
Proof.
  unfold getCFGFileData.
  destruct e; simpl;
    destruct (Path.isAbsolute p), (existsSync s p), (lstatIsFile s p) as [[|]|], (readFileSync s p);
    simpl; split; intros Hx; repeat match goal with H : _ /\ _ |- _ => destruct H end;
    try solve [congruence | repeat split; eauto | exfalso; firstorder congruence | inv Hx; auto].
Qed.

Lemma readable_cfg_iff (s : S) (p : jsstr) :
  readable_cfg s p <-> exists data, getCFGFileData s p = Ok data.
Proof.
  unfold readable_cfg, getCFGFileData. split.
  - intros (A & B & C & d & D). exists d. now rewrite A, B, C, D.
  - intros (d & G). destruct (Path.isAbsolute p); simpl in G; [|discriminate].
    destruct (existsSync s p); simpl in G; [|discriminate].
    destruct (lstatIsFile s p) as [[|]|]; simpl in G; try discriminate.
    destruct (readFileSync s p) eqn:D; inv G. eauto 7.
Qed.

Lemma try_attempts_some (s : S) (dir : jsstr) (l : list jsstr) (p : jsstr) :
  try_attempts s dir l = Some p <->
  exists pre a post, l = pre ++ a :: post /\ p = Path.join2 dir a /\ readable_cfg s p
    /\ Forall (fun a' => ~ readable_cfg s (Path.join2 dir a')) pre.
Proof.
  induction l as [|a l IH]; simpl.
  - split; [discriminate|]. intros (pre & a & post & E & _). destruct pre; discriminate.
  - destruct (getCFGFileData s (Path.join2 dir a)) as [d|e] eqn:G; [split|rewrite IH; split].
    + intros H'. inv H'. exists [], a, l.
      split; [reflexivity|split; [reflexivity|split; [apply readable_cfg_iff; eauto|constructor]]].
    + intros (pre & a' & post & E & -> & Hr & Hpre). destruct pre as [|x pre]; inv E; [reflexivity|].
      inv Hpre. exfalso. apply H2, readable_cfg_iff. eauto.
    + intros (pre & a' & post & -> & -> & Hr & Hpre). exists (a :: pre), a', post.
      split; [reflexivity|split; [reflexivity|split; [exact Hr|constructor; [|exact Hpre]]]].
      intros Hr'. apply readable_cfg_iff in Hr' as [d' G']. congruence.
    + intros (pre & a' & post & E & -> & Hr & Hpre). destruct pre as [|x pre]; inv E.
      * apply readable_cfg_iff in Hr as [d' G']. congruence.
      * inv Hpre. exists pre, a', post. auto.
Qed.

Lemma try_attempts_none (s : S) (dir : jsstr) (l : list jsstr) :
  try_attempts s dir l = None <-> Forall (fun a => ~ readable_cfg s (Path.join2 dir a)) l.
Proof.
  induction l as [|a l IH]; simpl; [split; auto|].
  destruct (getCFGFileData s (Path.join2 dir a)) as [d|e] eqn:G.
  - split; [discriminate|]. intros Hf. inv Hf. exfalso. apply H2, readable_cfg_iff. eauto.
  - rewrite IH. split; [intros Hf; constructor; auto|intros Hf; inv Hf; auto].
    intros Hr. apply readable_cfg_iff in Hr as [d' G']. congruence.
Qed.

(** C29: [findLikelyCFGPath] returns [p] exactly when [p] is the path of
    the first candidate name, in the order of [attempts], that is an
    absolute, existing, regular and readable file. *)
Theorem findLikelyCFGPath_some (s : S) (dir p : jsstr) :
  findLikelyCFGPath s dir = Some p <->
  exists pre a post, attempts = pre ++ a :: post /\ p = Path.join2 dir a /\ readable_cfg s p
    /\ Forall (fun a' => ~ readable_cfg s (Path.join2 dir a')) pre.
Proof. apply try_attempts_some. Qed.

(** C30: [findLikelyCFGPath] returns [false] exactly when no candidate is
    a readable regular file. *)
Theorem findLikelyCFGPath_none (s : S) (dir : jsstr) :
  findLikelyCFGPath s dir = None <-> Forall (fun a => ~ readable_cfg s (Path.join2 dir a)) attempts.
Proof. apply try_attempts_none. Qed.

(** C35: a relative server data folder never finds a file: every candidate
    is then a relative path, which [getCFGFileData] refuses. *)
Theorem findLikelyCFGPath_relative (s : S) (dir : jsstr) :
  Path.isAbsolute dir = false -> findLikelyCFGPath s dir = None.
Proof.
  intros Hd. apply try_attempts_none.
  assert (Hrel : Forall (fun a => Path.isAbsolute a = false /\ nonempty a = true) attempts)
    by (repeat constructor).
  eapply Forall_impl; [|exact Hrel]. intros a [Ha Hn] [Habs _].
  rewrite Path.join2_absolute, Hd, Ha, andb_false_r in Habs. discriminate.
Qed.

Section WithLaws.
Context `{!FileSystemLaws S}.

(** C27: on a file system that obeys the laws, every error
    [getCFGFileData] throws is one of its own four, with its message: the
    [lstatSync] error it does not catch cannot happen after [existsSync]. *)
Theorem getCFGFileData_messages (s : S) (p : jsstr) (e : cfg_error) :
  getCFGFileData s p = Err e -> exists msg, cfg_message e = Some msg.
Proof.
  unfold getCFGFileData. destruct (Path.isAbsolute p); simpl; [|intros H'; inv H'; eexists; reflexivity].
  destruct (existsSync s p) eqn:Ex; simpl; [|intros H'; inv H'; eexists; reflexivity].
  destruct (lstat_of_exists s p Ex) as [b ->]. simpl.
  destruct b; simpl; [|intros H'; inv H'; eexists; reflexivity].
  destruct (readFileSync s p); intros H'; inv H'. eexists. reflexivity.
Qed.

(** C28: [resolveCFGFilePath] always returns an absolute path, and a path it
    returned is returned unchanged. *)
Theorem resolveCFGFilePath_absolute (s : S) (cfgPath serverDataPath serverDataPath' : jsstr) :
  let r := resolveCFGFilePath s cfgPath serverDataPath in
  Path.isAbsolute r = true /\ resolveCFGFilePath s r serverDataPath' = r.
Proof.
  cbv zeta. assert (Ha : Path.isAbsolute (resolveCFGFilePath s cfgPath serverDataPath) = true).
  { unfold resolveCFGFilePath. destruct (Path.isAbsolute cfgPath) eqn:E; [exact E|].
    apply Path.resolve_absolute, cwd_absolute. }
  split; [exact Ha|]. unfold resolveCFGFilePath at 1. now rewrite Ha.
Qed.

End WithLaws.

End ClientFacts.

(** ** A concrete file system *)

Module Disk.

(** What a path names; a file may be unreadable ([None]). *)
Inductive node :=
| NFile (contents : option jsstr)
| NDir
| NSymlink (target : jsstr).

(** The nodes by absolute normalised path, and the working directory. *)
Record disk := Disk {
  disk_cwd : jsstr;
  disk_nodes : list (jsstr * node);
  disk_cwd_abs : Path.isAbsolute disk_cwd = true
}.

(** The kernel resolves a path against the working directory; the empty
    path names nothing. *)
Definition key (d : disk) (p : jsstr) : option jsstr :=
  match p with
  | [] => None
  | _ :: _ => Some (Path.resolve (disk_cwd d) [p])
  end.

Definition lookup (d : disk) (k : jsstr) : option node :=
  match find (fun '(k', _) => str_eqb k k') (disk_nodes d) with
  | Some (_, n) => Some n
  | None => None
  end.

(** The number of links the kernel follows before [ELOOP] (Linux's
    [MAXSYMLINKS]). *)
Definition max_symlinks : nat := 40.

(** [stat]: follow symbolic links, a relative target being taken from the
    link's directory. *)
Fixpoint follow (d : disk) (fuel : nat) (k : jsstr) : result node fs_error :=
  match lookup d k with
  | None => Err ENOENT
  | Some (NSymlink t) =>
      match fuel with
      | O => Err ELOOP
      | S fuel' => follow d fuel' (Path.resolve (disk_cwd d) [k; Path.dotdot; t])
      end
  | Some n => Ok n
  end.

Definition stat (d : disk) (p : jsstr) : result node fs_error :=
  match key d p with
  | None => Err ENOENT
  | Some k => follow d max_symlinks k
  end.

Definition disk_existsSync (d : disk) (p : jsstr) : bool :=
  match stat d p with Ok _ => true | Err _ => false end.

(** [lstat] does not follow a link: a link is not a file. *)
Definition disk_lstatIsFile (d : disk) (p : jsstr) : result bool fs_error :=
  match option_map (lookup d) (key d p) with
  | Some (Some (NFile _)) => Ok true
  | Some (Some _) => Ok false
  | _ => Err ENOENT
  end.

Definition disk_readFileSync (d : disk) (p : jsstr) : result jsstr fs_error :=
  match stat d p with
  | Ok (NFile (Some c)) => Ok c
  | Ok (NFile None) => Err EACCES
  | Ok NDir => Err EISDIR
  | Ok (NSymlink _) => Err ELOOP
  | Err e => Err e
  end.

#[global] Instance disk_fs : FileSystem disk := {
  existsSync := disk_existsSync;
  lstatIsFile := disk_lstatIsFile;
  readFileSync := disk_readFileSync;
  cwd := disk_cwd
}.

Lemma follow_found (d : disk) (fuel : nat) (k : jsstr) (n : node) :
  follow d fuel k = Ok n -> exists n', lookup d k = Some n'.
Proof. destruct fuel; simpl; destruct (lookup d k) as [n'|]; eauto; discriminate. Qed.

#[global] Instance disk_laws : FileSystemLaws disk.
Proof.
  split.
  - intros d p. cbn. unfold disk_existsSync, disk_lstatIsFile, stat.
    destruct (key d p) as [k|]; [|discriminate]. cbn [option_map].
    destruct (follow d max_symlinks k) as [n|] eqn:E; [|discriminate]. intros _.
    destruct (follow_found _ _ _ _ E) as [n' ->]. destruct n'; eauto.
  - exact disk_cwd_abs.
Qed.

(** C36: [lstatSync] does not follow links, so a [server.cfg] that is a
    symbolic link is refused, with the message that the file does not
    exist, even when the link leads to a readable regular file. *)
Theorem symlink_cfg_rejected (d : disk) (p k t : jsstr) :
  Path.isAbsolute p = true -> key d p = Some k -> lookup d k = Some (NSymlink t) ->
  getCFGFileData d p = Err (if disk_existsSync d p then CfgNotAFile else CfgNotFound).
Proof.
  intros Ha Hk Hl. unfold getCFGFileData. cbn [existsSync lstatIsFile readFileSync disk_fs].
  rewrite Ha. simpl. destruct (disk_existsSync d p); simpl; [|reflexivity].
  unfold disk_lstatIsFile. rewrite Hk. cbn [option_map]. rewrite Hl. reflexivity.
Qed.

End Disk.
