(* ===== verification/DepCheck.v ===== *)
(** * [dependencyChecker] (helpers.js lines 28-57)

    At start-up txAdmin reads its [package.json], takes the keys of its
    [dependencies] object, and stops the process when one of them cannot be
    resolved by [require.resolve], or when the file cannot be read or
    parsed.  The process environment (the [APP_ENV] variable, the resource
    folder given by FiveM's [GetResourcePath], the file system, [JSON.parse]
    and the module resolver) is the record [env]; the function returns what
    it prints with [console.log] and whether it calls [process.exit()].

    [Object.keys] is written after ECMA-262 (OrdinaryOwnPropertyKeys): the
    keys of an object parsed by [JSON.parse] appear once each, the integer
    indices first in ascending order, then the other keys in the order of
    their first occurrence. *)

From Stdlib Require Import List Arith NArith ZArith Lia Bool Permutation.
From S2P Require Import Prelude JsText.
Import ListNotations.
Open Scope js_scope.

(** ** JSON values and the property reads of lines 35-36 *)

Local Set Warnings "-register-all".

Inductive json :=
| JNull
| JBool (b : bool)
| JNumber (z : Z)
| JString (s : jsstr)
| JArray (items : list json)
| JObject (members : list (jsstr * json)).

(** A JavaScript value that may be [undefined]. *)
Inductive jsval :=
| VUndefined
| VJson (j : json).

(** [parsedFile.dependencies]: [JSON.parse] keeps the last of duplicate
    members; reading a property of [null] throws a [TypeError]; other
    primitives and arrays have no such property. *)
Definition get_dependencies (parsedFile : json) : result jsval jsstr :=
  match parsedFile with
  | JNull => Err (js "Cannot read properties of null (reading 'dependencies')")
  | JObject ms =>
      Ok (match find (fun '(k, _) => str_eqb k (js "dependencies")) (rev ms) with
          | Some (_, v) => VJson v
          | None => VUndefined
          end)
  | _ => Ok VUndefined
  end.

(** An array index: the canonical decimal form of an integer below
    [2^32 - 1]. *)
Definition array_index (k : jsstr) : option N :=
  match k with
  | [] => None
  | c :: rest =>
      if forallb is_digit k && (negb (N.eqb c 48) || match rest with [] => true | _ => false end)
      then let v := fold_left dec_step k 0%N in
           if N.ltb v 4294967295 then Some v else None
      else None
  end.

Definition is_index (k : jsstr) : bool :=
  match array_index k with Some _ => true | None => false end.

Definition index_value (k : jsstr) : N :=
  match array_index k with Some v => v | None => 0%N end.

(** The first occurrence of each key, in order. *)
Fixpoint dedup_keys (seen : list jsstr) (ks : list jsstr) : list jsstr :=
  match ks with
  | [] => []
  | k :: ks' =>
      if existsb (str_eqb k) seen then dedup_keys seen ks'
      else k :: dedup_keys (k :: seen) ks'
  end.

Fixpoint insert_index (k : jsstr) (l : list jsstr) : list jsstr :=
  match l with
  | [] => [k]
  | k' :: l' => if N.leb (index_value k) (index_value k') then k :: l else k' :: insert_index k l'
  end.

(** OrdinaryOwnPropertyKeys: indices ascending, then the other keys in
    creation order. *)
Definition own_keys (ks : list jsstr) : list jsstr :=
  fold_right insert_index [] (filter is_index ks) ++ filter (fun k => negb (is_index k)) ks.

(** [ToString] of the indices [0 .. n-1]. *)
Definition index_keys (n : nat) : list jsstr := map (fun i => Z_to_js (Z.of_nat i)) (seq 0 n).

(** [Object.keys(v)] *)
Definition object_keys (v : jsval) : result (list jsstr) jsstr :=
  match v with
  | VUndefined | VJson JNull => Err (js "Cannot convert undefined or null to object")
  | VJson (JObject ms) => Ok (own_keys (dedup_keys [] (map fst ms)))
  | VJson (JArray items) => Ok (index_keys (length items))
  | VJson (JString s) => Ok (index_keys (length s))
  | VJson _ => Ok []
  end.

(** ** The environment and the function *)

Record env := Env {
  app_env : option jsstr;                     (** [process.env.APP_ENV] *)
  resource_path : jsstr;                      (** [GetResourcePath(GetCurrentResourceName())] *)
  read_file : jsstr -> result jsstr jsstr;    (** [fs.readFileSync], or the error's message *)
  json_parse : jsstr -> result json jsstr;    (** [JSON.parse], or the error's message *)
  resolves : jsstr -> bool                    (** [require.resolve] does not throw *)
}.

(** What the function prints and whether it ends the process. *)
Record outcome := Outcome { logs : list jsstr; exited : bool }.

Definition is_webpack (e : env) : bool :=
  match app_env e with Some v => str_eqb v (js "webpack") | None => false end.

(** Lines 34-36, each of which may throw into the [catch] of line 53. *)
Definition read_packages (e : env) : result (list jsstr) jsstr :=
  rawFile <- read_file e (resource_path e ++ js "/package.json") ;;
  parsedFile <- json_parse e rawFile ;;
  deps <- get_dependencies parsedFile ;;
  object_keys deps.

(** Lines 37-44: the packages whose resolution throws, in order. *)
Definition missing_packages (e : env) (packages : list jsstr) : list jsstr :=
  filter (fun p => negb (resolves e p)) packages.

Definition missing_report (missing : list jsstr) : list jsstr :=
  [js "[txAdmin:PreCheck] Cannot start txAdmin due to missing dependencies.";
   js "[txAdmin:PreCheck] Make sure you executed 'npm i'.";
   js "[txAdmin:PreCheck] The following packages are missing: " ++ join (js ", ") missing;
   [];
   js "[txAdmin:PreCheck] GO THE THE GITHUB RELEASES PAGE AND DOWNLOAD THE COMPILED ZIP FILE INSTEAD OF THE SOURCE"].

(** [dependencyChecker()] (lines 28-57). *)
Definition dependencyChecker (e : env) : outcome :=
  if is_webpack e then Outcome [] false
  else match read_packages e with
       | Err msg =>
           Outcome [js "[txAdmin:PreCheck] Error reading or parsing package.json: " ++ msg] true
       | Ok packages =>
           match missing_packages e packages with
           | [] => Outcome [] false
           | missing => Outcome (missing_report missing) true
           end
       end.

(** ** Keys *)

Lemma dedup_keys_spec (seen ks : list jsstr) :
  NoDup (dedup_keys seen ks)
  /\ forall k, In k (dedup_keys seen ks) <-> In k ks /\ ~ In k seen.
Proof.
  revert seen. induction ks as [|k ks IH]; intros seen; simpl.
  - split; [constructor|intros x; tauto].
  - destruct (existsb (str_eqb k) seen) eqn:E.
    + destruct (IH seen) as [Hn Hi]. split; [exact Hn|]. intros x. rewrite Hi.
      apply existsb_exists in E as (y & Hy & Hk). apply str_eqb_eq in Hk. subst y.
      split; [tauto|]. intros [[<-|H] Hs]; [contradiction|auto].
    + destruct (IH (k :: seen)) as [Hn Hi]. split.
      * constructor; [|exact Hn]. rewrite Hi. intros [_ H]. apply H. left. reflexivity.
      * intros x. simpl. rewrite Hi. assert (~ In k seen).
        { intros Hin. rewrite existsb_false_forall, Forall_forall in E.
          specialize (E k Hin). rewrite str_eqb_refl in E. discriminate. }
        split; [intros [<-|[H1 H2]]; split; auto; intros Hs; apply H2; right; exact Hs|].
        intros [[<-|H1] H2]; [auto|]. destruct (list_eq_dec N.eq_dec k x) as [->|Hne]; [auto|].
        right. split; [auto|]. intros [->|H3]; [congruence|contradiction].
Qed.

Lemma insert_index_perm (k : jsstr) (l : list jsstr) : Permutation (insert_index k l) (k :: l).
Proof.
  induction l as [|k' l IH]; simpl; [reflexivity|].
  destruct (N.leb _ _); [reflexivity|]. rewrite IH. apply perm_swap.
Qed.

Lemma filter_partition_perm {A} (f : A -> bool) (l : list A) :
  Permutation l (filter f l ++ filter (fun x => negb (f x)) l).
Proof.
  induction l as [|x l IH]; simpl; [reflexivity|].
  destruct (f x); simpl; [now constructor|]. rewrite IH at 1. apply Permutation_middle.
Qed.

(** Sorting the indices to the front reorders the keys. *)
Lemma own_keys_perm (ks : list jsstr) : Permutation (own_keys ks) ks.
Proof.
  unfold own_keys. rewrite (filter_partition_perm is_index ks) at 3.
  apply Permutation_app_tail. induction (filter is_index ks) as [|k l IH]; simpl; [reflexivity|].
  rewrite insert_index_perm. now constructor.
Qed.

Lemma NoDup_map_inj {A B} (f : A -> B) (l : list A) :
  (forall x y, f x = f y -> x = y) -> NoDup l -> NoDup (map f l).
Proof.
  intros Hf. induction 1 as [|x l Hx _ IH]; simpl; constructor; auto.
  intros Hin. apply in_map_iff in Hin as (y & Hy & Hin). apply Hf in Hy. subst. contradiction.
Qed.

Lemma index_keys_nodup (n : nat) : NoDup (index_keys n).
Proof.
  apply NoDup_map_inj; [|apply seq_NoDup]. intros i j H.
  apply (f_equal (fun s => fold_left dec_step s 0%N)) in H.
  rewrite <- (nat_N_Z i), <- (nat_N_Z j) in H.
  rewrite !Z_to_js_of_N_value in H. lia.
Qed.

(** [Object.keys] never lists a key twice. *)
Lemma object_keys_nodup (v : jsval) (ks : list jsstr) : object_keys v = Ok ks -> NoDup ks.
Proof.
  destruct v as [|[| | | | |ms]]; simpl; intros H; inv H; try constructor; try apply index_keys_nodup.
  eapply Permutation_NoDup; [symmetry; apply own_keys_perm|apply dedup_keys_spec].
Qed.

Lemma read_packages_nodup (e : env) (ps : list jsstr) : read_packages e = Ok ps -> NoDup ps.
Proof.
  unfold read_packages. destruct (read_file e _); simpl; [|discriminate].
  destruct (json_parse e _); simpl; [|discriminate].
  destruct (get_dependencies _); simpl; [|discriminate]. apply object_keys_nodup.
Qed.

Lemma in_missing (e : env) (ps : list jsstr) (p : jsstr) :
  In p (missing_packages e ps) <-> In p ps /\ resolves e p = false.
Proof. unfold missing_packages. rewrite filter_In, negb_true_iff. reflexivity. Qed.

(** ** Properties *)

(** C32: the checker ends the process exactly when the bundle is not a
    webpack build and either [package.json] cannot be read, parsed or its
    [dependencies] listed, or one of the dependencies does not resolve. *)
Theorem dependencyChecker_exits_iff (e : env) :
  exited (dependencyChecker e) = true <->
  is_webpack e = false
  /\ match read_packages e with
     | Err _ => True
     | Ok ps => exists p, In p ps /\ resolves e p = false
     end.
Proof.
  unfold dependencyChecker. destruct (is_webpack e); simpl.
  { split; [discriminate|intros [H _]; discriminate]. }
  destruct (read_packages e) as [ps|msg]; simpl; [|tauto].
  destruct (missing_packages e ps) as [|q l] eqn:M; simpl.
  - split; [discriminate|intros [_ (p & Hin & Hr)]].
    assert (H : In p (missing_packages e ps)) by (apply in_missing; auto).
    rewrite M in H. destruct H.
  - split; [intros _|auto]. split; [reflexivity|].
    exists q. apply in_missing. rewrite M. left. reflexivity.
Qed.

(** C33: when it stops for missing packages, the checker prints the report
    with the list of the dependencies that do not resolve, each once. *)
Theorem dependencyChecker_report (e : env) (ps : list jsstr) :
  is_webpack e = false -> read_packages e = Ok ps -> exited (dependencyChecker e) = true ->
  exists missing, dependencyChecker e = Outcome (missing_report missing) true
    /\ NoDup missing /\ forall p, In p missing <-> In p ps /\ resolves e p = false.
Proof.
  intros Hw Hr Hx. unfold dependencyChecker in *. rewrite Hw, Hr in *.
  exists (missing_packages e ps). split; [|split].
  - destruct (missing_packages e ps); [discriminate|reflexivity].
  - apply NoDup_filter. exact (read_packages_nodup e ps Hr).
  - intros p. apply in_missing.
Qed.

(** An object without a [dependencies] member reads as [undefined]. *)
Lemma get_dependencies_absent (ms : list (jsstr * json)) :
  (forall v, ~ In (js "dependencies", v) ms) -> get_dependencies (JObject ms) = Ok VUndefined.
Proof.
  intros H. unfold get_dependencies.
  destruct (find _ (rev ms)) as [[k v]|] eqn:F; [|reflexivity].
  apply find_some in F as [Hin Hk]. apply str_eqb_eq in Hk. subst k.
  apply in_rev in Hin. exfalso. exact (H v Hin).
Qed.

(** C34: when [package.json] is read and parses to an object with no
    [dependencies] member, [Object.keys(undefined)] throws a [TypeError]
    that the [catch] of line 53 reports as a read or parse error, and the
    process stops, whatever the rest of the object and the installed
    packages are. *)
Theorem dependencyChecker_no_dependencies (e : env) (raw : jsstr) (ms : list (jsstr * json)) :
  is_webpack e = false -> read_file e (resource_path e ++ js "/package.json") = Ok raw ->
  json_parse e raw = Ok (JObject ms) -> (forall v, ~ In (js "dependencies", v) ms) ->
  dependencyChecker e
  = Outcome [js "[txAdmin:PreCheck] Error reading or parsing package.json: "
             ++ js "Cannot convert undefined or null to object"] true.
Proof.
  intros Hw Hr Hp Hd. unfold dependencyChecker, read_packages. rewrite Hw, Hr. cbn [bind].
  rewrite Hp. cbn [bind]. now rewrite (get_dependencies_absent ms Hd).
Qed.
