(* ===== verification/TxAdminASCII.v ===== *)
(** * [txAdminASCII] (helpers.js lines 10-21)

    The banner is kept as a base64 literal, computed once by the generator
    left in comments (lines 12-15: [figlet.textSync], then
    [Buffer.from(ascii).toString('base64')]).  The function decodes it with
    [Buffer.from(preCalculated, 'base64')] and reads the bytes back with
    [toString('ascii')].  The literal spans four source lines: a line break
    and four spaces of indentation sit inside the base64 text.

    Node's base64 decoder is written after its legacy byte-by-byte loop:
    characters outside the alphabet (white space among them) are skipped,
    ['-'] and ['_'] are read as ['+'] and ['/'], the first ['='] ends the
    input, and a final group of two or three symbols gives one or two bytes.
    The encoder is Node's [toString('base64')] with ['='] padding.
    [toString('ascii')] clears the high bit of every byte.  Bytes are [N]s
    below 256, and the bit operations are those of the C++ code. *)

From Stdlib Require Import List Arith NArith Lia Bool.
From S2P Require Import Prelude JsText.
Import ListNotations.
Open Scope js_scope.
Local Open Scope N_scope.

(** ** [Buffer.from(s, 'base64')] *)

(** The value of a base64 symbol (both alphabets). *)
Definition b64_value (c : char) : option N :=
  if N.leb 65 c && N.leb c 90 then Some (c - 65)
  else if N.leb 97 c && N.leb c 122 then Some (c - 71)
  else if N.leb 48 c && N.leb c 57 then Some (c + 4)
  else if N.eqb c 43 || N.eqb c 45 then Some 62
  else if N.eqb c 47 || N.eqb c 95 then Some 63
  else None.

(** The symbols up to the first ['='], other characters skipped. *)
Fixpoint b64_symbols (s : jsstr) : list N :=
  match s with
  | [] => []
  | c :: s' =>
      if N.eqb c 61 then []
      else match b64_value c with
           | Some v => v :: b64_symbols s'
           | None => b64_symbols s'
           end
  end.

(** A store into a [uint8_t]. *)
Definition byte (x : N) : N := N.land x 255.

Definition dec1 (a b : N) : N := byte (N.lor (N.shiftl a 2) (N.shiftr b 4)).
Definition dec2 (b c : N) : N := byte (N.lor (N.shiftl (N.land b 15) 4) (N.shiftr c 2)).
Definition dec3 (c d : N) : N := byte (N.lor (N.shiftl (N.land c 3) 6) d).

(** Four symbols give three bytes; a last group of two or three symbols
    gives one or two. *)
Fixpoint decode_sextets (vs : list N) : list N :=
  match vs with
  | a :: b :: c :: d :: rest => dec1 a b :: dec2 b c :: dec3 c d :: decode_sextets rest
  | [a; b; c] => [dec1 a b; dec2 b c]
  | [a; b] => [dec1 a b]
  | _ => []
  end.

Definition buffer_from_base64 (s : jsstr) : list N := decode_sextets (b64_symbols s).

(** ** [buf.toString('ascii')] *)

Definition buffer_toString_ascii (bytes : list N) : jsstr := map (fun b => N.land b 127) bytes.

(** ** The function *)

(** The template literal of lines 16-19, line breaks and indentation
    included. *)
Definition preCalculated : jsstr :=
  js "ICBfICAgICAgICAgICAgXyAgICAgICBfICAgICAgICAgICBfICAgICAgIAogfCB8X19fICBfX" ++ nl ++
  js "    yAgIC8gXCAgIF9ffCB8XyBfXyBfX18gKF8pXyBfXyAgCiB8IF9fXCBcLyAvICAvIF8gXCAvIF9gIHwgJ18gYCBfIFx8IHwg" ++ nl ++
  js "    J18gXCAKIHwgfF8gPiAgPCAgLyBfX18gXCAoX3wgfCB8IHwgfCB8IHwgfCB8IHwgfAogIFxfXy9fL1xfXC9fLyAgIFxfXF9" ++ nl ++
  js "    fLF98X3wgfF98IHxffF98X3wgfF98CiAgICAgICAgICAgICAgICAgICAgICAgICAgICAgICAgICAgICAgICAgICA=".

(** [txAdminASCII()] *)
Definition txAdminASCII : jsstr := buffer_toString_ascii (buffer_from_base64 preCalculated).

(** ** [Buffer.from(ascii).toString('base64')], the generator of line 14 *)

Definition b64_char (v : N) : char :=
  if N.ltb v 26 then 65 + v
  else if N.ltb v 52 then 71 + v
  else if N.ltb v 62 then v - 4
  else if N.eqb v 62 then 43
  else 47.

Definition enc1 (b1 : N) : N := N.shiftr b1 2.
Definition enc2 (b1 b2 : N) : N := N.lor (N.shiftl (N.land b1 3) 4) (N.shiftr b2 4).
Definition enc3 (b2 b3 : N) : N := N.lor (N.shiftl (N.land b2 15) 2) (N.shiftr b3 6).
Definition enc4 (b3 : N) : N := N.land b3 63.

Fixpoint buffer_toString_base64 (bytes : list N) : jsstr :=
  match bytes with
  | b1 :: b2 :: b3 :: rest =>
      map b64_char [enc1 b1; enc2 b1 b2; enc3 b2 b3; enc4 b3] ++ buffer_toString_base64 rest
  | [b1; b2] => map b64_char [enc1 b1; enc2 b1 b2; enc3 b2 0] ++ [61]
  | [b1] => map b64_char [enc1 b1; enc2 b1 0] ++ [61; 61]
  | [] => []
  end.

(** ** The codec, one group at a time *)

(** The facts about the bit operations of one group that involve two
    bytes, and those that involve one, checked on every byte value. *)
Definition pair_ok (x y : N) : bool :=
  N.ltb (enc2 x y) 64 && N.ltb (enc3 x y) 64
  && N.eqb (dec1 (enc1 x) (enc2 x y)) x
  && N.eqb (N.land (enc2 x y) 15) (N.shiftr y 4)
  && N.eqb (N.shiftr (enc3 x y) 2) (N.land x 15)
  && N.eqb (N.land (enc3 x y) 3) (N.shiftr y 6).

Definition single_ok (x : N) : bool :=
  N.ltb (enc1 x) 64 && N.ltb (enc4 x) 64
  && N.eqb (byte (N.lor (N.shiftl (N.shiftr x 4) 4) (N.land x 15))) x
  && N.eqb (byte (N.lor (N.shiftl (N.shiftr x 6) 6) (enc4 x))) x.

Definition char_ok (v : N) : bool :=
  match b64_value (b64_char v) with Some w => N.eqb w v | None => false end
  && negb (N.eqb (b64_char v) 61).

Lemma all_pairs_ok : forallb (fun x => forallb (pair_ok x) (N_upto 256)) (N_upto 256) = true.
Proof. vm_compute. reflexivity. Qed.

Lemma all_singles_ok : forallb single_ok (N_upto 256) = true.
Proof. vm_compute. reflexivity. Qed.

Lemma all_chars_ok : forallb char_ok (N_upto 64) = true.
Proof. vm_compute. reflexivity. Qed.

Lemma pair_facts (x y : N) :
  x < 256 -> y < 256 ->
  enc2 x y < 64 /\ enc3 x y < 64 /\ dec1 (enc1 x) (enc2 x y) = x
  /\ N.land (enc2 x y) 15 = N.shiftr y 4 /\ N.shiftr (enc3 x y) 2 = N.land x 15
  /\ N.land (enc3 x y) 3 = N.shiftr y 6.
Proof.
  intros Hx Hy. pose proof (forall_upto2 256 256 pair_ok x y all_pairs_ok Hx Hy) as H.
  unfold pair_ok in H. repeat rewrite andb_true_iff in H.
  destruct H as [[[[[A B] C] D] E] F].
  apply N.ltb_lt in A, B. apply N.eqb_eq in C, D, E, F. auto 7.
Qed.

Lemma single_facts (x : N) :
  x < 256 ->
  enc1 x < 64 /\ enc4 x < 64
  /\ byte (N.lor (N.shiftl (N.shiftr x 4) 4) (N.land x 15)) = x
  /\ byte (N.lor (N.shiftl (N.shiftr x 6) 6) (enc4 x)) = x.
Proof.
  intros Hx. pose proof (forall_upto 256 single_ok x all_singles_ok Hx) as H.
  unfold single_ok in H. repeat rewrite andb_true_iff in H.
  destruct H as [[[A B] C] D]. apply N.ltb_lt in A, B. apply N.eqb_eq in C, D. auto.
Qed.

Lemma b64_char_value (v : N) : v < 64 -> b64_value (b64_char v) = Some v /\ b64_char v <> 61.
Proof.
  intros Hv. pose proof (forall_upto 64 char_ok v all_chars_ok Hv) as H.
  unfold char_ok in H. apply andb_true_iff in H as [A B].
  destruct (b64_value (b64_char v)) as [w|]; [|discriminate]. apply N.eqb_eq in A. subst w.
  apply negb_true_iff, N.eqb_neq in B. auto.
Qed.

(** The symbols of encoded sextets are the sextets. *)
Lemma b64_symbols_chars (vs : list N) (t : jsstr) :
  Forall (fun v => v < 64) vs -> b64_symbols (map b64_char vs ++ t) = vs ++ b64_symbols t.
Proof.
  induction 1 as [|v vs Hv _ IH]; [reflexivity|]. destruct (b64_char_value v Hv) as [A B].
  cbn [map app b64_symbols]. rewrite (proj2 (N.eqb_neq _ _) B), A, IH. reflexivity.
Qed.

(** Decoding the four symbols of three bytes gives the bytes back. *)
Lemma decode_group (b1 b2 b3 : N) :
  b1 < 256 -> b2 < 256 -> b3 < 256 ->
  dec1 (enc1 b1) (enc2 b1 b2) = b1 /\ dec2 (enc2 b1 b2) (enc3 b2 b3) = b2
  /\ dec3 (enc3 b2 b3) (enc4 b3) = b3.
Proof.
  intros H1 H2 H3.
  destruct (pair_facts b1 b2 H1 H2) as (_ & _ & A & B & _).
  destruct (pair_facts b2 b3 H2 H3) as (_ & _ & _ & _ & C & D).
  destruct (single_facts b2 H2) as (_ & _ & E & _). destruct (single_facts b3 H3) as (_ & _ & _ & F).
  unfold dec2, dec3. rewrite B, C, D. auto.
Qed.

Lemma enc1_lt (x : N) : x < 256 -> enc1 x < 64.
Proof. intros H. apply (single_facts x H). Qed.

Lemma enc2_lt (x y : N) : x < 256 -> y < 256 -> enc2 x y < 64.
Proof. intros H1 H2. apply (pair_facts x y H1 H2). Qed.

Lemma enc3_lt (x y : N) : x < 256 -> y < 256 -> enc3 x y < 64.
Proof. intros H1 H2. apply (pair_facts x y H1 H2). Qed.

Lemma enc4_lt (x : N) : x < 256 -> enc4 x < 64.
Proof. intros H. apply (single_facts x H). Qed.

Local Hint Resolve enc1_lt enc2_lt enc3_lt enc4_lt : txadmin.

(** A character that is no base64 symbol and no ['='] is skipped. *)
Lemma b64_symbols_skip (c : char) (s : jsstr) :
  b64_value c = None -> c <> 61 -> b64_symbols (c :: s) = b64_symbols s.
Proof. intros H1 H2. simpl. now rewrite (proj2 (N.eqb_neq _ _) H2), H1. Qed.

Lemma space_not_b64 (c : char) : is_space c = true -> b64_value c = None /\ c <> 61.
Proof.
  unfold is_space, is_whitespace, is_line_terminator. intros H.
  repeat (apply orb_true_iff in H; destruct H as [H|H]);
    try (apply N.eqb_eq in H; subst c; split; [reflexivity|discriminate]).
  nbounds H. unfold b64_value. nbool. split; [reflexivity|lia].
Qed.

(** The decoder reads a string as it reads the string without its white
    space. *)
Lemma b64_symbols_strip (s : jsstr) :
  b64_symbols s = b64_symbols (filter (fun c => negb (is_space c)) s).
Proof.
  induction s as [|c s IH]; [reflexivity|]. cbn [filter].
  destruct (is_space c) eqn:E; simpl negb; cbv iota.
  - destruct (space_not_b64 c E) as [A B]. rewrite b64_symbols_skip by assumption. exact IH.
  - simpl. now rewrite IH.
Qed.

Lemma decode_encode_aux (n : nat) (bytes : list N) :
  (length bytes <= n)%nat -> Forall (fun b => b < 256) bytes ->
  decode_sextets (b64_symbols (buffer_toString_base64 bytes)) = bytes.
Proof.
  revert bytes. induction n as [|n IH]; intros bytes Hl Hb.
  { destruct bytes; [reflexivity|simpl in Hl; lia]. }
  assert (H0 : 0 < 256) by lia.
  destruct bytes as [|b1 [|b2 [|b3 rest]]]; [reflexivity| | |];
    repeat match goal with H : Forall _ (_ :: _) |- _ => apply Forall_cons_iff in H as [? H] end;
    cbn [buffer_toString_base64]; rewrite b64_symbols_chars by (repeat constructor; eauto with txadmin).
  - destruct (decode_group b1 0 0) as (A & _); auto. simpl. now rewrite A.
  - destruct (decode_group b1 b2 0) as (A & B & _); auto. simpl. now rewrite A, B.
  - destruct (decode_group b1 b2 b3) as (A & B & C); auto.
    cbn [app decode_sextets]. rewrite A, B, C, IH; [reflexivity| |assumption]. simpl in Hl. lia.
Qed.

(** ** Properties *)

(** Decoding what [toString('base64')] produced gives the buffer
    back: the precomputation of lines 12-15 loses nothing. *)
Theorem base64_roundtrip (bytes : list N) :
  Forall (fun b => b < 256) bytes -> buffer_from_base64 (buffer_toString_base64 bytes) = bytes.
Proof. intros H. exact (decode_encode_aux (length bytes) bytes (le_n _) H). Qed.

(** [Buffer.from(s, 'base64')] reads [s] as it reads [s] with its
    white space removed, so the line breaks and indentation inside the
    literal of lines 16-19 change nothing. *)
Theorem buffer_from_base64_strip (s : jsstr) :
  buffer_from_base64 s = buffer_from_base64 (filter (fun c => negb (is_space c)) s).
Proof. unfold buffer_from_base64. now rewrite b64_symbols_strip. Qed.

(** [toString('ascii')] gives one 7-bit code unit per byte, whatever
    the buffer holds. *)
Theorem buffer_toString_ascii_7bit (bytes : list N) :
  length (buffer_toString_ascii bytes) = length bytes
  /\ Forall (fun c => c < 128) (buffer_toString_ascii bytes).
Proof.
  unfold buffer_toString_ascii. split; [apply length_map|].
  apply Forall_forall. intros c Hc. apply in_map_iff in Hc as (b & <- & _).
  change 127 with (N.ones 7). rewrite N.land_ones. apply N.mod_lt. discriminate.
Qed.
