(* ===== verification/Helpers.v ===== *)
(** * The module object of [helpers.js] (lines 259-267)

    [module.exports] gathers the seven helpers.  In the model each takes
    explicitly what the JavaScript function reads from its surroundings:
    [GlobalData] for [getFXServerPort], the file system for the three file
    helpers, the process environment for [dependencyChecker]. *)

From Stdlib Require Import List.
From S2P Require Import Prelude JsText FXServerPort Schedule CfgFiles DepCheck TxAdminASCII.
Import ListNotations.
Open Scope js_scope.

(** The shape of [module.exports] over a file system [S]. *)
Record helpers_exports (S : Type) := HelpersExports {
  ex_txAdminASCII : jsstr;
  ex_dependencyChecker : env -> outcome;
  ex_parseSchedule : schedule_arg -> option bool -> list sched_item;
  ex_getCFGFileData : S -> jsstr -> result jsstr cfg_error;
  ex_resolveCFGFilePath : S -> jsstr -> jsstr -> jsstr;
  ex_getFXServerPort : global_data -> jsstr -> result jsnum fx_error;
  ex_findLikelyCFGPath : S -> jsstr -> option jsstr
}.

(** [parseSchedule(schedule, filter = true)]: an omitted [filter] is
    [true] (line 66). *)
Definition parseSchedule_call (schedule : schedule_arg) (filter : option bool) : list sched_item :=
  parseSchedule schedule (match filter with Some b => b | None => true end).

(** [module.exports = { ... }] *)
Definition module_exports {S : Type} `{FileSystem S} : helpers_exports S :=
  {| ex_txAdminASCII := txAdminASCII;
     ex_dependencyChecker := dependencyChecker;
     ex_parseSchedule := parseSchedule_call;
     ex_getCFGFileData := getCFGFileData;
     ex_resolveCFGFilePath := resolveCFGFilePath;
     ex_getFXServerPort := getFXServerPort;
     ex_findLikelyCFGPath := findLikelyCFGPath |}.

(** ** How the exported file helpers fit together *)

Section Composition.
Context {S : Type} `{FileSystem S}.

(** C31: a path [findLikelyCFGPath] returns is one [getCFGFileData] reads,
    and [resolveCFGFilePath] leaves it as it is: a caller can pass the
    found path to either without a new failure. *)
Theorem exports_found_cfg_usable (s : S) (dir p : jsstr) :
  ex_findLikelyCFGPath S module_exports s dir = Some p ->
  (exists raw, ex_getCFGFileData S module_exports s p = Ok raw)
  /\ forall serverDataPath, ex_resolveCFGFilePath S module_exports s p serverDataPath = p.
Proof.
  intros Hf. change (try_attempts s dir attempts = Some p) in Hf.
  change ((exists raw, getCFGFileData s p = Ok raw)
          /\ forall serverDataPath, resolveCFGFilePath s p serverDataPath = p).
  apply try_attempts_some in Hf as (pre & a & post & _ & _ & Hr & _).
  split; [exact (proj1 (readable_cfg_iff s p) Hr)|].
  intros d. unfold resolveCFGFilePath. destruct Hr as [Ha _]. now rewrite Ha.
Qed.

End Composition.
