(* ===== verification/Scenarios.v ===== *)
(** * Concrete configurations

    Configuration files and [GlobalData] values on which the theorems of the
    library are applied, each evaluated by the kernel, and the behaviours of
    [getFXServerPort] that differ from what the spec of the repository
    describes. *)

From Stdlib Require Import List Arith NArith ZArith Lia Bool Sorted Relations.
From S2P Require Import Prelude JsText Regex CfgScan FXServerPort NodePath Schedule CfgFiles.
From S2P Require Import DepCheck TxAdminASCII Helpers.
Import ListNotations.
Open Scope js_scope.

(** ** Inputs *)

(** A file made of the given lines. *)
Definition cfg (ls : list jsstr) : jsstr := join nl ls.

(** What the two scans return (both always succeed). *)
Definition scanned (raw : jsstr) : list endpoint :=
  match extract_endpoints raw with Some l => l | None => [] end.
Definition scanned_mc (raw : jsstr) : list jsnum :=
  match extract_maxclients raw with Some l => l | None => [] end.

Definition no_endpoint : endpoint := Endpoint [] [] [] NaN.

(** No hosting provider. *)
Definition gd_plain : global_data := GlobalData None None None.

(** A provider with a cap of 48 clients, interface 1.2.3.4 and port 30120. *)
Definition gd_zap : global_data :=
  GlobalData (Some (DeployerDefaults (Some 48%Z))) (Some (js "1.2.3.4")) (Some 30120%Z).

(** A provider that forces the interface but leaves the port undefined. *)
Definition gd_zap_noport : global_data := GlobalData None (Some (js "1.2.3.4")) None.

Definition cfg_basic : jsstr :=
  cfg [js "endpoint_add_tcp '0.0.0.0:30120'"; js "endpoint_add_udp '0.0.0.0:30120'"].

Definition cfg_stop : jsstr :=
  cfg [js "# stop monitor"; js "endpoint_add_tcp '0.0.0.0:30120'";
       js "endpoint_add_udp '0.0.0.0:30120'"].

Definition cfg_max64 : jsstr := cfg [js "sv_maxclients 64"; js "endpoint_add_tcp '0.0.0.0:30120'"].

Definition cfg_udp_only : jsstr := cfg [js "endpoint_add_udp '0.0.0.0:30120'"].

Definition cfg_tcp_only : jsstr := cfg [js "endpoint_add_tcp '0.0.0.0:30120'"].

Definition cfg_mismatch : jsstr :=
  cfg [js "endpoint_add_tcp '0.0.0.0:30120'"; js "endpoint_add_udp '0.0.0.0:30121'"].

Definition cfg_reserved : jsstr :=
  cfg [js "endpoint_add_tcp '0.0.0.0:40125'"; js "endpoint_add_udp '0.0.0.0:40125'"].

Definition cfg_zap_ok : jsstr :=
  cfg [js "sv_maxclients 32"; js "endpoint_add_tcp '127.0.0.1:30120'";
       js "endpoint_add_tcp '1.2.3.4:30120'"; js "endpoint_add_udp '1.2.3.4:30120'"].

Definition cfg_zap_bad_iface : jsstr :=
  cfg [js "sv_maxclients 32"; js "endpoint_add_tcp '127.0.0.1:30120'";
       js "endpoint_add_tcp '9.9.9.9:30120'"; js "endpoint_add_udp '1.2.3.4:30120'"].

Definition cfg_zap_no_loopback : jsstr :=
  cfg [js "sv_maxclients 32"; js "endpoint_add_tcp '1.2.3.4:30120'";
       js "endpoint_add_udp '1.2.3.4:30120'"].

Definition cfg_public_iface : jsstr :=
  cfg [js "endpoint_add_tcp '1.2.3.4:30120'"; js "endpoint_add_udp '1.2.3.4:30120'"].

(** Evaluate a closed side condition. *)
Ltac by_eval := vm_compute; first [reflexivity | discriminate | lia].

(** ** Witnesses *)

Lemma getFXServerPort_stop_monitor_witness :
  includes cfg_stop (js "stop monitor") = true /\ getFXServerPort gd_plain cfg_stop = Err StopMonitor.
Proof. split; [by_eval|]. apply getFXServerPort_stop_monitor. by_eval. Defined.

Lemma getFXServerPort_port_bounds_witness :
  getFXServerPort gd_plain cfg_basic = Ok (Num 30120)
  /\ exists z, Num 30120 = Num z /\ (0 <= z <= 99999)%Z /\ ~ reserved z.
Proof.
  split; [by_eval|]. apply (getFXServerPort_port_bounds gd_plain cfg_basic). by_eval.
Defined.

Lemma getFXServerPort_missing_maxclients_witness :
  getFXServerPort gd_zap cfg_basic = Err (ZapMissingMaxClients 48).
Proof. apply getFXServerPort_missing_maxclients; by_eval. Defined.

Lemma getFXServerPort_maxclients_too_high_witness :
  getFXServerPort gd_zap cfg_max64 = Err (ZapMaxClientsTooHigh 48).
Proof.
  apply (getFXServerPort_maxclients_too_high gd_zap cfg_max64 48 (scanned_mc cfg_max64));
    [by_eval|by_eval|by_eval|vm_compute; constructor; reflexivity].
Defined.

Lemma getFXServerPort_no_tcp_witness :
  getFXServerPort gd_plain cfg_udp_only = Err NoTCPEndpoint.
Proof.
  apply (getFXServerPort_no_tcp gd_plain cfg_udp_only (scanned cfg_udp_only) (scanned_mc cfg_udp_only));
    [by_eval|by_eval|by_eval|apply max_clients_ok_iff; by_eval|rewrite has_tcp_iff; by_eval].
Defined.

Lemma getFXServerPort_no_udp_witness :
  getFXServerPort gd_plain cfg_tcp_only = Err NoUDPEndpoint.
Proof.
  apply (getFXServerPort_no_udp gd_plain cfg_tcp_only (scanned cfg_tcp_only) (scanned_mc cfg_tcp_only));
    [by_eval|by_eval|by_eval|apply max_clients_ok_iff; by_eval|apply has_tcp_iff; by_eval
    |rewrite has_udp_iff; by_eval].
Defined.

Lemma getFXServerPort_port_mismatch_witness :
  getFXServerPort gd_plain cfg_mismatch = Err PortMismatch.
Proof.
  apply (getFXServerPort_port_mismatch gd_plain cfg_mismatch
           (hd no_endpoint (scanned cfg_mismatch)) (tl (scanned cfg_mismatch))
           (scanned_mc cfg_mismatch));
    [by_eval|by_eval|by_eval|apply max_clients_ok_iff; by_eval|apply has_tcp_iff; by_eval
    |apply has_udp_iff; by_eval|vm_compute; constructor; discriminate].
Defined.

Lemma getFXServerPort_reserved_port_witness :
  getFXServerPort gd_plain cfg_reserved = Err ReservedPort
  /\ fx_exception ReservedPort = JsReferenceError (js "port is not defined").
Proof.
  apply (getFXServerPort_reserved_port gd_plain cfg_reserved (scanned cfg_reserved)
           (scanned_mc cfg_reserved) 40125);
    [by_eval|by_eval|by_eval|apply max_clients_ok_iff; by_eval|apply has_tcp_iff; by_eval
    |apply has_udp_iff; by_eval|apply uniform_port_iff; by_eval|unfold reserved; lia].
Defined.

Lemma getFXServerPort_forced_port_witness :
  getFXServerPort gd_zap_noport cfg_zap_ok = Err (ZapInvalidPort (js "1.2.3.4") None).
Proof.
  apply (getFXServerPort_forced_port gd_zap_noport cfg_zap_ok (scanned cfg_zap_ok)
           (scanned_mc cfg_zap_ok) 30120);
    [by_eval|by_eval|by_eval|apply max_clients_ok_iff; by_eval|apply has_tcp_iff; by_eval
    |apply has_udp_iff; by_eval|apply uniform_port_iff; by_eval|unfold reserved; lia
    |by_eval|by_eval].
Defined.

Lemma getFXServerPort_forced_interface_witness :
  getFXServerPort gd_zap cfg_zap_bad_iface
  = Err (ZapInvalidInterface (js "9.9.9.9") (js "1.2.3.4") (Some 30120%Z)).
Proof.
  apply (getFXServerPort_forced_interface gd_zap cfg_zap_bad_iface (scanned cfg_zap_bad_iface)
           (scanned_mc cfg_zap_bad_iface) 30120)
    with (pre := firstn 1 (scanned cfg_zap_bad_iface)) (post := skipn 2 (scanned cfg_zap_bad_iface))
         (bad := nth 1 (scanned cfg_zap_bad_iface) no_endpoint);
    [by_eval|by_eval|by_eval|apply max_clients_ok_iff; by_eval|apply has_tcp_iff; by_eval
    |apply has_udp_iff; by_eval|apply uniform_port_iff; by_eval|unfold reserved; lia
    |by_eval|by_eval|by_eval|vm_compute; constructor; [right; reflexivity|constructor]
    |by_eval|by_eval].
Defined.

Lemma getFXServerPort_missing_loopback_witness :
  getFXServerPort gd_zap cfg_zap_no_loopback
  = Err (ZapMissingLoopback (js "1.2.3.4") (Some 30120%Z)).
Proof.
  apply (getFXServerPort_missing_loopback gd_zap cfg_zap_no_loopback (scanned cfg_zap_no_loopback)
           (scanned_mc cfg_zap_no_loopback) 30120);
    [by_eval|by_eval|by_eval|apply max_clients_ok_iff; by_eval|apply has_tcp_iff; by_eval
    |apply has_udp_iff; by_eval|apply uniform_port_iff; by_eval|unfold reserved; lia
    |by_eval|by_eval|vm_compute; repeat constructor|].
  intros (e & Hin & Ht & Hl). vm_compute in Hin.
  destruct Hin as [<-|[<-|[]]]; vm_compute in Hl; discriminate.
Defined.

Lemma getFXServerPort_no_valid_tcp_witness :
  getFXServerPort gd_plain cfg_public_iface = Err NoValidTCPEndpoint.
Proof.
  apply (getFXServerPort_no_valid_tcp gd_plain cfg_public_iface (scanned cfg_public_iface)
           (scanned_mc cfg_public_iface) 30120);
    [by_eval|by_eval|by_eval|apply max_clients_ok_iff; by_eval|apply has_tcp_iff; by_eval
    |apply has_udp_iff; by_eval|apply uniform_port_iff; by_eval|unfold reserved; lia
    |by_eval|rewrite default_iface_ok_iff; by_eval].
Defined.

(** Only loopback TCP, as line 136 says is refused. *)
Definition cfg_loopback : jsstr :=
  cfg [js "endpoint_add_tcp '127.0.0.1:30120'"; js "endpoint_add_udp '0.0.0.0:30120'"].

Lemma getFXServerPort_loopback_accepted_witness :
  getFXServerPort gd_plain cfg_loopback = Ok (Num 30120).
Proof.
  apply (getFXServerPort_loopback_accepted gd_plain cfg_loopback (scanned cfg_loopback)
           (scanned_mc cfg_loopback) 30120)
    with (e := Endpoint (js "endpoint_add_tcp '127.0.0.1:30120'") (js "tcp") loopback (Num 30120));
    [by_eval|by_eval|by_eval|apply max_clients_ok_iff; by_eval|apply has_tcp_iff; by_eval
    |apply has_udp_iff; by_eval|apply uniform_port_iff; by_eval|unfold reserved; lia
    |by_eval|vm_compute; left; reflexivity|by_eval|by_eval].
Defined.

(** The endpoint matches of [cfg_basic]. *)
Definition basic_matches : list rmatch :=
  match exec_all gim endpointsRegex cfg_basic with Some l => l | None => [] end.

Lemma exec_all_iff_witness :
  exec_all gim endpointsRegex cfg_basic = Some basic_matches
  <-> all_matches gim endpointsRegex cfg_basic 0 basic_matches.
Proof. apply exec_all_iff; by_eval. Defined.

Lemma exec_spec_witness :
  match exec gim endpointsRegex cfg_basic 0 with
  | Some m => span gim cfg_basic endpointsRegex (m_index m) (m_end m)
  | None => False
  end.
Proof.
  pose proof (exec_spec gim endpointsRegex cfg_basic 0 eq_refl) as H.
  destruct (exec gim endpointsRegex cfg_basic 0) as [m|] eqn:E;
    [exact (proj1 (proj2 H))|vm_compute in E; discriminate].
Defined.

Lemma exec_all_sorted_witness :
  Sorted lt (map m_index (match exec_all gim endpointsRegex cfg_zap_ok with Some l => l | None => [] end)).
Proof. apply (exec_all_sorted gim endpointsRegex cfg_zap_ok); by_eval. Defined.

(** ** The schedule parser *)

Lemma parseSchedule_fields_bounded_witness :
  In (ParsedTime (js "9:05") (Num 9) (Num 5)) (parseSchedule (SchedString (js "9:05, 12:30")) true)
  /\ field_ok 23 (Num 9) = true /\ field_ok 59 (Num 5) = true.
Proof.
  assert (H : In (ParsedTime (js "9:05") (Num 9) (Num 5))
                 (parseSchedule (SchedString (js "9:05, 12:30")) true)) by (vm_compute; left; reflexivity).
  split; [exact H|exact (parseSchedule_fields_bounded _ _ _ _ _ H)].
Defined.

Lemma parseSchedule_roundtrip_witness :
  parseSchedule (SchedString (join [44%N] (map (fun '(h, m) => time_text h m) [(6, 0); (18, 30)]%N))) true
  = map (fun '(h, m) => parsed_text h m) [(6, 0); (18, 30)]%N.
Proof. apply parseSchedule_roundtrip; [discriminate|repeat constructor]. Defined.

Lemma parseSchedule_raw_entries_witness :
  In (RawTime (js " noon")) (parseSchedule (SchedString (js "06:00, noon")) false)
  /\ false = false /\ In (js " noon") (times_of (SchedString (js "06:00, noon"))) /\ js " noon" <> [].
Proof.
  assert (H : In (RawTime (js " noon")) (parseSchedule (SchedString (js "06:00, noon")) false))
    by (vm_compute; right; left; reflexivity).
  split; [exact H|exact (parseSchedule_raw_entries _ _ _ H)].
Defined.

(** ** Locating [server.cfg] *)

(** A server folder where [server.cfg] is a directory and
    [server.cfg.txt] the configuration. *)
Definition disk_txt : Disk.disk :=
  Disk.Disk (js "/home/fx")
    [(js "/srv/fx/server.cfg", Disk.NDir);
     (js "/srv/fx/server.cfg.txt", Disk.NFile (Some (js "endpoint_add_tcp 0.0.0.0:30120")))]
    eq_refl.

(** A server folder whose [server.cfg] is a link to a readable file. *)
Definition disk_link : Disk.disk :=
  Disk.Disk (js "/home/fx")
    [(js "/srv/fx/server.cfg", Disk.NSymlink (js "real.cfg"));
     (js "/srv/fx/real.cfg", Disk.NFile (Some (js "endpoint_add_tcp 0.0.0.0:30120")))]
    eq_refl.

Example findLikelyCFGPath_txt :
  findLikelyCFGPath disk_txt (js "/srv/fx") = Some (js "/srv/fx/server.cfg.txt").
Proof. vm_compute. reflexivity. Qed.

Lemma findLikelyCFGPath_relative_witness :
  Path.isAbsolute (js "srv/fx") = false /\ findLikelyCFGPath disk_txt (js "srv/fx") = None.
Proof.
  assert (H : Path.isAbsolute (js "srv/fx") = false) by reflexivity.
  split; [exact H|exact (findLikelyCFGPath_relative disk_txt _ H)].
Defined.

Lemma getCFGFileData_messages_witness :
  getCFGFileData disk_txt (js "/srv/fx/server.cfg") = Err CfgNotAFile
  /\ exists msg, cfg_message CfgNotAFile = Some msg.
Proof.
  assert (H : getCFGFileData disk_txt (js "/srv/fx/server.cfg") = Err CfgNotAFile) by by_eval.
  split; [exact H|exact (getCFGFileData_messages disk_txt _ _ H)].
Defined.

Lemma resolveCFGFilePath_absolute_witness :
  Path.isAbsolute (resolveCFGFilePath disk_txt (js "server.cfg") (js "../srv/fx")) = true
  /\ resolveCFGFilePath disk_txt (resolveCFGFilePath disk_txt (js "server.cfg") (js "../srv/fx")) (js "x")
     = resolveCFGFilePath disk_txt (js "server.cfg") (js "../srv/fx").
Proof. exact (resolveCFGFilePath_absolute disk_txt (js "server.cfg") (js "../srv/fx") (js "x")). Defined.

Lemma symlink_cfg_rejected_witness :
  getCFGFileData disk_link (js "/srv/fx/server.cfg")
  = Err (if Disk.disk_existsSync disk_link (js "/srv/fx/server.cfg") then CfgNotAFile else CfgNotFound).
Proof.
  apply (Disk.symlink_cfg_rejected disk_link _ (js "/srv/fx/server.cfg") (js "real.cfg")); by_eval.
Defined.

(** ** The dependency check *)

(** A [package.json] whose [dependencies] name [express] twice and [ws],
    with [ws] not installed. *)
Definition env_missing_ws : env :=
  Env None (js "/res/txAdmin")
    (fun _ => Ok (js "{...}"))
    (fun _ => Ok (JObject [(js "name", JString (js "txAdmin"));
                           (js "dependencies", JObject [(js "express", JString (js "4"));
                                                         (js "ws", JString (js "7"));
                                                         (js "express", JString (js "5"))])]))
    (fun p => negb (str_eqb p (js "ws"))).

Lemma dependencyChecker_report_witness :
  exists missing, dependencyChecker env_missing_ws = Outcome (missing_report missing) true
    /\ NoDup missing /\ forall p, In p missing <-> In p [js "express"; js "ws"] /\ resolves env_missing_ws p = false.
Proof. apply dependencyChecker_report; by_eval. Defined.

(** ** The loop as a step relation *)

Lemma exec_loop_live_witness :
  Acc (fun s' s => loop_step gim endpointsRegex cfg_basic s s') (Running 0 [])
  /\ exists l, clos_refl_trans_1n _ (loop_step gim endpointsRegex cfg_basic) (Running 0 []) (Done l)
     /\ exec_all gim endpointsRegex cfg_basic = Some l.
Proof. apply exec_loop_live; by_eval. Defined.

(** ** The banner *)

Example txAdminASCII_banner :
  txAdminASCII =
  join [10%N]
  [js "  _            _       _           _       ";
   js " | |___  __   / \   __| |_ __ ___ (_)_ __  ";
   js " | __\ \/ /  / _ \ / _` | '_ ` _ \| | '_ \ ";
   js " | |_ >  <  / ___ \ (_| | | | | | | | | | |";
   js "  \__/_/\_\/_/   \_\__,_|_| |_| |_|_|_| |_|";
   js "                                           "].
Proof. vm_compute. reflexivity. Qed.

Lemma base64_roundtrip_witness :
  buffer_from_base64 (buffer_toString_base64 (js "txAdmin")) = js "txAdmin".
Proof. apply base64_roundtrip. vm_compute. repeat constructor. Defined.

(** ** The exported helpers together *)

Lemma exports_found_cfg_usable_witness :
  (exists raw, ex_getCFGFileData _ module_exports disk_txt (js "/srv/fx/server.cfg.txt") = Ok raw)
  /\ forall serverDataPath,
       ex_resolveCFGFilePath _ module_exports disk_txt (js "/srv/fx/server.cfg.txt") serverDataPath
       = js "/srv/fx/server.cfg.txt".
Proof. apply (exports_found_cfg_usable disk_txt (js "/srv/fx")). by_eval. Defined.

(** ** Behaviours the spec does not describe *)

(** The [\s+] after [endpoint_add_tcp] also matches a line break, so a
    directive whose address is on the next line is read as an endpoint,
    while the spec scans each line on its own. *)
Example endpoint_directive_spans_lines :
  option_map (map (fun e => (type e, iface e, port e)))
    (extract_endpoints (cfg [js "endpoint_add_tcp"; js "0.0.0.0:30120"]))
  = Some [(js "tcp", js "0.0.0.0", Num 30120)].
Proof. vm_compute. reflexivity. Qed.

(** A port of more than five digits is not rejected: [[0-9]{1,5}]
    takes the first five and [.*] the rest, so [0.0.0.0:301201] binds port
    30120 and the file is accepted. *)
Example endpoint_port_truncated :
  getFXServerPort gd_plain
    (cfg [js "endpoint_add_tcp '0.0.0.0:301201'"; js "endpoint_add_udp '0.0.0.0:30120'"])
  = Ok (Num 30120).
Proof. vm_compute. reflexivity. Qed.

(** [endpoint_add_(\w+)] accepts any word as the type, so a directive
    such as [endpoint_add_foo] is an endpoint and takes part in the port
    rule, though the spec lists only [tcp] and [udp]. *)
Example foreign_endpoint_type_counts :
  getFXServerPort gd_plain
    (cfg [js "endpoint_add_tcp '0.0.0.0:30120'"; js "endpoint_add_udp '0.0.0.0:30120'";
          js "endpoint_add_foo '0.0.0.0:30121'"])
  = Err PortMismatch.
Proof. vm_compute. reflexivity. Qed.

Lemma parseSchedule_blank_entry_witness :
  parseSchedule (SchedString (js "06:00, ,18:30")) true
  = [parsed_text 6 0; ParsedTime [] NaN NaN; parsed_text 18 30].
Proof.
  rewrite (parseSchedule_blank_entry _ _ [js "06:00"] [js "18:30"] (js " "));
    [by_eval|by_eval|discriminate|by_eval].
Defined.

(** The pattern has the [m] flag, so an entry with a line break is
    accepted when one of its lines is a time: [noon\n12:30] reads as 12:30. *)
Example multiline_schedule_entry_accepted :
  parseSchedule (SchedString (js "noon" ++ [10%N] ++ js "12:30")) true
  = [ParsedTime (js "12:30") (Num 12) (Num 30)].
Proof. vm_compute. reflexivity. Qed.

(** The link of [disk_link] leads to a readable configuration, yet
    [findLikelyCFGPath] finds nothing in the folder. *)
Example symlinked_cfg_not_found :
  Disk.disk_readFileSync disk_link (js "/srv/fx/server.cfg")
  = Ok (js "endpoint_add_tcp 0.0.0.0:30120")
  /\ findLikelyCFGPath disk_link (js "/srv/fx") = None.
Proof. split; vm_compute; reflexivity. Qed.

Definition env_no_deps : env :=
  Env None (js "/res/txAdmin") (fun _ => Ok (js "{...}"))
    (fun _ => Ok (JObject [(js "name", JString (js "txAdmin")); (js "version", JString (js "4"))]))
    (fun _ => true).

Lemma dependencyChecker_no_dependencies_witness :
  dependencyChecker env_no_deps
  = Outcome [js "[txAdmin:PreCheck] Error reading or parsing package.json: "
             ++ js "Cannot convert undefined or null to object"] true.
Proof.
  apply (dependencyChecker_no_dependencies env_no_deps (js "{...}")
           [(js "name", JString (js "txAdmin")); (js "version", JString (js "4"))]);
    [by_eval|by_eval|by_eval|].
  intros v [H|[H|[]]]; discriminate.
Defined.
